(** * Hierarchical RNN encoder (models/pytorch/encoders/hierarchical_rnn.py)

    A shallow embedding of [HierarchicalRNNEncoder.__init__] and
    [HierarchicalRNNEncoder.forward].  Dense tensors are nested lists in
    the layout the code gives them, Python exceptions are values of
    [exn], and every fallible step runs in the [result] monad.

    What the encoder calls but does not define (the recurrent cells, the
    linear projection, the convolutional front-end, the zero initial
    state and the scalar arithmetic on floats) is the interface
    [Framework]; the tensor utilities of torch that the forward pass is
    wired from (sort, index selection, transpose, pack/pad of padded
    sequences, broadcast addition, slicing) are written out below. *)

From Stdlib Require Import String ZArith Lia Bool Arith Permutation List.
Import ListNotations.

Set Implicit Arguments.

(* ================================================================== *)
(** ** Exceptions and the result monad *)

Inductive exn : Type :=
| ValueError (msg : string)
| AssertionError (line : nat)     (* the source line of the failing assert *)
| IndexError
| AttributeError
| RuntimeError                    (* torch: sizes that do not match, lengths that cannot be packed *)
| UnboundLocalError.

Inductive result (A : Type) : Type :=
| Ok (a : A)
| Raise (e : exn).

Arguments Ok {A} a.
Arguments Raise {A} e.

Definition bind {A B : Type} (m : result A) (k : A -> result B) : result B :=
  match m with
  | Ok a => k a
  | Raise e => Raise e
  end.

Notation "x <- m ;; k" := (bind m (fun x => k))
  (at level 61, m at next level, right associativity).
Notation "' p <- m ;; k" := (bind m (fun x => match x with p => k end))
  (at level 61, p pattern, m at next level, right associativity).

Definition fmap {A B : Type} (f : A -> B) (m : result A) : result B :=
  x <- m ;; Ok (f x).

(** [assert c] at source line [line]. *)
Definition assert (line : nat) (c : bool) : result unit :=
  if c then Ok tt else Raise (AssertionError line).

Fixpoint map_r {A B : Type} (f : A -> result B) (l : list A) : result (list B) :=
  match l with
  | [] => Ok []
  | x :: l' => y <- f x ;; ys <- map_r f l' ;; Ok (y :: ys)
  end.

(** A Python [for] loop whose body may raise: the state is threaded
    through the items from left to right. *)
Fixpoint for_each {S I : Type} (body : S -> I -> result S) (items : list I) (s : S)
  : result S :=
  match items with
  | [] => Ok s
  | i :: items' => s' <- body s i ;; for_each body items' s'
  end.

(* ================================================================== *)
(** ** Python lists: slices, last element, equality *)

(** A slice bound as Python normalises it for a list of [len] items:
    a negative bound counts from the end, and both are clamped. *)
Definition slice_index (len : nat) (i : Z) : nat :=
  if (i <? 0)%Z then Z.to_nat (Z.max 0 (Z.of_nat len + i))
  else Nat.min (Z.to_nat i) len.

(** [l[:n]] *)
Definition slice_to {A : Type} (n : Z) (l : list A) : list A :=
  firstn (slice_index (length l) n) l.

(** [l[n:]] *)
Definition slice_from {A : Type} (n : Z) (l : list A) : list A :=
  skipn (slice_index (length l) n) l.

(** [l[a:b]] *)
Definition slice {A : Type} (a b : Z) (l : list A) : list A :=
  let start := slice_index (length l) a in
  let stop := slice_index (length l) b in
  firstn (stop - start) (skipn start l).

(** [l[-1]] *)
Definition last_item {A : Type} (l : list A) : result A :=
  match rev l with
  | x :: _ => Ok x
  | [] => Raise IndexError
  end.

(** [l[i]] for [i >= 0] *)
Definition item {A : Type} (l : list A) (i : nat) : result A :=
  match nth_error l i with
  | Some x => Ok x
  | None => Raise IndexError
  end.

Fixpoint list_Z_eqb (l1 l2 : list Z) : bool :=
  match l1, l2 with
  | [], [] => true
  | x :: l1', y :: l2' => (x =? y)%Z && list_Z_eqb l1' l2'
  | _, _ => false
  end.

(* ================================================================== *)
(** ** The framework the encoder is built on

    [F] stands for the floats of the tensors; nothing is assumed of
    [fadd] (float addition is not associative).  A recurrent cell maps a
    packed batch and an initial state to the packed outputs and the
    stacked final hidden state [h_n] of size
    [num_directions, B, num_units]; for an LSTM the cell state that
    comes with [h_n] is dropped by the caller (line 225) and is left out
    here.  A linear layer acts on the last dimension.  Each constructor
    takes the index of the layer it is built for, which stands for the
    weights that module is initialised with. *)

Definition Vec_ (F : Type) : Type := list F.
Definition Tensor3_ (F : Type) : Type := list (list (list F)).
(** A packed batch (torch's PackedSequence), as the sequences it packs:
    row [b] holds the valid frames of example [b], longest first. *)
Definition Packed_ (F : Type) : Type := list (list (list F)).

Record conv_module (F ConvLayers : Type) : Type := {
  output_size : Z;
  conv_layers : ConvLayers;                      (* self.conv.conv *)
  conv_call : Tensor3_ F -> Tensor3_ F           (* [B, T, D] -> [B, T', D'] *)
}.

(** A list of lengths that never go up. *)
Fixpoint non_increasing (l : list Z) : bool :=
  match l with
  | x :: (y :: _) as l' => (y <=? x)%Z && non_increasing l'
  | _ => true
  end.

Class Framework : Type := {
  F : Type;
  fadd : F -> F -> F;
  fzero : F;                                     (* padding_value=0.0 *)
  Hidden0 : Type;
  _init_hidden : nat -> string -> Z -> Z -> Z -> bool -> bool -> Hidden0;
  ConvLayers : Type;
  CNNEncoder : Z -> list Z -> list (Z * Z) -> list (Z * Z) -> list (Z * Z) ->
               F -> F -> string -> bool -> bool -> result (conv_module F ConvLayers);
  ConvOutSize : ConvLayers -> Z -> Z -> Z;
  nn_LSTM : nat -> Z -> Z -> bool -> F -> bool -> Packed_ F -> Hidden0 -> Packed_ F * Tensor3_ F;
  nn_GRU : nat -> Z -> Z -> bool -> F -> bool -> Packed_ F -> Hidden0 -> Packed_ F * Tensor3_ F;
  nn_RNN : nat -> Z -> Z -> bool -> F -> bool -> Packed_ F -> Hidden0 -> Packed_ F * Tensor3_ F;
  LinearND : nat -> Z -> Z -> Vec_ F -> Vec_ F;
  (* lens.sort(dim=0, descending=True): the sorted values and their
     positions in the input; sorted position i holds the item perm[i].
     The order of equal values is the library's choice. *)
  sort_descending : list Z -> list Z * list nat;
  sort_descending_perm : forall xs : list Z,
    Permutation (snd (sort_descending xs)) (seq 0 (length xs));
  sort_descending_values : forall xs : list Z,
    fst (sort_descending xs) = map (fun i => nth i xs 0%Z) (snd (sort_descending xs));
  sort_descending_sorted : forall xs : list Z,
    non_increasing (fst (sort_descending xs)) = true
}.

Section Model.

Context {fw : Framework}.

Definition Vec : Type := Vec_ F.
Definition Tensor3 : Type := Tensor3_ F.
Definition Packed : Type := Packed_ F.
Definition rnn_cell : Type := Packed -> Hidden0 -> Packed * Tensor3.
Definition linear : Type := Vec -> Vec.

(* ------------------------------------------------------------------ *)
(** *** Dense tensors *)

(** [t.size(d)] of a three-dimensional tensor. *)
Definition size (d : nat) (t : Tensor3) : nat :=
  match d with
  | 0 => length t
  | 1 => length (hd [] t)
  | _ => length (hd [] (hd [] t))
  end.

(** [t.transpose(0, 1)] *)
Definition transpose01 (t : Tensor3) : Tensor3 :=
  map (fun j => map (fun row => nth j row []) t) (seq 0 (length (hd [] t))).

(** A module applied along the last dimension. *)
Definition apply_last (f : linear) (t : Tensor3) : Tensor3 :=
  map (map f) t.

(** Addition of two operands along one dimension, as torch broadcasts
    it: equal sizes are added item by item, a dimension of size one is
    expanded to the other operand's size, anything else is an error. *)
Fixpoint zip_with_r {A : Type} (f : A -> A -> result A) (xs ys : list A)
  : result (list A) :=
  match xs, ys with
  | x :: xs', y :: ys' => z <- f x y ;; zs <- zip_with_r f xs' ys' ;; Ok (z :: zs)
  | _, _ => Ok []
  end.

Definition broadcast {A : Type} (f : A -> A -> result A) (xs ys : list A)
  : result (list A) :=
  if length xs =? length ys then zip_with_r f xs ys
  else match xs, ys with
       | [x], _ => map_r (fun y => f x y) ys
       | _, [y] => map_r (fun x => f x y) xs
       | _, _ => Raise RuntimeError
       end.

Definition vec_add (v w : Vec) : result Vec :=
  broadcast (fun a b => Ok (fadd a b)) v w.

Definition mat_add (m n : list Vec) : result (list Vec) :=
  broadcast vec_add m n.

(** [t + u] *)
Definition tensor_add (t u : Tensor3) : result Tensor3 :=
  broadcast mat_add t u.

(** [t[:, :, :n]] and [t[:, :, n:]] *)
Definition narrow_to (n : Z) (t : Tensor3) : Tensor3 :=
  map (map (slice_to n)) t.

Definition narrow_from (n : Z) (t : Tensor3) : Tensor3 :=
  map (map (slice_from n)) t.

(** [t[perm]]: selection along the first dimension by a tensor of
    indices. *)
Definition index_select {A : Type} (t : list A) (idx : list nat) : result (list A) :=
  map_r (item t) idx.

(* ------------------------------------------------------------------ *)
(** *** Sorting the lengths *)

(** The position of [j] in [perm], and the permutation that undoes
    [perm] (torch: [perm.sort()[1]]).  The encoder never computes it; it
    is what a caller needs to put sorted rows back in the order of the
    batch it handed over. *)
Fixpoint index_of (j : nat) (perm : list nat) : nat :=
  match perm with
  | [] => 0
  | i :: perm' => if i =? j then 0 else S (index_of j perm')
  end.

Definition inverse_permutation (perm : list nat) : list nat :=
  map (fun j => index_of j perm) (seq 0 (length perm)).

(* ------------------------------------------------------------------ *)
(** *** Packing and unpacking padded sequences *)

(** [pack_padded_sequence(input, lengths, batch_first)]: the lengths
    must be positive, one per example and sorted in decreasing order;
    example [b] keeps its first [lengths[b]] frames.  The library
    refuses other lengths with an error of its own, a RuntimeError in
    the version at hand.  A length above the number of frames is an
    error of the library too: torch packs what frames there are and
    the first recurrent cell, the next call of the library, raises;
    here the error is raised with the packing. *)
Definition pack_padded_sequence (input : Tensor3) (lengths : list Z) (batch_first : bool)
  : result Packed :=
  last_len <- last_item lengths ;;
  if (last_len <=? 0)%Z then Raise RuntimeError
  else
    let rows := if batch_first then input else transpose01 input in
    if negb (length lengths =? length rows) then Raise RuntimeError
    else if negb (non_increasing lengths) then Raise RuntimeError
    else if existsb (fun lr => length (snd lr) <? Z.to_nat (fst lr)) (combine lengths rows)
    then Raise RuntimeError
    else
      Ok (map (fun lr => firstn (Z.to_nat (fst lr)) (snd lr)) (combine lengths rows)).

(** [pad_packed_sequence(sequence, batch_first, padding_value=0.0)]
    returns the padded tensor, every example filled up to the longest
    one with frames of [padding_value], and the list of the lengths. *)
Definition pad_packed_sequence (sequence : Packed) (batch_first : bool)
  : result (Tensor3 * list Z) :=
  match sequence with
  | [] => Raise IndexError
  | first :: _ =>
      let max_len := list_max (map (@length Vec) sequence) in
      let padding : Vec := repeat fzero (length (hd [] first)) in
      let rows := map (fun row => row ++ repeat padding (max_len - length row)) sequence in
      let lengths := map (fun row => Z.of_nat (length row)) sequence in
      Ok (if batch_first then rows else transpose01 rows, lengths)
  end.

(** The dimension of a padded tensor that counts the frames. *)
Definition time_dim (batch_first : bool) : nat :=
  if batch_first then 1 else 0.

(** The lengths unpadding reports for a packed batch. *)
Definition packed_lengths (p : Packed) : list Z :=
  map (fun row => Z.of_nat (length row)) p.

(** [t] has size [d0, d1, d2]. *)
Definition has_size (d0 d1 d2 : nat) (t : Tensor3) : Prop :=
  length t = d0 /\
  Forall (fun m => length m = d1 /\ Forall (fun v : Vec => length v = d2) m) t.

(** A recurrent cell as torch builds it: one output frame per input
    frame, and a hidden state that is not empty. *)
Definition keeps_lengths (rnn : rnn_cell) : Prop :=
  forall (p : Packed) (h_0 : Hidden0),
    packed_lengths (fst (rnn p h_0)) = packed_lengths p /\ snd (rnn p h_0) <> [].

(* ------------------------------------------------------------------ *)
(** *** The encoder object *)

(** The attributes [__init__] sets on [self]. *)
Record encoder : Type := {
  rnn_type : string;
  bidirectional : bool;
  num_directions : Z;
  num_units : Z;
  num_proj : Z;
  num_layers : Z;
  num_layers_sub : Z;
  use_cuda : bool;
  batch_first : bool;
  merge_bidirectional : bool;
  residual : bool;
  dense_residual : bool;
  conv : option (conv_module F ConvLayers);
  conv_out_size : option (Z -> Z -> Z);          (* set only beside a front-end *)
  rnns : list rnn_cell;
  projections : list linear
}.

(** What [forward] returns. *)
Record forward_result : Type := {
  outputs : Tensor3;
  final_state_fw : Tensor3;
  outputs_sub : Tensor3;
  final_state_fw_sub : Tensor3;
  perm_indices : list nat
}.

(** The local variables the loop over the layers carries; [h_n],
    [outputs_sub] and [h_n_sub] are unbound until a layer assigns
    them. *)
Record loop_state : Type := {
  st_outputs : Packed;
  st_res_outputs_list : list Tensor3;
  st_h_n : option Tensor3;
  st_outputs_sub : option Packed;
  st_h_n_sub : option Tensor3
}.

Definition local {A : Type} (v : option A) : result A :=
  match v with
  | Some x => Ok x
  | None => Raise UnboundLocalError
  end.

(* ------------------------------------------------------------------ *)
(** *** forward, lines 196-218: sort, front-end, pack *)

(** The lengths the layers are checked against: recomputed by the
    front-end's rule when there is one (line 214). *)
Definition tracked_seq_len (self : encoder) (sorted_seq_len : list Z) : result (list Z) :=
  match conv self with
  | Some _ =>
      match conv_out_size self with
      | Some out_size => Ok (map (fun x => out_size x 1%Z) sorted_seq_len)
      | None => Raise AttributeError
      end
  | None => Ok sorted_seq_len
  end.

Definition pack_inputs (self : encoder) (inputs : Tensor3) (inputs_seq_len : list Z)
  : result (Packed * list Z * list nat) :=
  let '(inputs_seq_len, perm_indices) := sort_descending inputs_seq_len in
  inputs <- index_select inputs perm_indices ;;
  let inputs := match conv self with
                | Some c => conv_call c inputs
                | None => inputs
                end in
  let inputs := if batch_first self then inputs else transpose01 inputs in
  inputs_seq_len <- tracked_seq_len self inputs_seq_len ;;
  inputs <- pack_padded_sequence inputs inputs_seq_len (batch_first self) ;;
  Ok (inputs, inputs_seq_len, perm_indices).

(* ------------------------------------------------------------------ *)
(** *** forward, lines 220-257: the layers *)

(** Lines 231-234. *)
Definition unpack_outputs (self : encoder) (inputs_seq_len : list Z) (outputs : Packed)
  : result (Tensor3 * list Z) :=
  ' (outputs, unpacked_seq_len) <- pad_packed_sequence outputs (batch_first self) ;;
  _ <- assert 234 (list_Z_eqb inputs_seq_len unpacked_seq_len) ;;
  Ok (outputs, unpacked_seq_len).

(** Lines 237-238. *)
Definition projection_layer (self : encoder) (i_layer : nat) (outputs : Tensor3)
  : result Tensor3 :=
  if (0 <? num_proj self)%Z && negb (Z.of_nat i_layer =? num_layers self - 1)%Z then
    proj <- item (projections self) i_layer ;;
    Ok (apply_last proj outputs)
  else Ok outputs.

(** Lines 242-248. *)
Definition residual_connection (self : encoder) (outputs : Tensor3)
  (res_outputs_list : list Tensor3) : result (Tensor3 * list Tensor3) :=
  if residual self || dense_residual self then
    outputs <- for_each tensor_add res_outputs_list outputs ;;
    if residual self then Ok (outputs, [outputs])
    else if dense_residual self then Ok (outputs, res_outputs_list ++ [outputs])
    else Ok (outputs, res_outputs_list)
  else Ok (outputs, res_outputs_list).

(** Lines 229-253: what a layer does to the packed outputs of its cell. *)
Definition unpadded_branch (self : encoder) (inputs_seq_len : list Z) (i_layer : nat)
  (outputs : Packed) (res_outputs_list : list Tensor3)
  : result (Packed * list Tensor3) :=
  if residual self || dense_residual self || (0 <? num_proj self)%Z then
    ' (outputs, unpacked_seq_len) <- unpack_outputs self inputs_seq_len outputs ;;
    outputs <- projection_layer self i_layer outputs ;;
    ' (outputs, res_outputs_list) <- residual_connection self outputs res_outputs_list ;;
    outputs <- pack_padded_sequence outputs unpacked_seq_len (batch_first self) ;;
    Ok (outputs, res_outputs_list)
  else Ok (outputs, res_outputs_list).

(** The body of the loop, lines 224-257. *)
Definition layer (self : encoder) (inputs_seq_len : list Z) (h_0 : Hidden0)
  (st : loop_state) (i_layer : nat) : result loop_state :=
  rnn <- item (rnns self) i_layer ;;
  let '(outputs, h_n) := rnn (st_outputs st) h_0 in
  ' (outputs, res_outputs_list) <-
    unpadded_branch self inputs_seq_len i_layer outputs (st_res_outputs_list st) ;;
  if (Z.of_nat i_layer =? num_layers_sub self - 1)%Z then
    Ok {| st_outputs := outputs; st_res_outputs_list := res_outputs_list;
          st_h_n := Some h_n; st_outputs_sub := Some outputs; st_h_n_sub := Some h_n |}
  else
    Ok {| st_outputs := outputs; st_res_outputs_list := res_outputs_list;
          st_h_n := Some h_n; st_outputs_sub := st_outputs_sub st;
          st_h_n_sub := st_h_n_sub st |}.

(** Lines 220-221: the residual list starts empty, so the inputs are
    no residual summand (the NOTE of line 222). *)
Definition initial_state (inputs : Packed) : loop_state :=
  {| st_outputs := inputs; st_res_outputs_list := [];
     st_h_n := None; st_outputs_sub := None; st_h_n_sub := None |}.

(** The loop run over the first [n] layers. *)
Definition run_layers (self : encoder) (inputs_seq_len : list Z) (h_0 : Hidden0)
  (n : nat) (inputs : Packed) : result loop_state :=
  for_each (layer self inputs_seq_len h_0) (seq 0 n) (initial_state inputs).

(* ------------------------------------------------------------------ *)
(** *** forward, lines 259-286: unpack, merge, final states *)

(** The first [n] features of a frame added, one by one, to the [n]
    features that follow them. *)
Definition add_halves (n : nat) (v : Vec) : Vec :=
  map (fun ab => fadd (fst ab) (snd ab)) (combine (firstn n v) (skipn n v)).

(** Every frame of [t] has [n] features. *)
Definition last_dim (n : nat) (t : Tensor3) : Prop :=
  Forall (Forall (fun v : Vec => length v = n)) t.

(** [t[:, :, :num_units] + t[:, :, num_units:]], lines 269-272. *)
Definition sum_directions (self : encoder) (t : Tensor3) : result Tensor3 :=
  tensor_add (narrow_to (num_units self) t) (narrow_from (num_units self) t).

(** Lines 268-272. *)
Definition sum_bidirectional (self : encoder) (outputs outputs_sub : Tensor3)
  : result (Tensor3 * Tensor3) :=
  if bidirectional self && merge_bidirectional self then
    outputs <- sum_directions self outputs ;;
    outputs_sub <- sum_directions self outputs_sub ;;
    Ok (outputs, outputs_sub)
  else Ok (outputs, outputs_sub).

(** Lines 275-280, for one of the two stacked hidden states. *)
Definition pick_final_state (self : encoder) (h_n : Tensor3) : result Tensor3 :=
  if (num_directions self =? 2)%Z then Ok (slice (-2) (-1) h_n)
  else
    top <- last_item h_n ;;
    Ok [top].

Definition unpack_final (self : encoder) (inputs_seq_len : list Z) (st : loop_state)
  (perm_indices : list nat) : result forward_result :=
  ' (outputs, unpacked_seq_len) <- pad_packed_sequence (st_outputs st) (batch_first self) ;;
  outputs_sub <- local (st_outputs_sub st) ;;
  ' (outputs_sub, unpacked_seq_len_sub) <- pad_packed_sequence outputs_sub (batch_first self) ;;
  _ <- assert 264 (list_Z_eqb inputs_seq_len unpacked_seq_len) ;;
  _ <- assert 265 (list_Z_eqb inputs_seq_len unpacked_seq_len_sub) ;;
  ' (outputs, outputs_sub) <- sum_bidirectional self outputs outputs_sub ;;
  h_n <- local (st_h_n st) ;;
  h_n_sub <- local (st_h_n_sub st) ;;
  final_state_fw <- pick_final_state self h_n ;;
  final_state_fw_sub <- pick_final_state self h_n_sub ;;
  Ok {| outputs := outputs; final_state_fw := final_state_fw;
        outputs_sub := outputs_sub; final_state_fw_sub := final_state_fw_sub;
        perm_indices := perm_indices |}.

(* ------------------------------------------------------------------ *)
(** *** forward *)

(** Lines 188-194. *)
Definition initial_hidden (self : encoder) (inputs : Tensor3) (volatile : bool) : Hidden0 :=
  _init_hidden (size 0 inputs) (rnn_type self) (num_units self)
    (num_directions self) 1%Z (use_cuda self) volatile.

Definition forward (self : encoder) (inputs : Tensor3) (inputs_seq_len : list Z)
  (volatile : bool) : result forward_result :=
  let h_0 := initial_hidden self inputs volatile in
  ' (inputs, inputs_seq_len, perm_indices) <- pack_inputs self inputs inputs_seq_len ;;
  st <- run_layers self inputs_seq_len h_0 (Z.to_nat (num_layers self)) inputs ;;
  unpack_final self inputs_seq_len st perm_indices.

(** The results [r] with another permutation in the last place. *)
Definition with_perm (perm : list nat) (r : forward_result) : forward_result :=
  {| outputs := outputs r; final_state_fw := final_state_fw r;
     outputs_sub := outputs_sub r; final_state_fw_sub := final_state_fw_sub r;
     perm_indices := perm |}.

End Model.

(* ================================================================== *)
(** ** Construction: [__init__], lines 51-163 *)

(** The arguments of the constructor, under the names the source gives
    them. [num_proj] may be [None]. *)
Module Args.

Record t {fw : Framework} : Type := {
  input_size : Z;
  rnn_type : string;
  bidirectional : bool;
  num_units : Z;
  num_proj : option Z;
  num_layers : Z;
  num_layers_sub : Z;
  dropout : F;
  parameter_init : F;
  use_cuda : bool;
  batch_first : bool;
  merge_bidirectional : bool;
  num_stack : Z;
  splice : Z;
  conv_channels : list Z;
  conv_kernel_sizes : list (Z * Z);
  conv_strides : list (Z * Z);
  poolings : list (Z * Z);
  activation : string;
  batch_norm : bool;
  residual : bool;
  dense_residual : bool
}.

End Args.

Section Construction.

Context {fw : Framework}.

Definition sub_layer_message : string :=
  "Set num_layers_sub between 1 to num_layers.".

(** The message of line 151, without the quotation marks around the
    three names. *)
Definition rnn_type_message : string :=
  "rnn_type must be lstm or gru or rnn.".

(** Lines 96-114: the front-end, and the input size of the first
    layer. *)
Definition init_conv (a : Args.t)
  : result (Z * option (conv_module F ConvLayers) * option (Z -> Z -> Z)) :=
  if (0 <? length (Args.conv_channels a))
     && (length (Args.conv_channels a) =? length (Args.conv_kernel_sizes a))
     && (length (Args.conv_kernel_sizes a) =? length (Args.conv_strides a)) then
    _ <- assert 97 (Args.num_stack a =? 1)%Z ;;
    _ <- assert 98 (Args.splice a =? 1)%Z ;;
    conv <- CNNEncoder (Args.input_size a) (Args.conv_channels a)
              (Args.conv_kernel_sizes a) (Args.conv_strides a) (Args.poolings a)
              (Args.dropout a) (Args.parameter_init a) (Args.activation a)
              (Args.use_cuda a) (Args.batch_norm a) ;;
    Ok (output_size conv, Some conv, Some (ConvOutSize (conv_layers conv)))
  else
    Ok ((Args.input_size a * Args.splice a * Args.num_stack a)%Z, None, None).

(** Lines 119-163: the body of the loop that builds the layers. *)
Definition init_layer (a : Args.t) (self_num_proj self_num_directions input_size : Z)
  (acc : list rnn_cell * list linear) (i_layer : nat)
  : result (list rnn_cell * list linear) :=
  let '(rnns, projections) := acc in
  let encoder_input_size :=
    if i_layer =? 0 then input_size
    else if (0 <? self_num_proj)%Z then self_num_proj
    else (Args.num_units a * self_num_directions)%Z in
  rnn_i <-
    (if String.eqb (Args.rnn_type a) "lstm" then
       Ok (nn_LSTM i_layer encoder_input_size (Args.num_units a) (Args.batch_first a)
             (Args.dropout a) (Args.bidirectional a))
     else if String.eqb (Args.rnn_type a) "gru" then
       Ok (nn_GRU i_layer encoder_input_size (Args.num_units a) (Args.batch_first a)
             (Args.dropout a) (Args.bidirectional a))
     else if String.eqb (Args.rnn_type a) "rnn" then
       Ok (nn_RNN i_layer encoder_input_size (Args.num_units a) (Args.batch_first a)
             (Args.dropout a) (Args.bidirectional a))
     else Raise (ValueError rnn_type_message)) ;;
  let rnns := rnns ++ [rnn_i] in
  if (0 <? self_num_proj)%Z then
    let proj_i := LinearND i_layer (Args.num_units a * self_num_directions)%Z
                    self_num_proj in
    Ok (rnns, projections ++ [proj_i])
  else Ok (rnns, projections).

(** Lines 77-79. *)
Definition check_num_layers_sub (a : Args.t) : result unit :=
  if (Args.num_layers_sub a <? 1)%Z || (Args.num_layers a <? Args.num_layers_sub a)%Z then
    Raise (ValueError sub_layer_message)
  else Ok tt.

(** Line 91. *)
Definition check_residual_modes (a : Args.t) : result unit :=
  assert 91 (negb (Args.residual a && Args.dense_residual a)).

Definition __init__ (a : Args.t) : result encoder :=
  _ <- check_num_layers_sub a ;;
  let self_num_directions := if Args.bidirectional a then 2%Z else 1%Z in
  let self_num_proj := match Args.num_proj a with
                       | Some p => p
                       | None => 0%Z
                       end in
  _ <- check_residual_modes a ;;
  ' (input_size, self_conv, self_conv_out_size) <- init_conv a ;;
  ' (self_rnns, self_projections) <-
    for_each (init_layer a self_num_proj self_num_directions input_size)
      (seq 0 (Z.to_nat (Args.num_layers a))) ([], []) ;;
  Ok {| rnn_type := Args.rnn_type a;
        bidirectional := Args.bidirectional a;
        num_directions := self_num_directions;
        num_units := Args.num_units a;
        num_proj := self_num_proj;
        num_layers := Args.num_layers a;
        num_layers_sub := Args.num_layers_sub a;
        use_cuda := Args.use_cuda a;
        batch_first := Args.batch_first a;
        merge_bidirectional := Args.merge_bidirectional a;
        residual := Args.residual a;
        dense_residual := Args.dense_residual a;
        conv := self_conv;
        conv_out_size := self_conv_out_size;
        rnns := self_rnns;
        projections := self_projections |}.

End Construction.

(* ================================================================== *)
(** ** A small framework to run the encoder on

    Integers for the floats, cells that emit [num_units] features per
    direction (every feature the sum of the frame's features plus the
    index of the layer), a projection that emits [out] copies of the
    sum of its input, and a front-end that keeps every second frame. *)

Definition sum_Z (v : list Z) : Z := fold_right Z.add 0%Z v.

Definition toy_cell (i_layer : nat) (input_size hidden_size : Z) (batch_first : bool)
  (dropout : Z) (bidir : bool) (p : Packed_ Z) (h_0 : unit) : Packed_ Z * Tensor3_ Z :=
  let width := (Z.to_nat hidden_size * (if bidir then 2 else 1))%nat in
  (map (map (fun frame => repeat (sum_Z frame + Z.of_nat i_layer)%Z width)) p,
   map (fun d => map (fun row => repeat (sum_Z (nth (if (d =? 0)%nat then (length row - 1)%nat else 0%nat) row [])
                                         + Z.of_nat i_layer)%Z
                                   (Z.to_nat hidden_size)) p)
       (seq 0 (if bidir then 2 else 1))).

Definition toy_linear (i_layer : nat) (in_features out_features : Z) (v : Vec_ Z) : Vec_ Z :=
  repeat (sum_Z v) (Z.to_nat out_features).

Fixpoint every_second {A : Type} (l : list A) : list A :=
  match l with
  | x :: _ :: l' => x :: every_second l'
  | l' => l'
  end.

Definition toy_cnn (input_size : Z) (channels : list Z) (kernels strides pools : list (Z * Z))
  (dropout parameter_init : Z) (activation : string) (use_cuda batch_norm : bool)
  : result (conv_module Z unit) :=
  Ok {| output_size := input_size; conv_layers := tt;
        conv_call := map (@every_second (list Z)) |}.

(** The sort of the small framework: an insertion sort that keeps
    equal lengths in the order they came in. *)
Fixpoint insert_desc (x : Z * nat) (l : list (Z * nat)) : list (Z * nat) :=
  match l with
  | [] => [x]
  | y :: l' => if (fst y <=? fst x)%Z then x :: l else y :: insert_desc x l'
  end.

Definition stable_sort_descending (xs : list Z) : list Z * list nat :=
  let sorted := fold_right insert_desc [] (combine xs (seq 0 (length xs))) in
  (map fst sorted, map snd sorted).

Lemma insert_desc_perm (x : Z * nat) (l : list (Z * nat)) :
  Permutation (insert_desc x l) (x :: l).
Proof.
  induction l as [| y l IH]; simpl.
  - apply Permutation_refl.
  - destruct (fst y <=? fst x)%Z.
    + apply Permutation_refl.
    + apply perm_trans with (y :: x :: l).
      * apply perm_skip. exact IH.
      * apply perm_swap.
Qed.

Lemma insertion_sort_perm (l : list (Z * nat)) :
  Permutation (fold_right insert_desc [] l) l.
Proof.
  induction l as [| x l IH]; simpl.
  - apply perm_nil.
  - apply perm_trans with (x :: fold_right insert_desc [] l).
    + apply insert_desc_perm.
    + apply perm_skip. exact IH.
Qed.

Lemma map_snd_combine_seq (xs : list Z) (start : nat) :
  map snd (combine xs (seq start (length xs))) = seq start (length xs).
Proof.
  revert start. induction xs as [| x xs IH]; intros start; simpl.
  - reflexivity.
  - f_equal. apply IH.
Qed.

Lemma map_fst_combine_seq (xs : list Z) (start : nat) :
  map fst (combine xs (seq start (length xs))) = xs.
Proof.
  revert start. induction xs as [| x xs IH]; intros start; simpl.
  - reflexivity.
  - f_equal. apply IH.
Qed.

Lemma stable_sort_descending_perm (xs : list Z) :
  Permutation (snd (stable_sort_descending xs)) (seq 0 (length xs)).
Proof.
  unfold stable_sort_descending. simpl.
  rewrite <- (map_snd_combine_seq xs 0) at 2.
  apply Permutation_map. apply insertion_sort_perm.
Qed.

Lemma combine_seq_nth (xs : list Z) (start : nat) :
  Forall (fun p => start <= snd p /\ nth (snd p - start) xs 0%Z = fst p)
    (combine xs (seq start (length xs))).
Proof.
  revert start. induction xs as [| x xs IH]; intros start; simpl.
  - constructor.
  - constructor.
    + simpl. rewrite Nat.sub_diag. split; [lia | reflexivity].
    + eapply Forall_impl; [| apply (IH (S start))].
      intros [v i] [Hle Hn]. simpl in *. split; [lia |].
      replace (i - start) with (S (i - S start)) by lia. exact Hn.
Qed.

Lemma stable_sort_descending_values (xs : list Z) :
  fst (stable_sort_descending xs) = map (fun i => nth i xs 0%Z) (snd (stable_sort_descending xs)).
Proof.
  unfold stable_sort_descending. simpl. rewrite map_map.
  apply map_ext_in. intros [v i] Hin. simpl.
  pose proof (combine_seq_nth xs 0) as Hall.
  rewrite Forall_forall in Hall.
  destruct (Hall (v, i)) as [_ Hn].
  - eapply Permutation_in; [apply insertion_sort_perm | exact Hin].
  - simpl in Hn. rewrite Nat.sub_0_r in Hn. symmetry. exact Hn.
Qed.

Lemma insert_desc_sorted (x : Z * nat) (l : list (Z * nat)) :
  non_increasing (map fst l) = true ->
  non_increasing (map fst (insert_desc x l)) = true.
Proof.
  induction l as [| y l IH]; intros Hs.
  - reflexivity.
  - simpl insert_desc. destruct (fst y <=? fst x)%Z eqn:Hle.
    + change (map fst (x :: y :: l)) with (fst x :: fst y :: map fst l).
      cbn [non_increasing]. rewrite Hle. exact Hs.
    + apply Z.leb_gt in Hle.
      assert (Htail : non_increasing (map fst l) = true).
      { destruct l as [| z l]; [reflexivity |].
        change (map fst (y :: z :: l)) with (fst y :: fst z :: map fst l) in Hs.
        cbn [non_increasing] in Hs. apply andb_true_iff in Hs. apply Hs. }
      specialize (IH Htail).
      destruct l as [| z l].
      * simpl. replace (fst x <=? fst y)%Z with true by (symmetry; apply Z.leb_le; lia).
        reflexivity.
      * change (map fst (y :: z :: l)) with (fst y :: fst z :: map fst l) in Hs.
        cbn [non_increasing] in Hs. apply andb_true_iff in Hs. destruct Hs as [Hzy _].
        simpl insert_desc in IH |- *.
        destruct (fst z <=? fst x)%Z eqn:Hzx.
        -- change (map fst (y :: x :: z :: l))
             with (fst y :: fst x :: map fst (z :: l)).
           cbn [non_increasing].
           replace (fst x <=? fst y)%Z with true by (symmetry; apply Z.leb_le; lia).
           exact IH.
        -- change (map fst (y :: z :: insert_desc x l))
             with (fst y :: fst z :: map fst (insert_desc x l)).
           cbn [non_increasing]. rewrite Hzy. exact IH.
Qed.

Lemma stable_sort_descending_sorted (xs : list Z) :
  non_increasing (fst (stable_sort_descending xs)) = true.
Proof.
  unfold stable_sort_descending. simpl.
  induction (combine xs (seq 0 (length xs))) as [| x l IH]; simpl.
  - reflexivity.
  - apply insert_desc_sorted. exact IH.
Qed.

Lemma insertion_sort_sorted_id (xs : list Z) (start : nat) :
  non_increasing xs = true ->
  fold_right insert_desc [] (combine xs (seq start (length xs)))
  = combine xs (seq start (length xs)).
Proof.
  revert start. induction xs as [| x xs IH]; intros start Hs.
  - reflexivity.
  - assert (Htail : non_increasing xs = true).
    { destruct xs as [| y xs]; [reflexivity |].
      cbn [non_increasing] in Hs. apply andb_true_iff in Hs. apply Hs. }
    simpl. rewrite (IH (S start) Htail).
    destruct xs as [| y xs]; [reflexivity |].
    cbn [non_increasing] in Hs. apply andb_true_iff in Hs. destruct Hs as [Hyx _].
    simpl. rewrite Hyx. reflexivity.
Qed.

Lemma stable_sort_descending_sorted_id (xs : list Z) :
  non_increasing xs = true ->
  stable_sort_descending xs = (xs, seq 0 (length xs)).
Proof.
  intros Hs. unfold stable_sort_descending. rewrite (insertion_sort_sorted_id xs 0 Hs).
  rewrite map_fst_combine_seq, map_snd_combine_seq. reflexivity.
Qed.

Lemma stable_sort_descending_values_perm (xs : list Z) :
  Permutation (fst (stable_sort_descending xs)) xs.
Proof.
  unfold stable_sort_descending. simpl.
  eapply perm_trans; [apply Permutation_map, insertion_sort_perm |].
  rewrite map_fst_combine_seq. apply Permutation_refl.
Qed.

#[local] Instance toy : Framework := {|
  F := Z;
  fadd := Z.add;
  fzero := 0%Z;
  Hidden0 := unit;
  _init_hidden := fun _ _ _ _ _ _ _ => tt;
  ConvLayers := unit;
  CNNEncoder := toy_cnn;
  ConvOutSize := fun _ x _ => ((x + 1) / 2)%Z;
  nn_LSTM := toy_cell;
  nn_GRU := toy_cell;
  nn_RNN := toy_cell;
  LinearND := toy_linear;
  sort_descending := stable_sort_descending;
  sort_descending_perm := stable_sort_descending_perm;
  sort_descending_values := stable_sort_descending_values;
  sort_descending_sorted := stable_sort_descending_sorted
|}.

(** Constructor arguments with the defaults of the signature. *)
Definition toy_args (bidirectional : bool) (num_units : Z) (num_proj : option Z)
  (num_layers num_layers_sub : Z) (batch_first merge_bidirectional : bool)
  (conv_channels : list Z) (residual dense_residual : bool) : Args.t :=
  {| Args.input_size := 2%Z;
     Args.rnn_type := "lstm";
     Args.bidirectional := bidirectional;
     Args.num_units := num_units;
     Args.num_proj := num_proj;
     Args.num_layers := num_layers;
     Args.num_layers_sub := num_layers_sub;
     Args.dropout := 0%Z;
     Args.parameter_init := 0%Z;
     Args.use_cuda := false;
     Args.batch_first := batch_first;
     Args.merge_bidirectional := merge_bidirectional;
     Args.num_stack := 1%Z;
     Args.splice := 1%Z;
     Args.conv_channels := conv_channels;
     Args.conv_kernel_sizes := map (fun _ => (3%Z, 3%Z)) conv_channels;
     Args.conv_strides := map (fun _ => (1%Z, 1%Z)) conv_channels;
     Args.poolings := [];
     Args.activation := "relu";
     Args.batch_norm := false;
     Args.residual := residual;
     Args.dense_residual := dense_residual |}.

(** A batch of three sequences of lengths 5, 3 and 4, padded to five
    frames of two features. *)
Definition toy_frame (b t : Z) : list Z := [(10 * b + t)%Z; 1%Z].

Definition toy_inputs : Tensor3_ Z :=
  [ [toy_frame 1 0; toy_frame 1 1; toy_frame 1 2; toy_frame 1 3; toy_frame 1 4];
    [toy_frame 2 0; toy_frame 2 1; toy_frame 2 2; [0; 0]; [0; 0]]%Z;
    [toy_frame 3 0; toy_frame 3 1; toy_frame 3 2; toy_frame 3 3; [0; 0]]%Z ].

Definition toy_seq_len : list Z := [5; 3; 4]%Z.

(** The same three sequences handed over shortest first. *)
Definition toy_inputs_rotated : Tensor3_ Z :=
  [ [toy_frame 2 0; toy_frame 2 1; toy_frame 2 2; [0; 0]; [0; 0]]%Z;
    [toy_frame 1 0; toy_frame 1 1; toy_frame 1 2; toy_frame 1 3; toy_frame 1 4];
    [toy_frame 3 0; toy_frame 3 1; toy_frame 3 2; toy_frame 3 3; [0; 0]]%Z ].

Definition toy_seq_len_rotated : list Z := [3; 5; 4]%Z.

(** [forward] of the encoder built from [a], construction included. *)
Definition build_and_forward {fw : Framework} (a : Args.t) (inputs : Tensor3)
  (inputs_seq_len : list Z) : result forward_result :=
  self <- __init__ a ;;
  forward self inputs inputs_seq_len true.

(** The encoder the constructor returns for [a], and what forward
    returns, for runs that are known to return. *)
Definition null_encoder : encoder :=
  {| rnn_type := "lstm"; bidirectional := false; num_directions := 1%Z;
     num_units := 0%Z; num_proj := 0%Z; num_layers := 0%Z; num_layers_sub := 0%Z;
     use_cuda := false; batch_first := false; merge_bidirectional := false;
     residual := false; dense_residual := false; conv := None;
     conv_out_size := None; rnns := []; projections := [] |}.

Definition built (a : Args.t) : encoder :=
  match __init__ a with
  | Ok self => self
  | Raise _ => null_encoder
  end.

Definition returned (m : result forward_result) : forward_result :=
  match m with
  | Ok r => r
  | Raise _ =>
      {| outputs := []; final_state_fw := []; outputs_sub := [];
         final_state_fw_sub := []; perm_indices := [] |}
  end.

(** Unidirectional, two layers, sub-layer index 1, batch-major and
    time-major. *)
Definition plain_args (batch_first : bool) : Args.t :=
  toy_args false 2%Z None 2%Z 1%Z batch_first false [] false false.

(** Bidirectional with merge, one unit per direction, projection to
    three features, sub-layer index below the number of layers. *)
Definition projected_args : Args.t :=
  toy_args true 1%Z (Some 3%Z) 2%Z 1%Z true true [] false false.

(** The same with two units per direction and a projection to five
    features. *)
Definition projected_wide_args : Args.t :=
  toy_args true 2%Z (Some 5%Z) 2%Z 1%Z true true [] false false.

(** Bidirectional with merge, a front-end, a projection to
    [2 * num_units] features, dense residual connections, three layers
    and the sub-layer index on the last one. *)
Definition dense_args : Args.t :=
  toy_args true 2%Z (Some 4%Z) 3%Z 3%Z true true [1%Z] false true.

(** A sub-layer index of 0, and both residual modes at once. *)
Definition no_sub_layer_args : Args.t :=
  toy_args false 2%Z None 2%Z 0%Z true false [] false false.

Definition both_modes_args : Args.t :=
  toy_args false 2%Z None 2%Z 1%Z true false [] true true.

(** The rows of a batch-major tensor cut to [n] frames. *)
Definition first_frames (n : nat) (t : Tensor3_ Z) : Tensor3_ Z :=
  map (firstn n) t.

(** The valid frames of the rows of a batch-major tensor. *)
Definition valid_frames (lens : list Z) (t : Tensor3_ Z) : Tensor3_ Z :=
  map (fun lr => firstn (Z.to_nat (fst lr)) (snd lr)) (combine lens t).

(** The outputs of example [j] of the rotated batch encoded alone. *)
Definition alone (j : nat) : list (list Z) :=
  nth 0 (outputs (returned (forward (built (plain_args true))
                              [nth j toy_inputs_rotated []]
                              [nth j toy_seq_len_rotated 0%Z] true))) [].

(** The outputs of the three examples in the order of the caller. *)
Definition caller_order : Tensor3_ Z := [alone 0; alone 1; alone 2].

Definition rotated_result : forward_result :=
  returned (forward (built (plain_args true)) toy_inputs_rotated toy_seq_len_rotated true).

(** Splitting a hypothesis [H : bind m k = Ok b] into [Hx : m = Ok x]
    and [H : k x = Ok b]. *)
Ltac bind_ok H x Hx :=
  match type of H with
  | bind ?m ?k = Ok ?b =>
      let H' := fresh "Hbind" in
      assert (H' : exists a, m = Ok a /\ k a = Ok b)
        by (let a := fresh "a" in
            destruct m as [a | ?];
            [exists a; split; [reflexivity | exact H] | discriminate H]);
      clear H; destruct H' as [x [Hx H]]
  end.

(* ================================================================== *)
(** ** Further vocabulary for the statements *)

Section Construction_vocabulary.

Context {fw : Framework}.

(** The test of line 96: is a front-end asked for? *)
Definition wants_conv (a : Args.t) : bool :=
  (0 <? length (Args.conv_channels a))
  && (length (Args.conv_channels a) =? length (Args.conv_kernel_sizes a))
  && (length (Args.conv_kernel_sizes a) =? length (Args.conv_strides a)).

(** The class lines 126-151 pick for a cell type. *)
Definition cell_class (ty : string)
  : option (nat -> Z -> Z -> bool -> F -> bool -> rnn_cell) :=
  if String.eqb ty "lstm" then Some nn_LSTM
  else if String.eqb ty "gru" then Some nn_GRU
  else if String.eqb ty "rnn" then Some nn_RNN
  else None.

(** The input size lines 119-124 give layer [i_layer]. *)
Definition layer_input_size (first self_num_proj num_units self_num_directions : Z)
  (i_layer : nat) : Z :=
  if i_layer =? 0 then first
  else if (0 <? self_num_proj)%Z then self_num_proj
  else (num_units * self_num_directions)%Z.

End Construction_vocabulary.

Section Forward_vocabulary.

Context {fw : Framework}.

(** The dimension of a padded tensor that counts the examples. *)
Definition batch_dim (batch_first : bool) : nat :=
  if batch_first then 0 else 1.

(** The frame of example [b] at time [k] in a padded tensor. *)
Definition frame (batch_first : bool) (t : Tensor3) (b k : nat) : Vec :=
  if batch_first then nth k (nth b t []) [] else nth b (nth k t []) [].

(** The encoder with its layers above the sub-layer index left out. *)
Definition truncated (self : encoder) : encoder :=
  {| rnn_type := rnn_type self;
     bidirectional := bidirectional self;
     num_directions := num_directions self;
     num_units := num_units self;
     num_proj := num_proj self;
     num_layers := num_layers_sub self;
     num_layers_sub := num_layers_sub self;
     use_cuda := use_cuda self;
     batch_first := batch_first self;
     merge_bidirectional := merge_bidirectional self;
     residual := residual self;
     dense_residual := dense_residual self;
     conv := conv self;
     conv_out_size := conv_out_size self;
     rnns := rnns self;
     projections := projections self |}.

(** The sub-task results in the places of the main results. *)
Definition sub_results (r : forward_result) : forward_result :=
  {| outputs := outputs_sub r; final_state_fw := final_state_fw_sub r;
     outputs_sub := outputs_sub r; final_state_fw_sub := final_state_fw_sub r;
     perm_indices := perm_indices r |}.

End Forward_vocabulary.

(** Arguments for the runs of the further properties. *)
Definition set_rnn_type (ty : string) (a : @Args.t toy) : @Args.t toy :=
  {| Args.input_size := Args.input_size a; Args.rnn_type := ty;
     Args.bidirectional := Args.bidirectional a; Args.num_units := Args.num_units a;
     Args.num_proj := Args.num_proj a; Args.num_layers := Args.num_layers a;
     Args.num_layers_sub := Args.num_layers_sub a; Args.dropout := Args.dropout a;
     Args.parameter_init := Args.parameter_init a; Args.use_cuda := Args.use_cuda a;
     Args.batch_first := Args.batch_first a;
     Args.merge_bidirectional := Args.merge_bidirectional a;
     Args.num_stack := Args.num_stack a; Args.splice := Args.splice a;
     Args.conv_channels := Args.conv_channels a;
     Args.conv_kernel_sizes := Args.conv_kernel_sizes a;
     Args.conv_strides := Args.conv_strides a; Args.poolings := Args.poolings a;
     Args.activation := Args.activation a; Args.batch_norm := Args.batch_norm a;
     Args.residual := Args.residual a; Args.dense_residual := Args.dense_residual a |}.

Definition set_front_end (channels : list Z) (kernel_sizes : list (Z * Z)) (num_stack : Z)
  (a : @Args.t toy) : @Args.t toy :=
  {| Args.input_size := Args.input_size a; Args.rnn_type := Args.rnn_type a;
     Args.bidirectional := Args.bidirectional a; Args.num_units := Args.num_units a;
     Args.num_proj := Args.num_proj a; Args.num_layers := Args.num_layers a;
     Args.num_layers_sub := Args.num_layers_sub a; Args.dropout := Args.dropout a;
     Args.parameter_init := Args.parameter_init a; Args.use_cuda := Args.use_cuda a;
     Args.batch_first := Args.batch_first a;
     Args.merge_bidirectional := Args.merge_bidirectional a;
     Args.num_stack := num_stack; Args.splice := Args.splice a;
     Args.conv_channels := channels;
     Args.conv_kernel_sizes := kernel_sizes;
     Args.conv_strides := map (fun _ => (1%Z, 1%Z)) kernel_sizes; Args.poolings := Args.poolings a;
     Args.activation := Args.activation a; Args.batch_norm := Args.batch_norm a;
     Args.residual := Args.residual a; Args.dense_residual := Args.dense_residual a |}.

(** Unidirectional, three layers, sub-layer index 2, residual
    connections, no projection. *)
Definition residual_args : Args.t :=
  toy_args false 2%Z None 3%Z 2%Z true false [] true false.

(** The exceptions that would betray a variable or an attribute used
    before it was set. *)
Definition unset_use (e : exn) : Prop :=
  e = UnboundLocalError \/ e = AttributeError.

Section Row_vocabulary.

Context {fw : Framework}.

(** A recurrent cell treats the sequences of a packed batch one by
    one, as torch's cells do from a zero initial state: the outputs of
    a sequence are what the cell returns for that sequence alone,
    there is one output sequence per input sequence, and the stacked
    hidden state is not empty. *)
Definition row_wise (rnn : rnn_cell) : Prop :=
  forall (p : Packed) (h h' : Hidden0),
    length (fst (rnn p h)) = length p /\
    snd (rnn p h) <> [] /\
    forall i, i < length p ->
      nth i (fst (rnn p h)) [] = hd [] (fst (rnn [nth i p []] h')).

(** All rows of [t] have [n] items. *)
Definition rectangular (n : nat) (t : Tensor3) : Prop :=
  Forall (fun row => length row = n) t.

End Row_vocabulary.

Section Alone_vocabulary.

Context {fw : Framework}.

(** The loop run on one example follows the loop run on a batch: its
    packed outputs, and its sub outputs once they are assigned, are
    row [i] of the batch's; nothing is retained for a residual
    connection; the hidden states are assigned when the batch's are. *)
Definition follows (i : nat) (st st1 : loop_state) : Prop :=
  i < length (st_outputs st) /\
  st_outputs st1 = [nth i (st_outputs st) []] /\
  st_res_outputs_list st = [] /\ st_res_outputs_list st1 = [] /\
  (st_h_n st <> None -> exists h1, st_h_n st1 = Some h1 /\ h1 <> []) /\
  (st_h_n_sub st <> None -> exists h1, st_h_n_sub st1 = Some h1 /\ h1 <> []) /\
  (forall sub, st_outputs_sub st = Some sub ->
     i < length sub /\ st_outputs_sub st1 = Some [nth i sub []]).

End Alone_vocabulary.

(* ================================================================== *)
(** * Properties *)

(** ** The result monad and the loops *)

Lemma bind_Ok_inv {A B : Type} (m : result A) (k : A -> result B) (b : B) :
  bind m k = Ok b -> exists a, m = Ok a /\ k a = Ok b.
Proof.
  destruct m as [a | e]; simpl; intros H.
  - exists a. split; [reflexivity | exact H].
  - discriminate H.
Qed.

Lemma bind_Raise_inv {A B : Type} (m : result A) (k : A -> result B) (e : exn) :
  bind m k = Raise e -> m = Raise e \/ exists a, m = Ok a /\ k a = Raise e.
Proof.
  destruct m as [a | e']; simpl; intros H.
  - right. exists a. split; [reflexivity | exact H].
  - left. injection H as ->. reflexivity.
Qed.

Lemma assert_Ok_inv (line : nat) (c : bool) (u : unit) :
  assert line c = Ok u -> c = true.
Proof. destruct c; simpl; [reflexivity | discriminate]. Qed.

Lemma for_each_app {S I : Type} (body : S -> I -> result S) (l1 l2 : list I) (s : S) :
  for_each body (l1 ++ l2) s = (s' <- for_each body l1 s ;; for_each body l2 s').
Proof.
  revert s. induction l1 as [| i l1 IH]; intros s; simpl.
  - reflexivity.
  - destruct (body s i) as [s1 | e]; simpl; [apply IH | reflexivity].
Qed.

Lemma list_Z_eqb_eq (l1 l2 : list Z) : list_Z_eqb l1 l2 = true <-> l1 = l2.
Proof.
  revert l2. induction l1 as [| x l1 IH]; intros [| y l2]; simpl; split; intros H;
    try reflexivity; try discriminate.
  - apply andb_true_iff in H. destruct H as [Hx Hl].
    apply Z.eqb_eq in Hx. apply IH in Hl. subst. reflexivity.
  - injection H as -> ->. rewrite Z.eqb_refl. simpl. apply IH. reflexivity.
Qed.

(** ** Slices *)

Lemma firstn_1_skipn {A : Type} (d : A) (l : list A) (k : nat) :
  k < length l -> firstn 1 (skipn k l) = [nth k l d].
Proof.
  revert l. induction k as [| k IH]; intros [| x l] Hk; simpl in *; try lia.
  - reflexivity.
  - apply IH. lia.
Qed.

Lemma slice_second_to_last {A : Type} (d : A) (l : list A) :
  2 <= length l -> slice (-2) (-1) l = [nth (length l - 2) l d].
Proof.
  intros Hlen. unfold slice, slice_index. simpl.
  replace (Z.to_nat (Z.max 0 (Z.of_nat (length l) + -2))) with (length l - 2) by lia.
  replace (Z.to_nat (Z.max 0 (Z.of_nat (length l) + -1))) with (length l - 1) by lia.
  replace (length l - 1 - (length l - 2)) with 1 by lia.
  apply firstn_1_skipn. lia.
Qed.

Lemma last_item_Ok {A : Type} (d : A) (l : list A) (x : A) :
  last_item l = Ok x -> l <> [] /\ x = last l d.
Proof.
  unfold last_item. destruct l as [| y l] using rev_ind; simpl.
  - discriminate.
  - rewrite rev_app_distr. simpl. intros H. injection H as <-.
    split; [destruct l; discriminate | symmetry; apply last_last].
Qed.

(** ** Selecting rows *)

Lemma index_select_in_range {A : Type} (d : A) (l : list A) (idx : list nat) :
  Forall (fun i => i < length l) idx ->
  index_select l idx = Ok (map (fun i => nth i l d) idx).
Proof.
  unfold index_select. induction idx as [| i idx IH]; intros Hall; simpl.
  - reflexivity.
  - apply Forall_cons_iff in Hall. destruct Hall as [Hi Hall].
    unfold item at 1. destruct (nth_error l i) as [x |] eqn:Hx.
    + simpl. rewrite (IH Hall). simpl. f_equal. f_equal.
      symmetry. apply nth_error_nth. exact Hx.
    + apply nth_error_None in Hx. lia.
Qed.

Lemma index_select_length {A : Type} (l sel : list A) (idx : list nat) :
  index_select l idx = Ok sel -> length sel = length idx.
Proof.
  unfold index_select. revert sel. induction idx as [| i idx IH]; intros sel H; simpl in H.
  - injection H as <-. reflexivity.
  - bind_ok H x Hx. bind_ok H ys Hys. injection H as <-. simpl. f_equal. apply IH. exact Hys.
Qed.

Lemma map_nth_seq_id {A : Type} (d : A) (l : list A) :
  map (fun i => nth i l d) (seq 0 (length l)) = l.
Proof.
  apply (nth_ext _ _ d d).
  - rewrite length_map, length_seq. reflexivity.
  - intros k Hk. rewrite length_map, length_seq in Hk.
    rewrite (nth_indep _ d (nth 0 l d)) by (rewrite length_map, length_seq; exact Hk).
    rewrite (map_nth (fun i => nth i l d) (seq 0 (length l)) 0 k).
    rewrite seq_nth by exact Hk. reflexivity.
Qed.

Lemma index_select_all {A : Type} (l : list A) :
  index_select l (seq 0 (length l)) = Ok l.
Proof.
  destruct l as [| d l']; [reflexivity |].
  rewrite (index_select_in_range d).
  - rewrite map_nth_seq_id. reflexivity.
  - apply Forall_forall. intros i Hi. apply in_seq in Hi. lia.
Qed.

Lemma index_of_In (j : nat) (perm : list nat) :
  In j perm -> index_of j perm < length perm /\ nth (index_of j perm) perm 0 = j.
Proof.
  induction perm as [| i perm IH]; simpl; intros Hin; [contradiction |].
  destruct (i =? j) eqn:Hij.
  - apply Nat.eqb_eq in Hij. split; [lia | exact Hij].
  - apply Nat.eqb_neq in Hij. destruct Hin as [Heq | Hin]; [contradiction |].
    destruct (IH Hin) as [Hlt Hnth]. split; [lia | exact Hnth].
Qed.

(** Rows selected by a permutation are put back by its inverse. *)
Lemma inverse_permutation_unsorts {A : Type} (perm : list nat) (xs : list A) :
  Permutation perm (seq 0 (length xs)) ->
  exists sel, index_select xs perm = Ok sel /\
              index_select sel (inverse_permutation perm) = Ok xs.
Proof.
  intros Hperm. destruct xs as [| d xs'] eqn:Hxs.
  - apply Permutation_sym, Permutation_nil in Hperm. subst perm.
    exists []. split; reflexivity.
  - rewrite <- Hxs in *. clear Hxs xs'.
    assert (Hlen : length perm = length xs).
    { rewrite (Permutation_length Hperm), length_seq. reflexivity. }
    assert (Hrange : Forall (fun i => i < length xs) perm).
    { apply Forall_forall. intros i Hi.
      apply (Permutation_in _ Hperm) in Hi. apply in_seq in Hi. lia. }
    exists (map (fun i => nth i xs d) perm).
    split; [apply index_select_in_range; exact Hrange |].
    assert (Hin : forall j, j < length xs -> In j perm).
    { intros j Hj. apply (Permutation_in _ (Permutation_sym Hperm)).
      apply in_seq. lia. }
    rewrite (index_select_in_range d).
    + unfold inverse_permutation. rewrite map_map, Hlen.
      transitivity (Ok (map (fun i => nth i xs d) (seq 0 (length xs))));
        [| rewrite map_nth_seq_id; reflexivity].
      apply f_equal. apply map_ext_in. intros j Hj. apply in_seq in Hj.
      destruct (index_of_In j perm) as [Hlt Hnth]; [apply Hin; lia |].
      rewrite (nth_indep _ d (nth 0 xs d)) by (rewrite length_map; exact Hlt).
      rewrite (map_nth (fun i => nth i xs d) perm 0 (index_of j perm)).
      rewrite Hnth. reflexivity.
    + unfold inverse_permutation. apply Forall_forall. intros k Hk.
      apply in_map_iff in Hk. destruct Hk as (j & <- & Hj). apply in_seq in Hj.
      rewrite length_map. apply index_of_In. apply Hin. lia.
Qed.

(** ** Sorting by length *)

Section Sorting.

Context {fw : Framework}.

Lemma non_increasing_cons (x : Z) (l : list Z) :
  non_increasing (x :: l) = true ->
  non_increasing l = true /\ Forall (fun y => (y <= x)%Z) l.
Proof.
  revert x. induction l as [| y l IH]; intros x H.
  - split; [reflexivity | constructor].
  - cbn [non_increasing] in H. apply andb_true_iff in H. destruct H as [Hyx Hs].
    split; [exact Hs |]. apply Z.leb_le in Hyx.
    destruct (IH y Hs) as [_ Hall].
    constructor; [exact Hyx |].
    eapply Forall_impl; [| exact Hall]. simpl. intros z Hz. lia.
Qed.

(** Two lists that do not increase and hold the same items are equal. *)
Lemma sorted_permutation_unique (l1 l2 : list Z) :
  Permutation l1 l2 -> non_increasing l1 = true -> non_increasing l2 = true -> l1 = l2.
Proof.
  revert l2. induction l1 as [| a l1 IH]; intros l2 HP H1 H2.
  - apply Permutation_nil in HP. symmetry. exact HP.
  - destruct l2 as [| b l2];
      [apply Permutation_sym, Permutation_nil in HP; discriminate |].
    destruct (non_increasing_cons a l1 H1) as [H1' Ha].
    destruct (non_increasing_cons b l2 H2) as [H2' Hb].
    assert (E : a = b).
    { assert (Hin_a : In a (b :: l2))
        by (apply (Permutation_in _ HP); left; reflexivity).
      assert (Hin_b : In b (a :: l1))
        by (apply (Permutation_in _ (Permutation_sym HP)); left; reflexivity).
      rewrite Forall_forall in Ha, Hb.
      destruct Hin_a as [E | Hin_a]; [symmetry; exact E |].
      destruct Hin_b as [E | Hin_b]; [exact E |].
      specialize (Ha _ Hin_b). specialize (Hb _ Hin_a). lia. }
    subst b. f_equal.
    apply IH; [eapply Permutation_cons_inv; exact HP | exact H1' | exact H2'].
Qed.

Lemma map_eq_inj {A B : Type} (f : A -> B) (p q : list A) :
  (forall x y, In x p -> In y q -> f x = f y -> x = y) ->
  map f p = map f q -> p = q.
Proof.
  revert q. induction p as [| x p IH]; intros [| y q] Hinj H; try discriminate.
  - reflexivity.
  - simpl in H. injection H as Hxy Hrest. f_equal.
    + apply Hinj; [left; reflexivity | left; reflexivity | exact Hxy].
    + apply IH; [| exact Hrest].
      intros x' y' Hx' Hy'. apply Hinj; right; assumption.
Qed.

(** The sorted lengths are the lengths of the batch, rearranged. *)
Lemma sort_descending_values_perm (xs : list Z) :
  Permutation (fst (sort_descending xs)) xs.
Proof.
  rewrite sort_descending_values.
  apply perm_trans with (map (fun i => nth i xs 0%Z) (seq 0 (length xs))).
  - apply Permutation_map. apply sort_descending_perm.
  - rewrite map_nth_seq_id. apply Permutation_refl.
Qed.

(** Whatever the order of equal lengths, the sorted values are those
    an insertion sort gives. *)
Lemma sort_descending_values_unique (xs : list Z) :
  fst (sort_descending xs) = fst (stable_sort_descending xs).
Proof.
  apply sorted_permutation_unique.
  - eapply perm_trans; [apply sort_descending_values_perm |].
    apply Permutation_sym. apply stable_sort_descending_values_perm.
  - apply sort_descending_sorted.
  - apply stable_sort_descending_sorted.
Qed.

(** Lengths that are pairwise different leave the sort no choice. *)
Lemma sort_descending_unique (xs : list Z) :
  NoDup xs -> sort_descending xs = stable_sort_descending xs.
Proof.
  intros Hnd.
  pose proof (sort_descending_values_unique xs) as Hv.
  assert (Hp : snd (sort_descending xs) = snd (stable_sort_descending xs)).
  { pose proof Hv as Hm.
    rewrite sort_descending_values, (stable_sort_descending_values xs) in Hm.
    apply map_eq_inj in Hm; [exact Hm |].
    intros i j Hi Hj Hij.
    apply (Permutation_in _ (sort_descending_perm xs)) in Hi.
    apply (Permutation_in _ (stable_sort_descending_perm xs)) in Hj.
    apply in_seq in Hi. apply in_seq in Hj.
    apply (proj1 (NoDup_nth xs 0%Z) Hnd); [lia | lia | exact Hij]. }
  destruct (sort_descending xs) as [v p], (stable_sort_descending xs) as [v' p'].
  simpl in Hv, Hp. subst. reflexivity.
Qed.

(** A batch sorted already, of lengths that are pairwise different, is
    left as it is. *)
Lemma sort_descending_sorted_id (xs : list Z) :
  NoDup xs -> non_increasing xs = true ->
  sort_descending xs = (xs, seq 0 (length xs)).
Proof.
  intros Hnd Hs. rewrite (sort_descending_unique Hnd).
  apply stable_sort_descending_sorted_id. exact Hs.
Qed.

(** A batch sorted already keeps its lengths where they are; only the
    order of equal lengths is open. *)
Lemma sort_descending_sorted_values (xs : list Z) :
  non_increasing xs = true -> fst (sort_descending xs) = xs.
Proof.
  intros Hs. rewrite sort_descending_values_unique.
  rewrite (stable_sort_descending_sorted_id xs Hs). reflexivity.
Qed.

End Sorting.

Section Construction_properties.

Context {fw : Framework}.

(** ** Construction *)

Lemma init_layers_Ok (a : Args.t) (p d isz : Z) (n : nat) :
  (String.eqb (Args.rnn_type a) "lstm" || String.eqb (Args.rnn_type a) "gru"
   || String.eqb (Args.rnn_type a) "rnn") = true ->
  forall (start : nat) (acc : list rnn_cell * list linear),
  exists acc', for_each (init_layer a p d isz) (seq start n) acc = Ok acc'.
Proof.
  intros Hty. induction n as [| n IH]; intros start acc; simpl.
  - exists acc. reflexivity.
  - destruct acc as [rs ps]. unfold init_layer at 1.
    destruct (String.eqb (Args.rnn_type a) "lstm"); simpl.
    + destruct (0 <? p)%Z; simpl; apply IH.
    + destruct (String.eqb (Args.rnn_type a) "gru"); simpl.
      * destruct (0 <? p)%Z; simpl; apply IH.
      * destruct (String.eqb (Args.rnn_type a) "rnn"); simpl.
        -- destruct (0 <? p)%Z; simpl; apply IH.
        -- discriminate Hty.
Qed.

Lemma init_layers_length (a : Args.t) (p d isz : Z) (n : nat) :
  forall (start : nat) (rs rs' : list rnn_cell) (ps ps' : list linear),
  for_each (init_layer a p d isz) (seq start n) (rs, ps) = Ok (rs', ps') ->
  length rs' = length rs + n /\
  ((0 < p)%Z -> length ps' = length ps + n).
Proof.
  induction n as [| n IH]; intros start rs rs' ps ps' H; simpl in H.
  - injection H as <- <-. split; intros; lia.
  - bind_ok H acc Hacc. destruct acc as [rs1 ps1].
    apply IH in H. destruct H as [Hr Hp].
    unfold init_layer in Hacc. bind_ok Hacc rnn_i Hrnn.
    destruct (0 <? p)%Z eqn:Hpos; injection Hacc as <- <-.
    + rewrite length_app in Hr. simpl in Hr. split; [lia |].
      intros Hp'. specialize (Hp Hp'). rewrite length_app in Hp. simpl in Hp. lia.
    + rewrite length_app in Hr. simpl in Hr. split; [lia |].
      intros Hp'. apply Z.ltb_ge in Hpos. lia.
Qed.

(** What the constructor guarantees of the encoder it returns. *)
Lemma init_Ok_inv (a : Args.t) (self : encoder) :
  __init__ a = Ok self ->
  (1 <= num_layers_sub self <= num_layers self)%Z /\
  residual self && dense_residual self = false /\
  bidirectional self = Args.bidirectional a /\
  num_directions self = (if bidirectional self then 2 else 1)%Z /\
  num_units self = Args.num_units a /\
  num_layers self = Args.num_layers a /\
  num_layers_sub self = Args.num_layers_sub a /\
  length (rnns self) = Z.to_nat (num_layers self) /\
  ((0 < num_proj self)%Z -> length (projections self) = Z.to_nat (num_layers self)).
Proof.
  unfold __init__, check_num_layers_sub, check_residual_modes. intros H.
  destruct ((Args.num_layers_sub a <? 1)%Z || (Args.num_layers a <? Args.num_layers_sub a)%Z)
    eqn:Hsub; simpl in H; [discriminate |].
  apply orb_false_iff in Hsub. destruct Hsub as [H1 H2].
  apply Z.ltb_ge in H1. apply Z.ltb_ge in H2.
  bind_ok H u Hres. apply assert_Ok_inv in Hres. apply negb_true_iff in Hres.
  bind_ok H cv Hcv. destruct cv as [[isz cm] cos].
  bind_ok H layers Hlayers. destruct layers as [rs ps].
  injection H as <-. simpl.
  apply init_layers_length in Hlayers. destruct Hlayers as [Hr Hp]. simpl in Hr, Hp.
  repeat split; try assumption; try reflexivity; lia.
Qed.

(** With a valid sub-layer index, one residual mode at most, a known
    cell type and no front-end, the constructor returns an encoder. *)
Lemma init_returns (a : Args.t) :
  (1 <= Args.num_layers_sub a <= Args.num_layers a)%Z ->
  Args.residual a && Args.dense_residual a = false ->
  (String.eqb (Args.rnn_type a) "lstm" || String.eqb (Args.rnn_type a) "gru"
   || String.eqb (Args.rnn_type a) "rnn") = true ->
  Args.conv_channels a = [] ->
  exists self, __init__ a = Ok self.
Proof.
  intros Hsub Hres Hty Hconv. unfold __init__, check_num_layers_sub, check_residual_modes.
  replace (Args.num_layers_sub a <? 1)%Z with false by (symmetry; apply Z.ltb_ge; lia).
  replace (Args.num_layers a <? Args.num_layers_sub a)%Z with false
    by (symmetry; apply Z.ltb_ge; lia).
  rewrite Hres. simpl. unfold init_conv. rewrite Hconv. simpl.
  destruct (init_layers_Ok a
              (match Args.num_proj a with Some p => p | None => 0%Z end)
              (if Args.bidirectional a then 2%Z else 1%Z)
              (Args.input_size a * Args.splice a * Args.num_stack a)%Z
              (Z.to_nat (Args.num_layers a)) Hty 0 ([], [])) as [[rs ps] Hloop].
  rewrite Hloop. simpl. eexists. reflexivity.
Qed.

(** C5: a sub-layer index below 1 or above the number of layers makes
    the constructor raise the ValueError of line 78, whatever the other
    arguments are, before anything else is looked at; an index within
    [1, num_layers] passes that check, and construction then returns an
    encoder when the other arguments are in order (one residual mode at
    most, a known cell type, no front-end to build). *)
Theorem init_checks_sub_layer_index (a : Args.t) :
  ((Args.num_layers_sub a < 1 \/ Args.num_layers a < Args.num_layers_sub a)%Z ->
   __init__ a = Raise (ValueError sub_layer_message)) /\
  ((1 <= Args.num_layers_sub a <= Args.num_layers a)%Z ->
   check_num_layers_sub a = Ok tt /\
   (Args.residual a && Args.dense_residual a = false ->
    (String.eqb (Args.rnn_type a) "lstm" || String.eqb (Args.rnn_type a) "gru"
     || String.eqb (Args.rnn_type a) "rnn") = true ->
    Args.conv_channels a = [] ->
    exists self, __init__ a = Ok self)).
Proof.
  split.
  - intros Hout. unfold __init__, check_num_layers_sub.
    replace ((Args.num_layers_sub a <? 1)%Z || (Args.num_layers a <? Args.num_layers_sub a)%Z)
      with true; [reflexivity |].
    symmetry. apply orb_true_iff.
    destruct Hout as [H | H]; [left | right]; apply Z.ltb_lt; exact H.
  - intros Hin. split.
    + unfold check_num_layers_sub.
      replace (Args.num_layers_sub a <? 1)%Z with false by (symmetry; apply Z.ltb_ge; lia).
      replace (Args.num_layers a <? Args.num_layers_sub a)%Z with false
        by (symmetry; apply Z.ltb_ge; lia).
      reflexivity.
    + intros Hres Hty Hconv. apply init_returns; assumption.
Qed.

(** C4: with both residual and dense_residual enabled the constructor
    raises, whatever the other arguments are, and it does so in its
    first two checks (the ValueError of the sub-layer index if that is
    out of range, the assertion of line 91 otherwise), before any layer
    is built; with one of the two at most, the assertion of line 91
    passes, and construction returns an encoder when the other
    arguments are in order. *)
Theorem init_residual_modes_exclusive (a : Args.t) :
  (Args.residual a = true -> Args.dense_residual a = true ->
   __init__ a = Raise (ValueError sub_layer_message) \/
   ((1 <= Args.num_layers_sub a <= Args.num_layers a)%Z /\
    __init__ a = Raise (AssertionError 91))) /\
  (Args.residual a && Args.dense_residual a = false ->
   check_residual_modes a = Ok tt /\
   ((1 <= Args.num_layers_sub a <= Args.num_layers a)%Z ->
    (String.eqb (Args.rnn_type a) "lstm" || String.eqb (Args.rnn_type a) "gru"
     || String.eqb (Args.rnn_type a) "rnn") = true ->
    Args.conv_channels a = [] ->
    exists self, __init__ a = Ok self)).
Proof.
  split.
  - intros Hres Hdense. unfold __init__, check_num_layers_sub, check_residual_modes.
    destruct (Args.num_layers_sub a <? 1)%Z eqn:H1; simpl.
    + left. reflexivity.
    + destruct (Args.num_layers a <? Args.num_layers_sub a)%Z eqn:H2; simpl.
      * left. reflexivity.
      * right. rewrite Hres, Hdense. simpl. split; [| reflexivity].
        apply Z.ltb_ge in H1. apply Z.ltb_ge in H2. lia.
  - intros Hone. split.
    + unfold check_residual_modes. rewrite Hone. reflexivity.
    + intros Hsub Hty Hconv. apply init_returns; assumption.
Qed.

End Construction_properties.

Section Layer_properties.

Context {fw : Framework}.

(** ** One layer *)

Lemma pad_packed_sequence_lengths (p : Packed) (bf : bool) (t : Tensor3) (lens : list Z) :
  pad_packed_sequence p bf = Ok (t, lens) -> lens = packed_lengths p.
Proof.
  unfold pad_packed_sequence. destruct p as [| first rest]; [discriminate |].
  intros H. injection H as _ Hl. symmetry. exact Hl.
Qed.

Lemma unpack_outputs_Ok (self : encoder) (lens : list Z) (p : Packed)
  (t : Tensor3) (unpacked : list Z) :
  unpack_outputs self lens p = Ok (t, unpacked) ->
  pad_packed_sequence p (batch_first self) = Ok (t, unpacked) /\
  unpacked = lens /\ packed_lengths p = lens.
Proof.
  unfold unpack_outputs. intros H.
  destruct (pad_packed_sequence p (batch_first self)) as [[t' l'] | e] eqn:Hpad;
    simpl in H; [| discriminate].
  destruct (list_Z_eqb lens l') eqn:Heq; simpl in H; [| discriminate].
  injection H as -> ->. apply list_Z_eqb_eq in Heq.
  apply pad_packed_sequence_lengths in Hpad as Hl.
  split; [reflexivity |]. split; congruence.
Qed.

Lemma unpack_outputs_mismatch (self : encoder) (lens : list Z) (p : Packed)
  (t : Tensor3) (unpacked : list Z) :
  pad_packed_sequence p (batch_first self) = Ok (t, unpacked) ->
  unpacked <> lens ->
  unpack_outputs self lens p = Raise (AssertionError 234).
Proof.
  intros Hpad Hne. unfold unpack_outputs. rewrite Hpad. simpl.
  destruct (list_Z_eqb lens unpacked) eqn:Heq; [| reflexivity].
  apply list_Z_eqb_eq in Heq. congruence.
Qed.

(** The branch of lines 229-253, when it is taken. *)
Lemma unpadded_branch_taken (self : encoder) (lens : list Z) (i_layer : nat)
  (p : Packed) (res : list Tensor3) :
  residual self || dense_residual self || (0 <? num_proj self)%Z = true ->
  unpadded_branch self lens i_layer p res =
  (' (unpadded, unpacked_seq_len) <- unpack_outputs self lens p ;;
   projected <- projection_layer self i_layer unpadded ;;
   ' (summed, retained) <- residual_connection self projected res ;;
   repacked <- pack_padded_sequence summed unpacked_seq_len (batch_first self) ;;
   Ok (repacked, retained)).
Proof. intros H. unfold unpadded_branch. rewrite H. reflexivity. Qed.

Lemma unpadded_branch_skipped (self : encoder) (lens : list Z) (i_layer : nat)
  (p : Packed) (res : list Tensor3) :
  residual self || dense_residual self || (0 <? num_proj self)%Z = false ->
  unpadded_branch self lens i_layer p res = Ok (p, res).
Proof. intros H. unfold unpadded_branch. rewrite H. reflexivity. Qed.


(** ** The loop over the layers *)

Lemma run_layers_S (self : encoder) (lens : list Z) (h_0 : Hidden0) (n : nat) (p : Packed) :
  run_layers self lens h_0 (S n) p =
  (st <- run_layers self lens h_0 n p ;; layer self lens h_0 st n).
Proof.
  unfold run_layers. rewrite seq_S. simpl. rewrite for_each_app.
  destruct (for_each (layer self lens h_0) (seq 0 n) (initial_state p)) as [st | e];
    simpl; [| reflexivity].
  destruct (layer self lens h_0 st n); reflexivity.
Qed.

Lemma run_layers_prefix (self : encoder) (lens : list Z) (h_0 : Hidden0) (p : Packed)
  (n : nat) (st : loop_state) :
  run_layers self lens h_0 n p = Ok st ->
  forall i, i <= n -> exists st_i, run_layers self lens h_0 i p = Ok st_i.
Proof.
  revert st. induction n as [| n IH]; intros st Hrun i Hi.
  - assert (i = 0) by lia. subst i. exists st. exact Hrun.
  - destruct (Nat.eq_dec i (S n)) as [-> | Hne].
    + exists st. exact Hrun.
    + rewrite run_layers_S in Hrun. bind_ok Hrun st_n Hn.
      apply (IH st_n Hn). lia.
Qed.

Lemma run_layers_raise (self : encoder) (lens : list Z) (h_0 : Hidden0) (p : Packed)
  (i : nat) (st_i : loop_state) (e : exn) :
  run_layers self lens h_0 i p = Ok st_i ->
  layer self lens h_0 st_i i = Raise e ->
  forall n, i < n -> run_layers self lens h_0 n p = Raise e.
Proof.
  intros Hrun Hlayer n Hn. induction n as [| n IH]; [lia |].
  rewrite run_layers_S. destruct (Nat.eq_dec i n) as [<- | Hne].
  - rewrite Hrun. simpl. exact Hlayer.
  - rewrite IH by lia. reflexivity.
Qed.

Lemma layer_Ok_inv (self : encoder) (lens : list Z) (h_0 : Hidden0)
  (st st' : loop_state) (i : nat) :
  layer self lens h_0 st i = Ok st' ->
  exists rnn,
    item (rnns self) i = Ok rnn /\
    unpadded_branch self lens i (fst (rnn (st_outputs st) h_0)) (st_res_outputs_list st)
    = Ok (st_outputs st', st_res_outputs_list st') /\
    st_h_n st' = Some (snd (rnn (st_outputs st) h_0)) /\
    (Z.of_nat i = (num_layers_sub self - 1)%Z ->
     st_outputs_sub st' = Some (st_outputs st') /\ st_h_n_sub st' = st_h_n st') /\
    (Z.of_nat i <> (num_layers_sub self - 1)%Z ->
     st_outputs_sub st' = st_outputs_sub st /\ st_h_n_sub st' = st_h_n_sub st).
Proof.
  unfold layer. intros H. bind_ok H rnn Hrnn. exists rnn. split; [exact Hrnn |].
  destruct (rnn (st_outputs st) h_0) as [o h] eqn:Hcell. simpl.
  bind_ok H br Hbr. destruct br as [o' res'].
  destruct (Z.of_nat i =? num_layers_sub self - 1)%Z eqn:Hsub;
    injection H as <-; simpl; (split; [exact Hbr |]); (split; [reflexivity |]).
  - split; [intros _; split; reflexivity |].
    intros Hne. apply Z.eqb_eq in Hsub. contradiction.
  - split; [| intros _; split; reflexivity].
    intros Heq. apply Z.eqb_neq in Hsub. contradiction.
Qed.

Lemma pack_inputs_Ok_inv (self : encoder) (inputs : Tensor3) (lens : list Z)
  (packed : Packed) (tracked : list Z) (perm : list nat) :
  pack_inputs self inputs lens = Ok (packed, tracked, perm) ->
  perm = snd (sort_descending lens) /\
  tracked_seq_len self (fst (sort_descending lens)) = Ok tracked /\
  exists sorted_inputs,
    index_select inputs perm = Ok sorted_inputs /\
    pack_padded_sequence
      (let fed := match conv self with
                  | Some c => conv_call c sorted_inputs
                  | None => sorted_inputs
                  end in
       if batch_first self then fed else transpose01 fed)
      tracked (batch_first self) = Ok packed.
Proof.
  unfold pack_inputs. destruct (sort_descending lens) as [sorted perm'] eqn:Hsort.
  simpl. intros H. bind_ok H sorted_inputs Hsel. bind_ok H tracked' Htr.
  bind_ok H packed' Hpack. injection H as <- <- <-.
  split; [reflexivity |]. split; [exact Htr |].
  exists sorted_inputs. split; [exact Hsel | exact Hpack].
Qed.

Lemma unpack_final_Ok_inv (self : encoder) (lens : list Z) (st : loop_state)
  (perm : list nat) (r : forward_result) :
  unpack_final self lens st perm = Ok r ->
  exists t sub t_sub h_n h_n_sub,
    pad_packed_sequence (st_outputs st) (batch_first self) = Ok (t, lens) /\
    st_outputs_sub st = Some sub /\
    pad_packed_sequence sub (batch_first self) = Ok (t_sub, lens) /\
    sum_bidirectional self t t_sub = Ok (outputs r, outputs_sub r) /\
    st_h_n st = Some h_n /\ st_h_n_sub st = Some h_n_sub /\
    pick_final_state self h_n = Ok (final_state_fw r) /\
    pick_final_state self h_n_sub = Ok (final_state_fw_sub r) /\
    perm_indices r = perm.
Proof.
  unfold unpack_final. intros H.
  bind_ok H padded Hpad. destruct padded as [t unpacked].
  bind_ok H sub Hsub. destruct (st_outputs_sub st) as [sub' |] eqn:Hs; [| discriminate].
  injection Hsub as ->.
  bind_ok H padded_sub Hpad_sub. destruct padded_sub as [t_sub unpacked_sub].
  bind_ok H u1 Ha1. apply assert_Ok_inv, list_Z_eqb_eq in Ha1. subst unpacked.
  bind_ok H u2 Ha2. apply assert_Ok_inv, list_Z_eqb_eq in Ha2. subst unpacked_sub.
  bind_ok H merged Hmerge. destruct merged as [o o_sub].
  bind_ok H h_n Hh. destruct (st_h_n st) as [h_n' |] eqn:Hhn; [| discriminate].
  injection Hh as ->.
  bind_ok H h_n_sub Hhs. destruct (st_h_n_sub st) as [h_n_sub' |] eqn:Hhns; [| discriminate].
  injection Hhs as ->.
  bind_ok H fs Hfs. bind_ok H fs_sub Hfs_sub. injection H as <-. simpl.
  exists t, sub, t_sub, h_n, h_n_sub. repeat split; assumption || reflexivity.
Qed.

Lemma forward_Ok_inv (self : encoder) (inputs : Tensor3) (lens : list Z) (volatile : bool)
  (r : forward_result) :
  forward self inputs lens volatile = Ok r ->
  exists packed tracked st,
    pack_inputs self inputs lens = Ok (packed, tracked, perm_indices r) /\
    run_layers self tracked (initial_hidden self inputs volatile)
      (Z.to_nat (num_layers self)) packed = Ok st /\
    unpack_final self tracked st (perm_indices r) = Ok r.
Proof.
  unfold forward. intros H. bind_ok H packed Hpack.
  destruct packed as [[packed tracked] perm].
  bind_ok H st Hrun. exists packed, tracked, st.
  apply unpack_final_Ok_inv in H as Hinv.
  destruct Hinv as (_ & _ & _ & _ & _ & _ & _ & _ & _ & _ & _ & _ & _ & Hperm).
  rewrite Hperm. repeat split; assumption.
Qed.

(** C2: in every forward pass that returns, the lengths obtained from
    unpadding equal the tracked lengths (the sorted input lengths, or
    their images under the front-end's rule when a front-end is
    configured) at every layer that unpads (every layer, when a
    projection, residual or dense_residual is configured) and for the
    final and the sub outputs after the last layer.  Where unpadding
    gives other lengths, forward raises the AssertionError of line 234
    (in a layer), 264 (final outputs) or 265 (sub outputs) and returns
    nothing. *)
Theorem unpadded_lengths_match_tracked (self : encoder) (inputs : Tensor3)
  (lens : list Z) (volatile : bool) :
  (forall r : forward_result,
     forward self inputs lens volatile = Ok r ->
     exists packed tracked st,
       pack_inputs self inputs lens = Ok (packed, tracked, perm_indices r) /\
       tracked_seq_len self (fst (sort_descending lens)) = Ok tracked /\
       run_layers self tracked (initial_hidden self inputs volatile)
         (Z.to_nat (num_layers self)) packed = Ok st /\
       (residual self || dense_residual self || (0 <? num_proj self)%Z = true ->
        forall i, i < Z.to_nat (num_layers self) ->
        exists st_i rnn,
          run_layers self tracked (initial_hidden self inputs volatile) i packed = Ok st_i /\
          item (rnns self) i = Ok rnn /\
          packed_lengths (fst (rnn (st_outputs st_i) (initial_hidden self inputs volatile)))
          = tracked) /\
       packed_lengths (st_outputs st) = tracked /\
       exists sub, st_outputs_sub st = Some sub /\ packed_lengths sub = tracked) /\
  (forall packed tracked perm i st_i rnn t unpacked,
     pack_inputs self inputs lens = Ok (packed, tracked, perm) ->
     i < Z.to_nat (num_layers self) ->
     run_layers self tracked (initial_hidden self inputs volatile) i packed = Ok st_i ->
     item (rnns self) i = Ok rnn ->
     residual self || dense_residual self || (0 <? num_proj self)%Z = true ->
     pad_packed_sequence (fst (rnn (st_outputs st_i) (initial_hidden self inputs volatile)))
       (batch_first self) = Ok (t, unpacked) ->
     unpacked <> tracked ->
     forward self inputs lens volatile = Raise (AssertionError 234)) /\
  (forall packed tracked perm st t unpacked sub t_sub unpacked_sub,
     pack_inputs self inputs lens = Ok (packed, tracked, perm) ->
     run_layers self tracked (initial_hidden self inputs volatile)
       (Z.to_nat (num_layers self)) packed = Ok st ->
     pad_packed_sequence (st_outputs st) (batch_first self) = Ok (t, unpacked) ->
     st_outputs_sub st = Some sub ->
     pad_packed_sequence sub (batch_first self) = Ok (t_sub, unpacked_sub) ->
     (unpacked <> tracked ->
      forward self inputs lens volatile = Raise (AssertionError 264)) /\
     (unpacked = tracked -> unpacked_sub <> tracked ->
      forward self inputs lens volatile = Raise (AssertionError 265))).
Proof.
  split; [| split].
  - intros r Hfw. apply forward_Ok_inv in Hfw.
    destruct Hfw as (packed & tracked & st & Hpack & Hrun & Hfin).
    exists packed, tracked, st. split; [exact Hpack |].
    apply pack_inputs_Ok_inv in Hpack as Hinv. destruct Hinv as (_ & Htr & _).
    split; [exact Htr |]. split; [exact Hrun |].
    apply unpack_final_Ok_inv in Hfin.
    destruct Hfin as (t & sub & t_sub & h_n & h_n_sub & Hpad & Hsub & Hpad_sub & _).
    split; [| split].
    + intros Hbranch i Hi.
      destruct (run_layers_prefix _ _ _ _ Hrun (i := S i)) as [st_next Hnext]; [lia |].
      rewrite run_layers_S in Hnext. bind_ok Hnext st_i Hst_i.
      apply layer_Ok_inv in Hnext. destruct Hnext as (rnn & Hrnn & Hbr & _).
      exists st_i, rnn. split; [exact Hst_i |]. split; [exact Hrnn |].
      rewrite unpadded_branch_taken in Hbr by exact Hbranch.
      bind_ok Hbr unp Hunp. destruct unp as [u ulen].
      apply unpack_outputs_Ok in Hunp. destruct Hunp as (_ & _ & Hlen). exact Hlen.
    + apply pad_packed_sequence_lengths in Hpad. symmetry. exact Hpad.
    + exists sub. split; [exact Hsub |].
      apply pad_packed_sequence_lengths in Hpad_sub. symmetry. exact Hpad_sub.
  - intros packed tracked perm i st_i rnn t unpacked Hpack Hi Hrun Hrnn Hbranch Hpad Hne.
    unfold forward. rewrite Hpack. simpl.
    rewrite (run_layers_raise (e := AssertionError 234) _ _ _ _ Hrun); [reflexivity | | exact Hi].
    unfold layer. rewrite Hrnn. simpl.
    destruct (rnn (st_outputs st_i) (initial_hidden self inputs volatile)) as [o h] eqn:Hcell.
    simpl in Hpad. rewrite unpadded_branch_taken by exact Hbranch.
    rewrite (unpack_outputs_mismatch _ _ Hpad Hne). reflexivity.
  - intros packed tracked perm st t unpacked sub t_sub unpacked_sub
      Hpack Hrun Hpad Hsub Hpad_sub.
    split.
    + intros Hne. unfold forward. rewrite Hpack. simpl. rewrite Hrun. simpl.
      unfold unpack_final. rewrite Hpad. simpl. rewrite Hsub. simpl.
      rewrite Hpad_sub. simpl.
      destruct (list_Z_eqb tracked unpacked) eqn:Heq; [| reflexivity].
      apply list_Z_eqb_eq in Heq. congruence.
    + intros -> Hne. unfold forward. rewrite Hpack. simpl. rewrite Hrun. simpl.
      unfold unpack_final. rewrite Hpad. simpl. rewrite Hsub. simpl.
      rewrite Hpad_sub. simpl.
      replace (list_Z_eqb tracked tracked) with true
        by (symmetry; apply list_Z_eqb_eq; reflexivity).
      simpl. destruct (list_Z_eqb tracked unpacked_sub) eqn:Heq; [| reflexivity].
      apply list_Z_eqb_eq in Heq. congruence.
Qed.

Lemma unpadded_branch_Ok_inv (self : encoder) (lens : list Z) (i_layer : nat)
  (p o : Packed) (res res' : list Tensor3) :
  unpadded_branch self lens i_layer p res = Ok (o, res') ->
  (residual self || dense_residual self || (0 <? num_proj self)%Z = false /\
   o = p /\ res' = res) \/
  (residual self || dense_residual self || (0 <? num_proj self)%Z = true /\
   exists unpadded projected summed,
     unpack_outputs self lens p = Ok (unpadded, lens) /\
     projection_layer self i_layer unpadded = Ok projected /\
     residual_connection self projected res = Ok (summed, res') /\
     pack_padded_sequence summed lens (batch_first self) = Ok o).
Proof.
  intros H.
  destruct (residual self || dense_residual self || (0 <? num_proj self)%Z) eqn:Hc.
  - right. split; [reflexivity |].
    rewrite unpadded_branch_taken in H by exact Hc.
    bind_ok H unp Hunp. destruct unp as [unpadded ulen].
    apply unpack_outputs_Ok in Hunp as Hl. destruct Hl as (_ & -> & _).
    bind_ok H projected Hproj. bind_ok H rc Hrc. destruct rc as [summed retained].
    bind_ok H repacked Hpack. injection H as <- <-.
    exists unpadded, projected, summed. repeat split; assumption.
  - left. split; [reflexivity |].
    rewrite unpadded_branch_skipped in H by exact Hc.
    injection H as <- <-. split; reflexivity.
Qed.

Lemma residual_connection_Ok_inv (self : encoder) (t t' : Tensor3)
  (res res' : list Tensor3) :
  residual_connection self t res = Ok (t', res') ->
  (residual self = true -> res' = [t']) /\
  (residual self = false -> dense_residual self = true -> res' = res ++ [t']) /\
  (residual self || dense_residual self = false -> t' = t /\ res' = res) /\
  (residual self || dense_residual self = true -> for_each tensor_add res t = Ok t').
Proof.
  unfold residual_connection. intros H.
  destruct (residual self) eqn:Hr; simpl in H |- *.
  - bind_ok H summed Hsum. injection H as <- <-.
    repeat split; try discriminate; auto.
  - destruct (dense_residual self) eqn:Hd; simpl in H |- *.
    + bind_ok H summed Hsum. injection H as <- <-.
      repeat split; try discriminate; auto.
    + injection H as <- <-. repeat split; try discriminate; auto.
Qed.



(** C10: with the sub-layer index equal to the number of layers, the
    sub outputs and the sub final state that forward returns are its
    main outputs and its main final state, for every batch: the last
    layer is the one whose packed outputs (after projection and
    residual accumulation) and hidden state are kept for the sub task. *)
Theorem sub_results_coincide_at_last_layer (self : encoder) (inputs : Tensor3)
  (lens : list Z) (volatile : bool) (r : forward_result) :
  num_layers_sub self = num_layers self ->
  forward self inputs lens volatile = Ok r ->
  outputs_sub r = outputs r /\ final_state_fw_sub r = final_state_fw r.
Proof.
  intros Hsame Hfw. apply forward_Ok_inv in Hfw.
  destruct Hfw as (packed & tracked & st & _ & Hrun & Hfin).
  apply unpack_final_Ok_inv in Hfin.
  destruct Hfin as (t & sub & t_sub & h_n & h_n_sub & Hpad & Hsub & Hpad_sub & Hmerge
                    & Hh & Hhs & Hfs & Hfs_sub & _).
  assert (Hlast : st_outputs_sub st = Some (st_outputs st) /\ st_h_n_sub st = st_h_n st).
  { destruct (Z.to_nat (num_layers self)) as [| m] eqn:Hn.
    - injection Hrun as <-. simpl in Hsub. discriminate.
    - rewrite run_layers_S in Hrun. bind_ok Hrun st_m Hm.
      apply layer_Ok_inv in Hrun. destruct Hrun as (rnn & _ & _ & _ & Hat & _).
      apply Hat. rewrite Hsame. lia. }
  destruct Hlast as [Hs Hhn]. rewrite Hs in Hsub. injection Hsub as <-.
  rewrite Hpad in Hpad_sub. injection Hpad_sub as <-.
  rewrite Hhn, Hh in Hhs. injection Hhs as <-.
  split.
  - unfold sum_bidirectional in Hmerge.
    destruct (bidirectional self && merge_bidirectional self).
    + destruct (sum_directions self t) as [m |]; simpl in Hmerge; [| discriminate].
      injection Hmerge as <- <-. reflexivity.
    + injection Hmerge as <- <-. reflexivity.
  - rewrite Hfs in Hfs_sub. injection Hfs_sub as <-. reflexivity.
Qed.

(** ** The final states *)

Lemma sub_state_origin (self : encoder) (lens : list Z) (h_0 : Hidden0) (p : Packed)
  (n : nat) (st : loop_state) (h : Tensor3) :
  run_layers self lens h_0 n p = Ok st ->
  st_h_n_sub st = Some h ->
  exists i st_i rnn,
    i < n /\ Z.of_nat i = (num_layers_sub self - 1)%Z /\
    run_layers self lens h_0 i p = Ok st_i /\
    item (rnns self) i = Ok rnn /\
    h = snd (rnn (st_outputs st_i) h_0).
Proof.
  revert st. induction n as [| n IH]; intros st Hrun Hsub.
  - injection Hrun as <-. discriminate Hsub.
  - rewrite run_layers_S in Hrun. bind_ok Hrun st_n Hn.
    apply layer_Ok_inv in Hrun. destruct Hrun as (rnn & Hrnn & _ & Hh & Hat & Hnot).
    destruct (Z.eq_dec (Z.of_nat n) (num_layers_sub self - 1)) as [Heq | Hne].
    + destruct (Hat Heq) as [_ Hs]. rewrite Hs, Hh in Hsub. injection Hsub as <-.
      exists n, st_n, rnn. repeat split; try assumption. lia.
    + destruct (Hnot Hne) as [_ Hs]. rewrite Hs in Hsub.
      destruct (IH st_n Hn Hsub) as (i & st_i & rnn' & Hi & Hidx & Hrun_i & Hrnn' & Hh').
      exists i, st_i, rnn'. repeat split; try assumption. lia.
Qed.

Lemma has_size_forward_slice (B U : nat) (h : Tensor3) (n : nat) :
  1 <= n -> has_size n B U h -> has_size 1 B U [nth 0 h []].
Proof.
  intros Hn [Hlen Hall]. destruct h as [| x h]; simpl in Hlen; [lia |].
  simpl. split; [reflexivity |]. constructor; [| constructor].
  inversion Hall; assumption.
Qed.

Lemma pick_final_state_forward (self : encoder) (B U : nat) (h : Tensor3) :
  num_directions self = (if bidirectional self then 2 else 1)%Z ->
  has_size (if bidirectional self then 2 else 1) B U h ->
  pick_final_state self h = Ok [nth 0 h []].
Proof.
  intros Hdir [Hlen _]. unfold pick_final_state. rewrite Hdir.
  destruct (bidirectional self); simpl.
  - destruct h as [| x [| y [| z h]]]; simpl in Hlen; try lia. reflexivity.
  - destruct h as [| x [| y h]]; simpl in Hlen; try lia. reflexivity.
Qed.

(** C8: for an encoder built by the constructor, the two final states
    that forward returns are cut out of the stacked hidden states that
    the cells of layer num_layers - 1 and of layer num_layers_sub - 1
    returned: when the encoder is bidirectional, the second-to-last
    slice [h[-2:-1]] (one slice, kept as a leading dimension); otherwise
    the last slice [h[-1]] with a leading dimension of one put in front.
    For stacked states of size [num_directions, B, num_units] this is in
    both cases the slice of the forward direction, of size
    [1, B, num_units]. *)
Theorem final_state_extraction (a : Args.t) (self : encoder) (inputs : Tensor3)
  (lens : list Z) (volatile : bool) (r : forward_result) :
  __init__ a = Ok self ->
  forward self inputs lens volatile = Ok r ->
  exists packed tracked h_n h_n_sub,
    pack_inputs self inputs lens = Ok (packed, tracked, perm_indices r) /\
    (exists st_top rnn,
       run_layers self tracked (initial_hidden self inputs volatile)
         (Z.to_nat (num_layers self) - 1) packed = Ok st_top /\
       item (rnns self) (Z.to_nat (num_layers self) - 1) = Ok rnn /\
       h_n = snd (rnn (st_outputs st_top) (initial_hidden self inputs volatile))) /\
    (exists st_tap rnn,
       run_layers self tracked (initial_hidden self inputs volatile)
         (Z.to_nat (num_layers_sub self) - 1) packed = Ok st_tap /\
       item (rnns self) (Z.to_nat (num_layers_sub self) - 1) = Ok rnn /\
       h_n_sub = snd (rnn (st_outputs st_tap) (initial_hidden self inputs volatile))) /\
    (bidirectional self = true ->
     final_state_fw r = slice (-2) (-1) h_n /\
     final_state_fw_sub r = slice (-2) (-1) h_n_sub) /\
    (bidirectional self = false ->
     h_n <> [] /\ h_n_sub <> [] /\
     final_state_fw r = [last h_n []] /\
     final_state_fw_sub r = [last h_n_sub []]) /\
    (forall B : nat,
       has_size (if bidirectional self then 2 else 1) B (Z.to_nat (num_units self)) h_n ->
       final_state_fw r = [nth 0 h_n []] /\
       has_size 1 B (Z.to_nat (num_units self)) (final_state_fw r)) /\
    (forall B : nat,
       has_size (if bidirectional self then 2 else 1) B (Z.to_nat (num_units self)) h_n_sub ->
       final_state_fw_sub r = [nth 0 h_n_sub []] /\
       has_size 1 B (Z.to_nat (num_units self)) (final_state_fw_sub r)).
Proof.
  intros Hinit Hfw. apply init_Ok_inv in Hinit.
  destruct Hinit as (Hrange & _ & _ & Hdir & _).
  apply forward_Ok_inv in Hfw. destruct Hfw as (packed & tracked & st & Hpack & Hrun & Hfin).
  apply unpack_final_Ok_inv in Hfin.
  destruct Hfin as (t & sub & t_sub & h_n & h_n_sub & _ & _ & _ & _
                    & Hh & Hhs & Hfs & Hfs_sub & _).
  exists packed, tracked, h_n, h_n_sub. split; [exact Hpack |].
  split; [| split; [| split; [| split; [| split]]]].
  - destruct (Z.to_nat (num_layers self)) as [| m] eqn:Hn; [lia |].
    rewrite run_layers_S in Hrun. bind_ok Hrun st_m Hm.
    apply layer_Ok_inv in Hrun. destruct Hrun as (rnn & Hrnn & _ & Hh' & _).
    rewrite Hh in Hh'. injection Hh' as ->.
    replace (S m - 1) with m by lia. exists st_m, rnn. repeat split; assumption.
  - destruct (sub_state_origin _ _ _ _ _ Hrun Hhs)
      as (i & st_i & rnn & _ & Hidx & Hrun_i & Hrnn & Hh').
    replace (Z.to_nat (num_layers_sub self) - 1) with i by lia.
    exists st_i, rnn. repeat split; assumption.
  - intros Hbi. unfold pick_final_state in Hfs, Hfs_sub.
    rewrite Hdir, Hbi in Hfs, Hfs_sub. simpl in Hfs, Hfs_sub.
    injection Hfs as <-. injection Hfs_sub as <-. split; reflexivity.
  - intros Hbi. unfold pick_final_state in Hfs, Hfs_sub.
    rewrite Hdir, Hbi in Hfs, Hfs_sub. simpl in Hfs, Hfs_sub.
    bind_ok Hfs top Htop. injection Hfs as <-.
    bind_ok Hfs_sub top_sub Htop_sub. injection Hfs_sub as <-.
    apply (last_item_Ok []) in Htop. apply (last_item_Ok []) in Htop_sub.
    destruct Htop as [Hne ->]. destruct Htop_sub as [Hne_sub ->].
    repeat split; assumption || reflexivity.
  - intros B Hsize. rewrite (pick_final_state_forward self Hdir Hsize) in Hfs.
    injection Hfs as <-. split; [reflexivity |].
    apply (has_size_forward_slice (n := if bidirectional self then 2 else 1));
      [destruct (bidirectional self); lia | exact Hsize].
  - intros B Hsize. rewrite (pick_final_state_forward self Hdir Hsize) in Hfs_sub.
    injection Hfs_sub as <-. split; [reflexivity |].
    apply (has_size_forward_slice (n := if bidirectional self then 2 else 1));
      [destruct (bidirectional self); lia | exact Hsize].
Qed.

(** ** The size of what unpadding returns *)

(** The dimension that counts the frames: 1 when batch-major, 0 when
    time-major. *)
Lemma pad_packed_sequence_time_size (p : Packed) (bf : bool) (t : Tensor3) (lens : list Z) :
  pad_packed_sequence p bf = Ok (t, lens) ->
  size (time_dim bf) t = list_max (map (@length Vec) p).
Proof.
  unfold pad_packed_sequence. destruct p as [| first rest]; [discriminate |].
  intros H. injection H as <- _.
  set (m := list_max (map (@length Vec) (first :: rest))).
  destruct bf; unfold time_dim, size, transpose01; cbn [hd map].
  - rewrite length_app, repeat_length. subst m. simpl. lia.
  - rewrite length_map, length_seq, length_app, repeat_length. subst m. simpl. lia.
Qed.

Lemma sum_bidirectional_unidirectional (self : encoder) (t t_sub o o_sub : Tensor3) :
  bidirectional self = false ->
  sum_bidirectional self t t_sub = Ok (o, o_sub) -> o = t /\ o_sub = t_sub.
Proof.
  intros Hbi. unfold sum_bidirectional. rewrite Hbi. simpl.
  intros H. injection H as <- <-. split; reflexivity.
Qed.

Lemma packed_lengths_5_4_3 (p : Packed) :
  packed_lengths p = [5; 4; 3]%Z -> list_max (map (@length Vec) p) = 5.
Proof.
  unfold packed_lengths.
  destruct p as [| r1 [| r2 [| r3 [| r4 p]]]]; simpl; intros H; try discriminate.
  injection H as H1 H2 H3. unfold Vec, Vec_ in *. lia.
Qed.

(** ** The batch of lengths 5, 3, 4 *)

Lemma sort_descending_5_3_4 :
  sort_descending [5; 3; 4]%Z = ([5; 4; 3]%Z, [0; 2; 1]).
Proof.
  rewrite sort_descending_unique; [reflexivity |].
  repeat (constructor; [simpl; intuition discriminate |]). constructor.
Qed.

Lemma transpose01_twice_rows (t : Tensor3) :
  1 <= length (hd [] t) ->
  length (transpose01 (transpose01 t)) = length t /\
  Forall (fun row => length row = length (hd [] t)) (transpose01 (transpose01 t)).
Proof.
  intros Hfirst. unfold transpose01 at 1 3.
  set (steps := transpose01 t).
  assert (Hsteps : length steps = length (hd [] t)).
  { unfold steps, transpose01. rewrite length_map, length_seq. reflexivity. }
  assert (Hhd : length (hd [] steps) = length t).
  { unfold steps, transpose01. destruct (length (hd [] t)) as [| n]; [lia |].
    simpl. rewrite length_map. reflexivity. }
  split.
  - rewrite length_map, length_seq. exact Hhd.
  - apply Forall_forall. intros row Hin. apply in_map_iff in Hin.
    destruct Hin as (b & <- & _). rewrite length_map. exact Hsteps.
Qed.

Lemma pack_padded_sequence_accepts (input rows : Tensor3) (lens : list Z) (bf : bool)
  (last_len : Z) :
  rows = (if bf then input else transpose01 input) ->
  last_item lens = Ok last_len -> (0 < last_len)%Z ->
  length lens = length rows ->
  non_increasing lens = true ->
  existsb (fun lr => length (snd lr) <? Z.to_nat (fst lr)) (combine lens rows) = false ->
  pack_padded_sequence input lens bf
  = Ok (map (fun lr => firstn (Z.to_nat (fst lr)) (snd lr)) (combine lens rows)).
Proof.
  intros Hrows Hlast Hpos Hlen Hs Hfit. unfold pack_padded_sequence.
  rewrite Hlast. cbn [bind].
  replace (last_len <=? 0)%Z with false by (symmetry; apply Z.leb_gt; exact Hpos).
  cbv zeta. rewrite <- Hrows.
  replace (length lens =? length rows) with true by (symmetry; apply Nat.eqb_eq; exact Hlen).
  rewrite Hs. cbn [negb]. rewrite Hfit. reflexivity.
Qed.

Lemma frames_suffice (T : nat) (lens : list Z) (rows : Tensor3) :
  Forall (fun l => Z.to_nat l <= T) lens ->
  Forall (fun row => T <= length row) rows ->
  existsb (fun lr => length (snd lr) <? Z.to_nat (fst lr)) (combine lens rows) = false.
Proof.
  revert rows. induction lens as [| l lens IH]; intros rows Hl Hrows; [reflexivity |].
  destruct rows as [| row rows]; [reflexivity |].
  apply Forall_cons_iff in Hl. destruct Hl as [Hl Hl'].
  apply Forall_cons_iff in Hrows. destruct Hrows as [Hrow Hrows'].
  cbn [combine existsb fst snd]. rewrite (IH rows Hl' Hrows'), orb_false_r.
  apply Nat.ltb_ge. lia.
Qed.

Lemma pack_padded_sequence_5_4_3 (input : Tensor3) (bf : bool) (rows : Tensor3) :
  rows = (if bf then input else transpose01 input) ->
  length rows = 3 ->
  Forall (fun row => 5 <= length row) rows ->
  exists p, pack_padded_sequence input [5; 4; 3]%Z bf = Ok p /\
            packed_lengths p = [5; 4; 3]%Z.
Proof.
  intros Heq Hlen Hrows.
  destruct rows as [| a [| b [| c [| d rows]]]]; simpl in Hlen; try lia.
  apply Forall_cons_iff in Hrows. destruct Hrows as [Ha Hrows].
  apply Forall_cons_iff in Hrows. destruct Hrows as [Hb Hrows].
  apply Forall_cons_iff in Hrows. destruct Hrows as [Hc _].
  exists [firstn 5 a; firstn 4 b; firstn 3 c]. split.
  { rewrite (@pack_padded_sequence_accepts input [a; b; c] [5; 4; 3]%Z bf 3%Z);
      [reflexivity | exact Heq | reflexivity | lia | reflexivity | reflexivity |].
    apply (@frames_suffice 5); repeat constructor; try lia; assumption. }
  unfold packed_lengths. cbn [map].
  rewrite !length_firstn. f_equal; [lia |]. f_equal; [lia |]. f_equal. lia.
Qed.

Lemma pad_packed_sequence_Ok (p : Packed) (bf : bool) :
  p <> [] -> exists t, pad_packed_sequence p bf = Ok (t, packed_lengths p).
Proof.
  intros Hne. unfold pad_packed_sequence. destruct p as [| first rest]; [contradiction |].
  eexists. reflexivity.
Qed.

Lemma forward_returns_5_3_4 (self : encoder) (inputs : Tensor3) (volatile : bool)
  (rnn0 rnn1 : rnn_cell) (more : list rnn_cell) :
  conv self = None ->
  num_layers self = 2%Z ->
  num_layers_sub self = 1%Z ->
  residual self || dense_residual self || (0 <? num_proj self)%Z = false ->
  bidirectional self = false ->
  rnns self = rnn0 :: rnn1 :: more ->
  keeps_lengths rnn0 -> keeps_lengths rnn1 ->
  length inputs = 3 ->
  Forall (fun row => 5 <= length row) inputs ->
  exists r, forward self inputs [5; 3; 4]%Z volatile = Ok r.
Proof.
  intros Hconv Hnl Hnls Hplain Hbi Hrnns Hk0 Hk1 Hlen Hrows.
  unfold forward, pack_inputs. rewrite sort_descending_5_3_4.
  destruct inputs as [| a [| b [| c [| d inputs]]]]; simpl in Hlen; try lia.
  apply Forall_cons_iff in Hrows. destruct Hrows as [Ha Hrows].
  apply Forall_cons_iff in Hrows. destruct Hrows as [Hb Hrows].
  apply Forall_cons_iff in Hrows. destruct Hrows as [Hc _].
  set (h_0 := initial_hidden self [a; b; c] volatile).
  change (index_select [a; b; c] [0; 2; 1]) with (Ok [a; c; b]).
  cbn [bind]. rewrite Hconv. unfold tracked_seq_len. rewrite Hconv. cbn [bind].
  destruct (pack_padded_sequence_5_4_3
              (if batch_first self then [a; c; b] else transpose01 [a; c; b])
              (batch_first self) eq_refl) as (packed & Hpack & Hpl).
  { destruct (batch_first self); [reflexivity |].
    destruct (transpose01_twice_rows [a; c; b]) as [Hl _]; [simpl; lia | exact Hl]. }
  { destruct (batch_first self).
    - repeat constructor; assumption.
    - destruct (transpose01_twice_rows [a; c; b]) as [_ Hall]; [simpl; lia |].
      eapply Forall_impl; [| exact Hall]. simpl. intros row ->. exact Ha. }
  match goal with
  | |- context [pack_padded_sequence ?i ?l ?bf] =>
      replace (pack_padded_sequence i l bf) with (@Ok Packed packed)
        by (symmetry; exact Hpack)
  end.
  cbn [bind]. rewrite Hnl.
  change (Z.to_nat 2) with 2.
  unfold run_layers. cbn [seq for_each].
  unfold layer at 1. rewrite Hrnns. cbn [item nth_error bind].
  destruct (Hk0 (st_outputs (initial_state packed)) h_0) as [Hl0 Hh0].
  destruct (rnn0 (st_outputs (initial_state packed)) h_0) as [o0 h0] eqn:Hcell0.
  simpl in Hl0, Hh0. rewrite unpadded_branch_skipped by exact Hplain. cbn [bind].
  rewrite Hnls. change (Z.of_nat 0 =? 1 - 1)%Z with true. cbn iota. cbn [bind].
  unfold layer at 1. rewrite Hrnns. cbn [item nth_error bind st_outputs].
  destruct (Hk1 o0 h_0) as [Hl1 Hh1].
  destruct (rnn1 o0 h_0) as [o1 h1] eqn:Hcell1.
  simpl in Hl1, Hh1. rewrite unpadded_branch_skipped by exact Hplain. cbn [bind].
  rewrite Hnls. change (Z.of_nat 1 =? 1 - 1)%Z with false. cbn iota. cbn [bind].
  cbn [st_res_outputs_list st_outputs_sub st_h_n_sub initial_state].
  assert (Hp0 : packed_lengths o0 = [5; 4; 3]%Z) by congruence.
  assert (Hp1 : packed_lengths o1 = [5; 4; 3]%Z) by congruence.
  unfold unpack_final. cbn [st_outputs st_outputs_sub st_h_n st_h_n_sub local bind].
  destruct (pad_packed_sequence_Ok (p := o1) (batch_first self)) as [t1 Ht1].
  { intros ->. discriminate Hp1. }
  destruct (pad_packed_sequence_Ok (p := o0) (batch_first self)) as [t0 Ht0].
  { intros ->. discriminate Hp0. }
  rewrite Ht1, Ht0. cbn [bind]. rewrite Hp1, Hp0.
  change (list_Z_eqb [5; 4; 3]%Z [5; 4; 3]%Z) with true. cbn [assert bind].
  unfold sum_bidirectional. rewrite Hbi. cbn [andb bind].
  unfold pick_final_state. destruct (num_directions self =? 2)%Z.
  - cbn [bind]. eexists. reflexivity.
  - unfold last_item.
    destruct (rev h1) as [| x1 l1] eqn:Hr1.
    { apply (f_equal (@rev _)) in Hr1. rewrite rev_involutive in Hr1. contradiction. }
    destruct (rev h0) as [| x0 l0] eqn:Hr0.
    { apply (f_equal (@rev _)) in Hr0. rewrite rev_involutive in Hr0. contradiction. }
    cbn [bind]. eexists. reflexivity.
Qed.

(** C9: for the batch of three sequences of lengths 5, 3 and 4, without
    a front-end, with a unidirectional encoder of two layers and the
    sub-layer index 1, what forward returns has 5 frames along the time
    dimension of the outputs and of the sub outputs, and the
    permutation [0, 2, 1]; and forward does return when the batch holds
    three rows of five frames at least, the cells keep the lengths
    (torch's cells do), and no projection or residual mode reshapes
    the outputs (all other settings are free in the first part). *)
Theorem scenario_lengths_5_3_4 (self : encoder) (inputs : Tensor3) (volatile : bool) :
  conv self = None ->
  bidirectional self = false ->
  num_layers self = 2%Z ->
  num_layers_sub self = 1%Z ->
  (forall r : forward_result,
     forward self inputs [5; 3; 4]%Z volatile = Ok r ->
     size (time_dim (batch_first self)) (outputs r) = 5 /\
     size (time_dim (batch_first self)) (outputs_sub r) = 5 /\
     perm_indices r = [0; 2; 1]) /\
  (forall (rnn0 rnn1 : rnn_cell) (more : list rnn_cell),
     residual self || dense_residual self || (0 <? num_proj self)%Z = false ->
     rnns self = rnn0 :: rnn1 :: more ->
     keeps_lengths rnn0 -> keeps_lengths rnn1 ->
     length inputs = 3 ->
     Forall (fun row => 5 <= length row) inputs ->
     exists r, forward self inputs [5; 3; 4]%Z volatile = Ok r).
Proof.
  intros Hconv Hbi Hnl Hnls. split.
  - intros r Hfw. apply forward_Ok_inv in Hfw.
    destruct Hfw as (packed & tracked & st & Hpack & _ & Hfin).
    apply pack_inputs_Ok_inv in Hpack. destruct Hpack as (Hperm & Htr & _).
    rewrite sort_descending_5_3_4 in Hperm, Htr. simpl in Hperm, Htr.
    unfold tracked_seq_len in Htr. rewrite Hconv in Htr. injection Htr as <-.
    apply unpack_final_Ok_inv in Hfin.
    destruct Hfin as (t & sub & t_sub & h_n & h_n_sub & Hpad & _ & Hpad_sub & Hmerge & _).
    destruct (sum_bidirectional_unidirectional _ _ _ Hbi Hmerge) as [-> ->].
    apply pad_packed_sequence_time_size in Hpad as Hsz.
    apply pad_packed_sequence_time_size in Hpad_sub as Hsz_sub.
    apply pad_packed_sequence_lengths in Hpad. apply pad_packed_sequence_lengths in Hpad_sub.
    rewrite Hsz, Hsz_sub.
    repeat split; [apply packed_lengths_5_4_3 | apply packed_lengths_5_4_3 | exact Hperm];
      symmetry; assumption.
  - intros rnn0 rnn1 more Hplain Hrnns Hk0 Hk1 Hlen Hrows.
    apply (forward_returns_5_3_4 self volatile (rnn0 := rnn0) (rnn1 := rnn1) (more := more));
      assumption.
Qed.

(** ** The permutation forward returns *)

Lemma unpack_final_perm (self : encoder) (lens : list Z) (st : loop_state)
  (perm perm' : list nat) (r : forward_result) :
  unpack_final self lens st perm = Ok r ->
  unpack_final self lens st perm' = Ok (with_perm perm' r).
Proof.
  unfold unpack_final. intros H.
  repeat match type of H with
         | bind ?m _ = Ok _ =>
             let x := fresh "x" in
             destruct m as [x | ?]; cbn [bind] in H |- *; [| discriminate H];
             match type of x with
             | (_ * _)%type => destruct x
             | _ => idtac
             end
         end.
  injection H as <-. reflexivity.
Qed.

(** C1, amended: the permutation forward returns is the one the sort
    by decreasing length returns, a permutation of the positions of
    the batch with [sorted[i] = original[perm[i]]]: row [i] of the
    outputs belongs to the caller's example [perm[i]].  The results
    are, row for row, those of the batch handed over in that sorted
    order: forward on [inputs[perm]] and [lens[perm]] returns the same
    outputs and states with the identity permutation whenever the sort
    leaves that sorted batch in place, as it must when the lengths are
    pairwise different (the order of equal lengths is the sort's
    choice).  Indexing rows that are in sorted order by the inverse of
    the permutation, not by the permutation itself, puts them back in
    the caller's order. *)
Theorem perm_indices_sorts_batch (self : encoder) (inputs : Tensor3) (lens : list Z)
  (volatile : bool) (r : forward_result) :
  length inputs = length lens ->
  forward self inputs lens volatile = Ok r ->
  perm_indices r = snd (sort_descending lens) /\
  Permutation (perm_indices r) (seq 0 (length lens)) /\
  (exists sorted sorted_lens,
     index_select inputs (perm_indices r) = Ok sorted /\
     index_select lens (perm_indices r) = Ok sorted_lens /\
     sorted_lens = map (fun i => nth i lens 0%Z) (perm_indices r) /\
     non_increasing sorted_lens = true /\
     (snd (sort_descending sorted_lens) = seq 0 (length lens) ->
      forward self sorted sorted_lens volatile
      = Ok (with_perm (seq 0 (length lens)) r)) /\
     (NoDup lens -> snd (sort_descending sorted_lens) = seq 0 (length lens))) /\
  (forall (A : Type) (rows : list A),
     length rows = length lens ->
     exists sorted_rows,
       index_select rows (perm_indices r) = Ok sorted_rows /\
       index_select sorted_rows (inverse_permutation (perm_indices r)) = Ok rows).
Proof.
  intros Hlen Hfw. apply forward_Ok_inv in Hfw.
  destruct Hfw as (packed & tracked & st & Hpack & Hrun & Hfin).
  apply pack_inputs_Ok_inv in Hpack as Hinv.
  destruct Hinv as (Hperm & Htr & sorted & Hsel & Hpk).
  pose proof (sort_descending_perm lens) as HP. rewrite <- Hperm in HP.
  split; [exact Hperm |]. split; [exact HP |]. split.
  - exists sorted, (fst (sort_descending lens)).
    assert (Hrange : Forall (fun i => i < length lens) (perm_indices r)).
    { apply Forall_forall. intros i Hi.
      apply (Permutation_in _ HP) in Hi. apply in_seq in Hi. lia. }
    split; [exact Hsel |]. split.
    { rewrite (index_select_in_range 0%Z _ Hrange), Hperm.
      rewrite <- sort_descending_values. reflexivity. }
    split; [rewrite Hperm; apply sort_descending_values |].
    split; [apply sort_descending_sorted |].
    assert (Hn : length (fst (sort_descending lens)) = length lens).
    { rewrite sort_descending_values, length_map, <- Hperm.
      rewrite (Permutation_length HP), length_seq. reflexivity. }
    assert (Hsorted_len : length sorted = length lens).
    { rewrite (index_select_length _ _ Hsel), (Permutation_length HP), length_seq.
      reflexivity. }
    split.
    + intros Hid.
      assert (Hsort_id : sort_descending (fst (sort_descending lens))
                         = (fst (sort_descending lens), seq 0 (length lens))).
      { pose proof (sort_descending_sorted_values _ (sort_descending_sorted lens)) as Hv.
        destruct (sort_descending (fst (sort_descending lens))) as [v p].
        simpl in Hv, Hid. rewrite Hv, Hid. reflexivity. }
      unfold forward.
      replace (initial_hidden self sorted volatile)
        with (initial_hidden self inputs volatile)
        by (unfold initial_hidden, size; rewrite Hsorted_len, Hlen; reflexivity).
      unfold pack_inputs.
      rewrite Hsort_id.
      rewrite <- Hsorted_len, index_select_all. cbn [bind].
      rewrite Htr. cbn [bind].
      cbv zeta in Hpk.
      match goal with
      | |- context [pack_padded_sequence ?i ?l ?bf] =>
          replace (pack_padded_sequence i l bf) with (@Ok Packed packed)
            by (symmetry; exact Hpk)
      end.
      cbn [bind]. rewrite Hrun. cbn [bind].
      rewrite Hsorted_len. apply unpack_final_perm with (perm := perm_indices r).
      exact Hfin.
    + intros Hnd.
      assert (Hnd' : NoDup (fst (sort_descending lens))).
      { apply (Permutation_NoDup (Permutation_sym (sort_descending_values_perm lens))).
        exact Hnd. }
      rewrite (sort_descending_sorted_id Hnd' (sort_descending_sorted lens)).
      simpl. rewrite Hn. reflexivity.
  - intros A rows Hrows. apply inverse_permutation_unsorts.
    rewrite Hrows. exact HP.
Qed.

(** ** Summing the two directions *)

Lemma broadcast_same_length {A : Type} (f : A -> A -> result A) (xs ys : list A) :
  length xs = length ys -> broadcast f xs ys = zip_with_r f xs ys.
Proof.
  intros H. unfold broadcast. rewrite H, Nat.eqb_refl. reflexivity.
Qed.

Lemma zip_with_r_map {A B : Type} (f : A -> A -> result A) (g h : B -> A) (l : list B) :
  zip_with_r f (map g l) (map h l) = map_r (fun x => f (g x) (h x)) l.
Proof.
  induction l as [| x l IH]; simpl; [reflexivity |].
  rewrite IH. reflexivity.
Qed.

Lemma map_r_Ok {A B : Type} (f : A -> result B) (g : A -> B) (l : list A) :
  Forall (fun x => f x = Ok (g x)) l -> map_r f l = Ok (map g l).
Proof.
  induction l as [| x l IH]; intros Hall; simpl; [reflexivity |].
  apply Forall_cons_iff in Hall. destruct Hall as [Hx Hall].
  rewrite Hx, (IH Hall). reflexivity.
Qed.

Lemma zip_with_r_pure {A : Type} (f : A -> A -> A) (xs ys : list A) :
  zip_with_r (fun a b => Ok (f a b)) xs ys
  = Ok (map (fun ab => f (fst ab) (snd ab)) (combine xs ys)).
Proof.
  revert ys. induction xs as [| x xs IH]; intros [| y ys]; simpl; try reflexivity.
  rewrite IH. reflexivity.
Qed.

Lemma vec_add_halves (n : nat) (v : Vec) :
  length v = 2 * n ->
  vec_add (slice_to (Z.of_nat n) v) (slice_from (Z.of_nat n) v) = Ok (add_halves n v) /\
  length (add_halves n v) = n.
Proof.
  intros Hlen. unfold slice_to, slice_from, slice_index.
  replace (Z.of_nat n <? 0)%Z with false by (symmetry; apply Z.ltb_ge; lia).
  rewrite Nat2Z.id. replace (Nat.min n (length v)) with n by lia.
  unfold vec_add, add_halves. split.
  - rewrite broadcast_same_length by (rewrite length_firstn, length_skipn; lia).
    apply zip_with_r_pure.
  - rewrite length_map, length_combine, length_firstn, length_skipn. lia.
Qed.

(** The merge of a tensor whose frames hold the [num_units] features of
    the forward direction followed by the [num_units] features of the
    backward direction. *)
Lemma sum_directions_halves (self : encoder) (n : nat) (t : Tensor3) :
  num_units self = Z.of_nat n ->
  last_dim (2 * n) t ->
  sum_directions self t = Ok (map (map (add_halves n)) t) /\
  last_dim n (map (map (add_halves n)) t).
Proof.
  intros Hn Hdim. unfold sum_directions, tensor_add, narrow_to, narrow_from. rewrite Hn.
  split.
  - rewrite broadcast_same_length by (rewrite !length_map; reflexivity).
    rewrite zip_with_r_map. apply map_r_Ok.
    eapply Forall_impl; [| exact Hdim]. intros m Hm. unfold mat_add.
    rewrite broadcast_same_length by (rewrite !length_map; reflexivity).
    rewrite zip_with_r_map. apply map_r_Ok.
    eapply Forall_impl; [| exact Hm]. intros v Hv. simpl in Hv.
    apply vec_add_halves. exact Hv.
  - unfold last_dim in *. apply Forall_map. eapply Forall_impl; [| exact Hdim].
    intros m Hm. apply Forall_map. eapply Forall_impl; [| exact Hm].
    intros v Hv. simpl in Hv. apply vec_add_halves. exact Hv.
Qed.

(** The merge of lines 268-272, where it does what it is meant to do:
    when both unpadded outputs have [2 * num_units] features, both are
    replaced by the sums of their halves and end with [num_units]
    features. *)
Theorem sum_bidirectional_halves (self : encoder) (n : nat) (t t_sub : Tensor3) :
  bidirectional self && merge_bidirectional self = true ->
  num_units self = Z.of_nat n ->
  last_dim (2 * n) t ->
  last_dim (2 * n) t_sub ->
  sum_bidirectional self t t_sub
  = Ok (map (map (add_halves n)) t, map (map (add_halves n)) t_sub) /\
  last_dim n (map (map (add_halves n)) t) /\
  last_dim n (map (map (add_halves n)) t_sub).
Proof.
  intros Hmerge Hn Ht Hsub. unfold sum_bidirectional. rewrite Hmerge.
  destruct (@sum_directions_halves self n t Hn Ht) as [-> Hd].
  destruct (@sum_directions_halves self n t_sub Hn Hsub) as [-> Hd_sub].
  simpl. repeat split; assumption.
Qed.

End Layer_properties.

Section Construction_more.

Context {fw : Framework}.

(** ** More on the constructor *)

Lemma init_layer_cell (a : Args.t) (p d isz : Z) (rs : list rnn_cell) (ps : list linear)
  (i : nat) :
  init_layer a p d isz (rs, ps) i =
  match cell_class (Args.rnn_type a) with
  | Some class =>
      Ok (rs ++ [class i (layer_input_size isz p (Args.num_units a) d i)
                   (Args.num_units a) (Args.batch_first a) (Args.dropout a)
                   (Args.bidirectional a)],
          if (0 <? p)%Z then ps ++ [LinearND i (Args.num_units a * d)%Z p] else ps)
  | None => Raise (ValueError rnn_type_message)
  end.
Proof.
  unfold init_layer, cell_class, layer_input_size.
  destruct (String.eqb (Args.rnn_type a) "lstm"); simpl.
  - destruct (0 <? p)%Z; reflexivity.
  - destruct (String.eqb (Args.rnn_type a) "gru"); simpl.
    + destruct (0 <? p)%Z; reflexivity.
    + destruct (String.eqb (Args.rnn_type a) "rnn"); simpl.
      * destruct (0 <? p)%Z; reflexivity.
      * reflexivity.
Qed.

Lemma init_layers_wiring (a : Args.t) (p d isz : Z)
  (class : nat -> Z -> Z -> bool -> F -> bool -> rnn_cell) (n : nat) :
  cell_class (Args.rnn_type a) = Some class ->
  forall (start : nat) (rs : list rnn_cell) (ps : list linear),
  for_each (init_layer a p d isz) (seq start n) (rs, ps) =
  Ok (rs ++ map (fun i => class i (layer_input_size isz p (Args.num_units a) d i)
                            (Args.num_units a) (Args.batch_first a) (Args.dropout a)
                            (Args.bidirectional a)) (seq start n),
      ps ++ (if (0 <? p)%Z
             then map (fun i => LinearND i (Args.num_units a * d)%Z p) (seq start n)
             else [])).
Proof.
  intros Hclass. induction n as [| n IH]; intros start rs ps.
  - simpl. rewrite !app_nil_r. destruct (0 <? p)%Z; rewrite ?app_nil_r; reflexivity.
  - cbn [seq for_each]. rewrite init_layer_cell, Hclass. cbn [bind].
    rewrite IH. destruct (0 <? p)%Z; cbn [map]; rewrite <- !app_assoc; reflexivity.
Qed.

Lemma init_checks_Ok_inv (a : Args.t) (self : encoder) :
  __init__ a = Ok self ->
  check_num_layers_sub a = Ok tt /\ check_residual_modes a = Ok tt /\
  exists first,
    init_conv a = Ok (first, conv self, conv_out_size self) /\
    exists layers,
      for_each (init_layer a (num_proj self) (num_directions self) first)
        (seq 0 (Z.to_nat (num_layers self))) ([], []) = Ok layers /\
      rnns self = fst layers /\ projections self = snd layers.
Proof.
  unfold __init__. intros H.
  bind_ok H u1 H1. destruct u1. bind_ok H u2 H2. destruct u2.
  bind_ok H cv Hcv. destruct cv as [[first cm] cos].
  bind_ok H layers Hlayers. destruct layers as [rs ps].
  injection H as <-. cbn.
  split; [exact H1 |]. split; [exact H2 |].
  exists first. split; [exact Hcv |]. exists (rs, ps). repeat split. exact Hlayers.
Qed.

(** The layers the constructor builds: one cell per layer, of the class
    named by rnn_type; the first reads the features of the front-end
    or the spliced and stacked input, every other one reads [num_proj]
    features when a projection is configured and
    [num_units * num_directions] otherwise.  With a projection there is
    one linear layer per layer, the last layer included (the one
    forward never applies); without, there is none. *)
Theorem init_builds_layers (a : Args.t) (self : encoder) :
  __init__ a = Ok self ->
  exists class first,
    cell_class (Args.rnn_type a) = Some class /\
    init_conv a = Ok (first, conv self, conv_out_size self) /\
    rnns self =
    map (fun i => class i
                    (layer_input_size first (num_proj self) (num_units self)
                       (num_directions self) i)
                    (num_units self) (batch_first self) (Args.dropout a)
                    (bidirectional self))
      (seq 0 (Z.to_nat (num_layers self))) /\
    projections self =
    (if (0 <? num_proj self)%Z
     then map (fun i => LinearND i (num_units self * num_directions self)%Z (num_proj self))
            (seq 0 (Z.to_nat (num_layers self)))
     else []).
Proof.
  intros Hinit. pose proof (init_Ok_inv _ Hinit) as Hinv.
  destruct Hinv as (Hrange & _).
  apply init_checks_Ok_inv in Hinit as Hparts.
  destruct Hparts as (_ & _ & first & Hconv & layers & Hloop & Hr & Hp).
  assert (Hfields : num_units self = Args.num_units a /\
                    batch_first self = Args.batch_first a /\
                    bidirectional self = Args.bidirectional a).
  { unfold __init__ in Hinit.
    bind_ok Hinit u1 H1. bind_ok Hinit u2 H2.
    bind_ok Hinit cv Hcv. destruct cv as [[f cm] cos].
    bind_ok Hinit ly Hly. destruct ly as [rs ps].
    injection Hinit as <-. cbn. repeat split. }
  destruct Hfields as (HU & Hbf & Hbi).
  destruct (cell_class (Args.rnn_type a)) as [class |] eqn:Hclass.
  - exists class, first. split; [reflexivity |]. split; [exact Hconv |].
    rewrite (init_layers_wiring a _ _ _ _ Hclass) in Hloop.
    injection Hloop as <-. cbn [fst snd app] in Hr, Hp.
    rewrite Hr, Hp, HU, Hbf, Hbi. split; reflexivity.
  - exfalso. destruct (Z.to_nat (num_layers self)) as [| n] eqn:Hn; [lia |].
    cbn [seq for_each] in Hloop. rewrite init_layer_cell, Hclass in Hloop.
    discriminate Hloop.
Qed.

(** A cell type other than lstm, gru and rnn makes the constructor
    raise the ValueError of line 151: not at once, but after the
    sub-layer index and the residual modes were checked and the
    front-end, if any, was built, when the first layer is put
    together. *)
Theorem init_unknown_rnn_type (a : Args.t)
  (built_conv : Z * option (conv_module F ConvLayers) * option (Z -> Z -> Z)) :
  cell_class (Args.rnn_type a) = None ->
  check_num_layers_sub a = Ok tt ->
  check_residual_modes a = Ok tt ->
  init_conv a = Ok built_conv ->
  __init__ a = Raise (ValueError rnn_type_message).
Proof.
  intros Hclass Hsub Hres Hconv. unfold __init__. rewrite Hsub, Hres, Hconv.
  cbn [bind]. destruct built_conv as [[first cm] cos].
  assert (Hn : exists n, Z.to_nat (Args.num_layers a) = S n).
  { unfold check_num_layers_sub in Hsub.
    destruct ((Args.num_layers_sub a <? 1)%Z || (Args.num_layers a <? Args.num_layers_sub a)%Z)
      eqn:Hc; [discriminate |].
    apply orb_false_iff in Hc. destruct Hc as [H1 H2].
    apply Z.ltb_ge in H1. apply Z.ltb_ge in H2.
    exists (Z.to_nat (Args.num_layers a) - 1). lia. }
  destruct Hn as [n ->]. cbn [seq for_each].
  rewrite init_layer_cell, Hclass. reflexivity.
Qed.

(** The front-end: it is built only when conv_channels is not empty
    and conv_channels, conv_kernel_sizes and conv_strides have the same
    length, and then only with num_stack = 1 and splice = 1 (the
    assertions of lines 97 and 98).  Lists of different lengths raise
    nothing: the encoder is built without a front-end. *)
Theorem init_front_end (a : Args.t) :
  (forall self, __init__ a = Ok self ->
     if wants_conv a
     then Args.num_stack a = 1%Z /\ Args.splice a = 1%Z /\
          exists c, conv self = Some c /\
                    conv_out_size self = Some (ConvOutSize (conv_layers c))
     else conv self = None /\ conv_out_size self = None) /\
  (wants_conv a = true -> check_num_layers_sub a = Ok tt ->
   check_residual_modes a = Ok tt ->
   (Args.num_stack a <> 1%Z -> __init__ a = Raise (AssertionError 97)) /\
   (Args.num_stack a = 1%Z -> Args.splice a <> 1%Z ->
    __init__ a = Raise (AssertionError 98))).
Proof.
  split.
  - intros self Hinit. apply init_checks_Ok_inv in Hinit.
    destruct Hinit as (_ & _ & first & Hconv & _).
    unfold init_conv in Hconv. fold (wants_conv a) in Hconv.
    destruct (wants_conv a).
    + bind_ok Hconv u1 H1. apply assert_Ok_inv, Z.eqb_eq in H1.
      bind_ok Hconv u2 H2. apply assert_Ok_inv, Z.eqb_eq in H2.
      bind_ok Hconv c Hc. injection Hconv as _ <- <-.
      split; [exact H1 |]. split; [exact H2 |]. exists c. split; reflexivity.
    + injection Hconv as _ <- <-. split; reflexivity.
  - intros Hwants Hsub Hres. unfold __init__. rewrite Hsub, Hres. cbn [bind].
    unfold init_conv. fold (wants_conv a). rewrite Hwants. split.
    + intros Hstack. apply Z.eqb_neq in Hstack. rewrite Hstack. reflexivity.
    + intros Hstack Hsplice. apply Z.eqb_eq in Hstack. apply Z.eqb_neq in Hsplice.
      rewrite Hstack, Hsplice. reflexivity.
Qed.

End Construction_more.

Section Forward_more.

Context {fw : Framework}.

(** ** What packing accepts *)

Lemma non_increasing_tail (x : Z) (l : list Z) :
  non_increasing (x :: l) = true -> non_increasing l = true.
Proof.
  destruct l as [| y l]; [reflexivity |].
  cbn [non_increasing]. intros H. apply andb_true_iff in H. apply H.
Qed.

Lemma non_increasing_above_last (l : list Z) (last_len : Z) :
  non_increasing l = true -> last_item l = Ok last_len ->
  Forall (fun x => (last_len <= x)%Z) l.
Proof.
  intros Hs Hlast. apply (last_item_Ok 0%Z) in Hlast. destruct Hlast as [_ ->].
  induction l as [| x l IH]; [constructor |].
  destruct l as [| y l].
  - constructor; [simpl; lia | constructor].
  - pose proof (non_increasing_tail _ _ Hs) as Htail.
    specialize (IH Htail). constructor; [| exact IH].
    cbn [non_increasing] in Hs. apply andb_true_iff in Hs. destruct Hs as [Hyx _].
    apply Z.leb_le in Hyx. apply Forall_inv in IH.
    change (last (x :: y :: l) 0%Z) with (last (y :: l) 0%Z). lia.
Qed.

Lemma pack_padded_sequence_Ok_inv (input : Tensor3) (lens : list Z) (bf : bool)
  (p : Packed) :
  pack_padded_sequence input lens bf = Ok p ->
  lens <> [] /\ Forall (fun l => (0 < l)%Z) lens /\ non_increasing lens = true /\
  length lens = length (if bf then input else transpose01 input) /\
  p = map (fun lr => firstn (Z.to_nat (fst lr)) (snd lr))
        (combine lens (if bf then input else transpose01 input)).
Proof.
  unfold pack_padded_sequence. intros H. bind_ok H last_len Hlast.
  destruct (last_len <=? 0)%Z eqn:Hpos; [discriminate |].
  cbv zeta in H.
  match type of H with
  | (if negb ?c then _ else _) = _ => destruct c eqn:Hlen; cbn [negb] in H; [| discriminate]
  end.
  destruct (non_increasing lens) eqn:Hs; cbn [negb] in H; [| discriminate].
  match type of H with
  | (if ?c then _ else _) = _ => destruct c eqn:Hfit; [discriminate |]
  end.
  injection H as <-. apply Z.leb_gt in Hpos. apply Nat.eqb_eq in Hlen.
  split; [apply (last_item_Ok 0%Z) in Hlast; apply Hlast |].
  split; [| repeat split; assumption].
  eapply Forall_impl; [| apply (non_increasing_above_last _ Hs Hlast)].
  simpl. intros x Hx. lia.
Qed.

Lemma pack_padded_sequence_fits (input : Tensor3) (lens : list Z) (bf : bool)
  (p : Packed) :
  pack_padded_sequence input lens bf = Ok p ->
  existsb (fun lr => length (snd lr) <? Z.to_nat (fst lr))
    (combine lens (if bf then input else transpose01 input)) = false.
Proof.
  unfold pack_padded_sequence. intros H. bind_ok H last_len Hlast.
  destruct (last_len <=? 0)%Z; [discriminate |].
  cbv zeta in H.
  match type of H with
  | (if negb ?c then _ else _) = _ => destruct c; cbn [negb] in H; [| discriminate]
  end.
  destruct (non_increasing lens); cbn [negb] in H; [| discriminate].
  match type of H with
  | (if ?c then _ else _) = _ => destruct c eqn:Hfit; [discriminate | exact Hfit]
  end.
Qed.

Lemma packed_lengths_fitting (lens : list Z) :
  Forall (fun l => (0 < l)%Z) lens ->
  forall rows : Tensor3,
  length lens = length rows ->
  existsb (fun lr => length (snd lr) <? Z.to_nat (fst lr)) (combine lens rows) = false ->
  packed_lengths (map (fun lr => firstn (Z.to_nat (fst lr)) (snd lr)) (combine lens rows))
  = lens.
Proof.
  unfold packed_lengths. induction lens as [| l lens IH]; intros Hpos rows Hlen Hfit.
  - reflexivity.
  - destruct rows as [| row rows]; [discriminate |].
    apply Forall_cons_iff in Hpos. destruct Hpos as [Hl Hpos].
    cbn [combine existsb fst snd] in Hfit. apply orb_false_iff in Hfit.
    destruct Hfit as [Hrow Hfit]. apply Nat.ltb_ge in Hrow.
    cbn [combine map fst snd]. f_equal.
    + rewrite length_firstn. unfold Vec, Vec_ in *. lia.
    + apply IH; [exact Hpos | simpl in Hlen; lia | exact Hfit].
Qed.

(** What was packed has the lengths it was packed with. *)
Lemma pack_padded_sequence_lengths (input : Tensor3) (lens : list Z) (bf : bool)
  (p : Packed) :
  pack_padded_sequence input lens bf = Ok p -> packed_lengths p = lens.
Proof.
  intros H. pose proof (pack_padded_sequence_fits _ _ _ H) as Hfit.
  apply pack_padded_sequence_Ok_inv in H. destruct H as (_ & Hpos & _ & Hlen & ->).
  apply packed_lengths_fitting; assumption.
Qed.

(** ** The sizes of the outputs *)

Lemma packed_lengths_max (p : Packed) (lens : list Z) :
  packed_lengths p = lens ->
  list_max (map (@length Vec) p) = list_max (map Z.to_nat lens).
Proof.
  intros <-. unfold packed_lengths. rewrite map_map. f_equal.
  apply map_ext. intros row. rewrite Nat2Z.id. reflexivity.
Qed.

Lemma list_max_ge_In (l : list nat) (x : nat) : In x l -> x <= list_max l.
Proof.
  intros Hin. pose proof (proj1 (list_max_le l (list_max l)) (Nat.le_refl _)) as Hall.
  rewrite Forall_forall in Hall. apply Hall. exact Hin.
Qed.

Lemma list_max_perm (l1 l2 : list nat) :
  Permutation l1 l2 -> list_max l1 = list_max l2.
Proof.
  intros HP. apply Nat.le_antisymm; apply list_max_le; apply Forall_forall; intros x Hx;
    apply list_max_ge_In.
  - apply (Permutation_in _ HP). exact Hx.
  - apply (Permutation_in _ (Permutation_sym HP)). exact Hx.
Qed.

Lemma pad_packed_sequence_batch_size (p : Packed) (bf : bool) (t : Tensor3)
  (lens : list Z) :
  pad_packed_sequence p bf = Ok (t, lens) ->
  1 <= length (hd [] p) ->
  size (batch_dim bf) t = length p.
Proof.
  unfold pad_packed_sequence. destruct p as [| first rest]; [discriminate |].
  intros H Hfirst. injection H as <- _. simpl in Hfirst.
  destruct bf; unfold batch_dim, size.
  - cbn [length]. rewrite length_map. reflexivity.
  - unfold transpose01. cbn [hd]. rewrite length_app.
    match goal with
    | |- context [seq 0 ?n] => destruct n as [| k] eqn:Hn
    end.
    + unfold Vec, Vec_ in *. lia.
    + cbn [seq map hd length]. rewrite !length_map. reflexivity.
Qed.

Lemma map_r_length {A B : Type} (f : A -> result B) (l : list A) (l' : list B) :
  map_r f l = Ok l' -> length l' = length l.
Proof.
  revert l'. induction l as [| x l IH]; intros l' H; simpl in H.
  - injection H as <-. reflexivity.
  - bind_ok H y Hy. bind_ok H ys Hys. injection H as <-. simpl. f_equal.
    apply IH. exact Hys.
Qed.

Lemma sum_directions_sizes (self : encoder) (t o : Tensor3) :
  sum_directions self t = Ok o ->
  size 0 o = size 0 t /\ size 1 o = size 1 t.
Proof.
  unfold sum_directions, tensor_add, narrow_to, narrow_from. intros H.
  rewrite broadcast_same_length in H by (rewrite !length_map; reflexivity).
  rewrite zip_with_r_map in H.
  split; [apply (map_r_length _ _ H) |].
  destruct t as [| m t]; simpl in H.
  - injection H as <-. reflexivity.
  - bind_ok H y Hy. bind_ok H ys Hys. injection H as <-. unfold size. cbn [hd].
    unfold mat_add in Hy.
    rewrite broadcast_same_length in Hy by (rewrite !length_map; reflexivity).
    rewrite zip_with_r_map in Hy. apply (map_r_length _ _ Hy).
Qed.

Lemma sum_bidirectional_sizes (self : encoder) (t t_sub o o_sub : Tensor3) :
  sum_bidirectional self t t_sub = Ok (o, o_sub) ->
  (size 0 o = size 0 t /\ size 1 o = size 1 t) /\
  (size 0 o_sub = size 0 t_sub /\ size 1 o_sub = size 1 t_sub).
Proof.
  unfold sum_bidirectional. destruct (bidirectional self && merge_bidirectional self).
  - intros H. bind_ok H m Hm. bind_ok H m_sub Hm_sub. injection H as <- <-.
    split; [apply (sum_directions_sizes _ _ Hm) | apply (sum_directions_sizes _ _ Hm_sub)].
  - intros H. injection H as <- <-. repeat split.
Qed.

Lemma size_dims (bf : bool) (t u : Tensor3) :
  size 0 t = size 0 u -> size 1 t = size 1 u ->
  size (time_dim bf) t = size (time_dim bf) u /\
  size (batch_dim bf) t = size (batch_dim bf) u.
Proof. intros H0 H1. destruct bf; split; assumption. Qed.

(** Whatever the time size of the padded input, both outputs forward
    returns have as many frames as the longest sequence of the batch
    has after the front-end (without a front-end: the largest of the
    lengths handed over), and as many rows as the batch has lengths;
    and a batch forward returns for has positive lengths only. *)
Theorem outputs_sizes (self : encoder) (inputs : Tensor3) (lens : list Z)
  (volatile : bool) (r : forward_result) :
  forward self inputs lens volatile = Ok r ->
  exists tracked,
    tracked_seq_len self (fst (sort_descending lens)) = Ok tracked /\
    lens <> [] /\ Forall (fun l => (0 < l)%Z) tracked /\
    size (time_dim (batch_first self)) (outputs r) = list_max (map Z.to_nat tracked) /\
    size (time_dim (batch_first self)) (outputs_sub r) = list_max (map Z.to_nat tracked) /\
    size (batch_dim (batch_first self)) (outputs r) = length lens /\
    size (batch_dim (batch_first self)) (outputs_sub r) = length lens /\
    (conv self = None ->
     list_max (map Z.to_nat tracked) = list_max (map Z.to_nat lens)).
Proof.
  intros Hfw. apply forward_Ok_inv in Hfw.
  destruct Hfw as (packed & tracked & st & Hpack & _ & Hfin).
  apply pack_inputs_Ok_inv in Hpack. destruct Hpack as (_ & Htr & sorted & _ & Hpk).
  apply pack_padded_sequence_Ok_inv in Hpk.
  destruct Hpk as (Hne & Hpos & _ & _ & _).
  assert (Hlen : length tracked = length lens).
  { unfold tracked_seq_len in Htr.
    assert (Hs : length (fst (sort_descending lens)) = length lens)
      by (apply Permutation_length, sort_descending_values_perm).
    destruct (conv self).
    - destruct (conv_out_size self) as [out_size |]; [| discriminate].
      assert (E : tracked = map (fun x => out_size x 1%Z) (fst (sort_descending lens)))
        by congruence.
      rewrite E, length_map. exact Hs.
    - assert (E : tracked = fst (sort_descending lens)) by congruence.
      rewrite E. exact Hs. }
  apply unpack_final_Ok_inv in Hfin.
  destruct Hfin as (t & sub & t_sub & h_n & h_n_sub & Hpad & _ & Hpad_sub & Hmerge & _).
  apply sum_bidirectional_sizes in Hmerge. destruct Hmerge as [[Ho0 Ho1] [Hs0 Hs1]].
  destruct (size_dims (batch_first self) _ _ Ho0 Ho1) as [Hot Hob].
  destruct (size_dims (batch_first self) _ _ Hs0 Hs1) as [Hst Hsb].
  apply pad_packed_sequence_lengths in Hpad as Hl. symmetry in Hl.
  apply pad_packed_sequence_lengths in Hpad_sub as Hl_sub. symmetry in Hl_sub.
  assert (Hfirst : forall p : Packed, packed_lengths p = tracked ->
                                      1 <= length (hd [] p) /\ length p = length lens).
  { intros p Hp. split.
    - destruct tracked as [| l tracked']; [contradiction |].
      destruct p as [| first rest]; [discriminate |].
      unfold packed_lengths in Hp. simpl in Hp. injection Hp as Hp _.
      apply Forall_inv in Hpos. simpl. lia.
    - rewrite <- Hlen, <- Hp. unfold packed_lengths. rewrite length_map. reflexivity. }
  exists tracked. split; [exact Htr |].
  split; [intros ->; destruct tracked; [contradiction | discriminate] |].
  split; [exact Hpos |].
  split; [rewrite Hot, (pad_packed_sequence_time_size _ _ Hpad);
          apply packed_lengths_max; exact Hl |].
  split; [rewrite Hst, (pad_packed_sequence_time_size _ _ Hpad_sub);
          apply packed_lengths_max; exact Hl_sub |].
  split; [rewrite Hob, (pad_packed_sequence_batch_size _ _ Hpad);
          apply (Hfirst _ Hl) |].
  split; [rewrite Hsb, (pad_packed_sequence_batch_size _ _ Hpad_sub);
          apply (Hfirst _ Hl_sub) |].
  intros Hconv. unfold tracked_seq_len in Htr. rewrite Hconv in Htr.
  assert (E : tracked = fst (sort_descending lens)) by congruence.
  rewrite E. apply list_max_perm, Permutation_map, sort_descending_values_perm.
Qed.

End Forward_more.

Section Loop_more.

Context {fw : Framework}.

(** ** The sub-task tap *)

Lemma for_each_ext {S I : Type} (f g : S -> I -> result S) (l : list I) (s : S) :
  (forall s' i, f s' i = g s' i) -> for_each f l s = for_each g l s.
Proof.
  intros Hext. revert s. induction l as [| i l IH]; intros s; simpl; [reflexivity |].
  rewrite Hext. destruct (g s i); simpl; [apply IH | reflexivity].
Qed.

Lemma layer_truncated (self : encoder) (lens : list Z) (h_0 : Hidden0)
  (st : loop_state) (i : nat) :
  (num_proj self <= 0)%Z ->
  layer (truncated self) lens h_0 st i = layer self lens h_0 st i.
Proof.
  intros Hproj. apply Z.ltb_ge in Hproj.
  unfold layer, unpadded_branch, unpack_outputs, projection_layer, residual_connection,
    truncated.
  cbn [rnns residual dense_residual num_proj batch_first num_layers num_layers_sub
       projections].
  rewrite Hproj. reflexivity.
Qed.

Lemma sub_state_kept (self : encoder) (lens : list Z) (h_0 : Hidden0) (p : Packed)
  (m : nat) (st_m : loop_state) :
  run_layers self lens h_0 m p = Ok st_m ->
  (num_layers_sub self <= Z.of_nat m)%Z ->
  forall n st, m <= n -> run_layers self lens h_0 n p = Ok st ->
  st_outputs_sub st = st_outputs_sub st_m /\ st_h_n_sub st = st_h_n_sub st_m.
Proof.
  intros Hm Hsub n. induction n as [| n IH]; intros st Hle Hn.
  - assert (m = 0) by lia. subst m. rewrite Hm in Hn. injection Hn as <-.
    split; reflexivity.
  - destruct (Nat.eq_dec m (S n)) as [-> | Hne].
    + rewrite Hm in Hn. injection Hn as <-. split; reflexivity.
    + rewrite run_layers_S in Hn. bind_ok Hn st_n Hst_n.
      destruct (IH st_n) as [Ho Hh]; [lia | exact Hst_n |].
      apply layer_Ok_inv in Hn. destruct Hn as (rnn & _ & _ & _ & _ & Hnot).
      destruct Hnot as [Ho' Hh']; [lia |]. split; congruence.
Qed.

(** Without a projection, the sub-task results of forward are the main
    results of the same encoder with the layers above the sub-layer
    index left out: the layers above the tap change nothing of what it
    holds. *)
Theorem sub_results_of_truncated_encoder (self : encoder) (inputs : Tensor3)
  (lens : list Z) (volatile : bool) (r : forward_result) :
  (num_proj self <= 0)%Z ->
  forward self inputs lens volatile = Ok r ->
  forward (truncated self) inputs lens volatile = Ok (sub_results r).
Proof.
  intros Hproj Hfw. apply forward_Ok_inv in Hfw.
  destruct Hfw as (packed & tracked & st & Hpack & Hrun & Hfin).
  apply unpack_final_Ok_inv in Hfin.
  destruct Hfin as (t & sub & t_sub & h_n & h_n_sub & Hpad & Hsub & Hpad_sub & Hmerge
                    & Hh & Hhs & Hfs & Hfs_sub & Hperm).
  set (h_0 := initial_hidden self inputs volatile) in *.
  destruct (sub_state_origin _ _ _ _ _ Hrun Hhs)
    as (i & st_i & rnn & Hi & Hidx & Hrun_i & Hrnn & Hh_sub).
  destruct (run_layers_prefix _ _ _ _ Hrun (i := S i)) as [st_m Hm]; [lia |].
  destruct (sub_state_kept _ _ _ _ Hm) with (n := Z.to_nat (num_layers self)) (st := st)
    as [Ho Hhn]; [lia | lia | exact Hrun |].
  pose proof Hm as Hm'. rewrite run_layers_S in Hm'. bind_ok Hm' st_i' Hst_i'.
  apply layer_Ok_inv in Hm'. destruct Hm' as (rnn' & _ & _ & Hh_m & Hat & _).
  destruct (Hat Hidx) as [Hsub_m Hh_sub_m].
  rewrite Ho, Hsub_m in Hsub. injection Hsub as <-.
  rewrite Hhn, Hh_sub_m in Hhs.
  unfold forward.
  change (initial_hidden (truncated self) inputs volatile) with h_0.
  change (pack_inputs (truncated self) inputs lens) with (pack_inputs self inputs lens).
  rewrite Hpack. cbn [bind].
  change (num_layers (truncated self)) with (num_layers_sub self).
  replace (Z.to_nat (num_layers_sub self)) with (S i) by lia.
  unfold run_layers.
  rewrite (for_each_ext (layer (truncated self) tracked h_0) (layer self tracked h_0))
    by (intros; apply layer_truncated; exact Hproj).
  fold (run_layers self tracked h_0 (S i) packed). rewrite Hm. cbn [bind].
  unfold unpack_final.
  change (batch_first (truncated self)) with (batch_first self).
  rewrite Hsub_m, Hh_sub_m, Hhs. cbn [local bind]. rewrite Hpad_sub. cbn [bind].
  replace (list_Z_eqb tracked tracked) with true
    by (symmetry; apply list_Z_eqb_eq; reflexivity).
  cbn [assert bind].
  assert (Hm_sub : sum_bidirectional (truncated self) t_sub t_sub
                   = Ok (outputs_sub r, outputs_sub r)).
  { unfold sum_bidirectional in Hmerge |- *.
    change (bidirectional (truncated self)) with (bidirectional self).
    change (merge_bidirectional (truncated self)) with (merge_bidirectional self).
    destruct (bidirectional self && merge_bidirectional self).
    - bind_ok Hmerge o Ho'. bind_ok Hmerge o_sub Ho_sub. injection Hmerge as _ <-.
      change (sum_directions (truncated self) t_sub) with (sum_directions self t_sub).
      rewrite Ho_sub. reflexivity.
    - injection Hmerge as _ <-. reflexivity. }
  rewrite Hm_sub. cbn [bind].
  change (pick_final_state (truncated self) h_n_sub)
    with (pick_final_state self h_n_sub).
  rewrite Hfs_sub. cbn [bind]. reflexivity.
Qed.

(** ** Residual connections *)


(** ** Lengths that are not positive *)

Lemma last_item_nonempty {A : Type} (l : list A) :
  l <> [] -> exists x, last_item l = Ok x.
Proof.
  intros Hne. unfold last_item. destruct (rev l) as [| x l'] eqn:Hrev.
  - apply (f_equal (@rev A)) in Hrev. rewrite rev_involutive in Hrev. contradiction.
  - exists x. reflexivity.
Qed.


End Loop_more.

Section Padding.

Context {fw : Framework}.

(** ** The frames of the padded outputs *)

Lemma nth_map_in_range {A B : Type} (f : A -> B) (l : list A) (d : A) (d' : B) (k : nat) :
  k < length l -> nth k (map f l) d' = f (nth k l d).
Proof.
  intros Hk. rewrite (nth_indep _ d' (f d)) by (rewrite length_map; exact Hk).
  apply map_nth.
Qed.

(** What unpadding puts at time [k] of example [b]: the frame of the
    packed batch while the example lasts, a frame of zeros after. *)
Lemma pad_packed_sequence_frame (p : Packed) (bf : bool) (t : Tensor3) (lens : list Z)
  (b k : nat) :
  pad_packed_sequence p bf = Ok (t, lens) ->
  b < length p -> k < list_max (map (@length Vec) p) ->
  (k < length (nth b p []) -> frame bf t b k = nth k (nth b p []) []) /\
  (length (nth b p []) <= k ->
   frame bf t b k = repeat fzero (length (hd [] (hd [] p)))).
Proof.
  unfold pad_packed_sequence. destruct p as [| first rest] eqn:Hp; [discriminate |].
  rewrite <- Hp in *. intros H Hb Hk.
  set (m := list_max (map (@length Vec) p)) in *.
  set (padding := repeat fzero (length (hd [] first))).
  set (pad_row := fun row : list Vec => row ++ repeat padding (m - length row)).
  assert (Ht : t = if bf then map pad_row p else transpose01 (map pad_row p)).
  { subst p. injection H as <- _. reflexivity. }
  assert (Hrow_len : forall row, In row p -> length (pad_row row) = m).
  { intros row Hin. unfold pad_row. rewrite length_app, repeat_length.
    assert (length row <= m).
    { unfold m. apply list_max_ge_In. apply in_map. exact Hin. }
    unfold Vec, Vec_ in *. lia. }
  assert (Hframe : frame bf t b k = nth k (pad_row (nth b p [])) []).
  { rewrite Ht. unfold frame. destruct bf.
    - rewrite (nth_map_in_range pad_row p [] []) by exact Hb. reflexivity.
    - unfold transpose01.
      match goal with
      | |- context [seq 0 ?n] =>
          replace n with m
            by (symmetry; rewrite Hp; cbn [map hd]; apply Hrow_len; rewrite Hp; left;
                reflexivity)
      end.
      rewrite (nth_map_in_range _ (seq 0 m) 0 []) by (rewrite length_seq; exact Hk).
      rewrite seq_nth by exact Hk. cbn [Nat.add].
      rewrite (nth_map_in_range _ (map pad_row p) [] [])
        by (rewrite length_map; exact Hb).
      rewrite (nth_map_in_range pad_row p [] []) by exact Hb. reflexivity. }
  rewrite Hframe. unfold pad_row. split.
  - intros Hlt. apply app_nth1. exact Hlt.
  - intros Hge. rewrite app_nth2 by exact Hge.
    assert (Hhdp : hd [] p = first) by (subst p; reflexivity).
    rewrite Hhdp. apply nth_repeat_lt. unfold Vec, Vec_ in *. lia.
Qed.

Lemma pad_packed_sequence_last_size (p : Packed) (bf : bool) (t : Tensor3)
  (lens : list Z) :
  pad_packed_sequence p bf = Ok (t, lens) ->
  1 <= length (hd [] p) ->
  size 2 t = length (hd [] (hd [] p)).
Proof.
  intros H Hfirst.
  assert (Hp : 0 < length p).
  { destruct p; [discriminate H | simpl; lia]. }
  assert (Hm : 0 < list_max (map (@length Vec) p)).
  { destruct p as [| first rest]; [discriminate H |].
    simpl in Hfirst.
    apply Nat.lt_le_trans with (length first); [lia |].
    apply list_max_ge_In. left. reflexivity. }
  destruct (@pad_packed_sequence_frame p bf t lens 0 0 H Hp Hm) as [Hvalid _].
  assert (Hnth : nth 0 p [] = hd [] p) by (destruct p; reflexivity).
  rewrite Hnth in Hvalid. specialize (Hvalid Hfirst).
  assert (Hsize : size 2 t = length (frame bf t 0 0)).
  { unfold size, frame. destruct bf; destruct t as [| x t']; try reflexivity;
      destruct x; reflexivity. }
  rewrite Hsize, Hvalid. destruct (hd [] p); [simpl in Hfirst; lia | reflexivity].
Qed.

(** Without the merge of the directions, every frame of the returned
    outputs and sub outputs that lies past the end of its sequence (at
    a time from the tracked length of the example on) is a frame of
    zeros, as wide as the other frames: what the layers computed for
    padded positions never reaches the caller. *)
Theorem outputs_padding_is_zero (self : encoder) (inputs : Tensor3) (lens : list Z)
  (volatile : bool) (r : forward_result) :
  forward self inputs lens volatile = Ok r ->
  bidirectional self && merge_bidirectional self = false ->
  exists tracked,
    tracked_seq_len self (fst (sort_descending lens)) = Ok tracked /\
    forall (b k : nat) (l : Z),
      nth_error tracked b = Some l ->
      Z.to_nat l <= k -> k < list_max (map Z.to_nat tracked) ->
      frame (batch_first self) (outputs r) b k = repeat fzero (size 2 (outputs r)) /\
      frame (batch_first self) (outputs_sub r) b k
      = repeat fzero (size 2 (outputs_sub r)).
Proof.
  intros Hfw Hmerge. apply forward_Ok_inv in Hfw.
  destruct Hfw as (packed & tracked & st & Hpack & _ & Hfin).
  apply pack_inputs_Ok_inv in Hpack. destruct Hpack as (_ & Htr & sorted & _ & Hpk).
  apply pack_padded_sequence_Ok_inv in Hpk. destruct Hpk as (Hne & Hpos & _).
  apply unpack_final_Ok_inv in Hfin.
  destruct Hfin as (t & sub & t_sub & h_n & h_n_sub & Hpad & _ & Hpad_sub & Hsum & _).
  unfold sum_bidirectional in Hsum. rewrite Hmerge in Hsum.
  assert (Eo : outputs r = t) by congruence.
  assert (Es : outputs_sub r = t_sub) by congruence.
  rewrite Eo, Es. clear Hsum Eo Es.
  exists tracked. split; [exact Htr |]. intros b k l Hb Hge Hlt.
  assert (Hone : forall (p : Packed) (u : Tensor3),
             pad_packed_sequence p (batch_first self) = Ok (u, tracked) ->
             frame (batch_first self) u b k = repeat fzero (size 2 u)).
  { intros p u Hu.
    apply pad_packed_sequence_lengths in Hu as Hl. symmetry in Hl.
    assert (Hlen_b : length (nth b p []) = Z.to_nat l).
    { rewrite <- Hl in Hb. unfold packed_lengths in Hb.
      rewrite nth_error_map in Hb.
      destruct (nth_error p b) as [row |] eqn:Hrow; [| discriminate].
      injection Hb as <-. rewrite (nth_error_nth _ _ _ Hrow). lia. }
    assert (Hbp : b < length p).
    { assert (Hb' : nth_error tracked b <> None) by congruence.
      apply nth_error_Some in Hb'. rewrite <- Hl in Hb'.
      unfold packed_lengths in Hb'. rewrite length_map in Hb'. exact Hb'. }
    assert (Hfirst : 1 <= length (hd [] p)).
    { destruct tracked as [| l0 tracked']; [contradiction |].
      destruct p as [| first rest]; [discriminate |].
      unfold packed_lengths in Hl. simpl in Hl. injection Hl as Hl0 _.
      apply Forall_inv in Hpos. simpl. lia. }
    rewrite (@pad_packed_sequence_last_size p (batch_first self) u tracked Hu Hfirst).
    apply (@pad_packed_sequence_frame p (batch_first self) u tracked b k Hu Hbp).
    - rewrite (@packed_lengths_max _ p tracked Hl). exact Hlt.
    - lia. }
  split; [apply (Hone _ _ Hpad) | apply (Hone _ _ Hpad_sub)].
Qed.

End Padding.

Section Returns.

Context {fw : Framework}.

(** ** When forward returns *)

Lemma packed_lengths_combine (T : nat) (lens : list Z) :
  Forall (fun l => (0 < l)%Z /\ Z.to_nat l <= T) lens ->
  forall rows : Tensor3,
  Forall (fun row => T <= length row) rows ->
  length lens = length rows ->
  packed_lengths (map (fun lr => firstn (Z.to_nat (fst lr)) (snd lr)) (combine lens rows))
  = lens.
Proof.
  unfold packed_lengths. induction lens as [| l lens IH]; intros Hl rows Hrows Hlen.
  - reflexivity.
  - destruct rows as [| row rows]; [discriminate |].
    apply Forall_cons_iff in Hl. destruct Hl as [[Hpos HT] Hl].
    apply Forall_cons_iff in Hrows. destruct Hrows as [Hrow Hrows].
    cbn [combine map fst snd]. f_equal.
    + rewrite length_firstn. lia.
    + apply IH; [exact Hl | exact Hrows |]. simpl in Hlen. lia.
Qed.

Lemma pack_padded_sequence_returns (T : nat) (input rows : Tensor3) (lens : list Z)
  (bf : bool) :
  rows = (if bf then input else transpose01 input) ->
  lens <> [] ->
  Forall (fun l => (0 < l)%Z /\ Z.to_nat l <= T) lens ->
  non_increasing lens = true ->
  length lens = length rows ->
  Forall (fun row => T <= length row) rows ->
  exists p, pack_padded_sequence input lens bf = Ok p /\ packed_lengths p = lens.
Proof.
  intros Hrows Hne Hl Hs Hlen Hall. unfold pack_padded_sequence. rewrite <- Hrows.
  destruct (last_item_nonempty Hne) as [last_len Hlast]. rewrite Hlast. cbn [bind].
  assert (Hpos : (0 < last_len)%Z).
  { apply (last_item_Ok 0%Z) in Hlast. destruct Hlast as [_ ->].
    rewrite Forall_forall in Hl.
    destruct (Hl (last lens 0%Z)) as [H _]; [| exact H].
    destruct lens as [| x lens']; [contradiction |].
    apply (@exists_last _ (x :: lens')) in Hne. destruct Hne as (l' & y & E).
    rewrite E, last_last. apply in_or_app. right. left. reflexivity. }
  replace (last_len <=? 0)%Z with false by (symmetry; apply Z.leb_gt; exact Hpos).
  cbv zeta. rewrite Hlen, Nat.eqb_refl, Hs. cbn [negb].
  rewrite (@frames_suffice _ T lens rows);
    [| eapply Forall_impl; [| exact Hl]; simpl; intros l Hl'; apply Hl' | exact Hall].
  eexists. split; [reflexivity |].
  apply (packed_lengths_combine Hl Hall Hlen).
Qed.

Lemma index_select_In {A : Type} (l sel : list A) (idx : list nat) :
  index_select l idx = Ok sel -> Forall (fun x => In x l) sel.
Proof.
  unfold index_select. revert sel. induction idx as [| i idx IH]; intros sel H; simpl in H.
  - injection H as <-. constructor.
  - bind_ok H x Hx. bind_ok H xs Hxs. injection H as <-.
    constructor; [| apply IH; exact Hxs].
    unfold item in Hx. destruct (nth_error l i) as [y |] eqn:Hy; [| discriminate].
    injection Hx as <-. apply (nth_error_In _ _ Hy).
Qed.

Lemma run_layers_plain (self : encoder) (lens : list Z) (h_0 : Hidden0) (p : Packed) :
  residual self || dense_residual self || (0 <? num_proj self)%Z = false ->
  Forall keeps_lengths (rnns self) ->
  forall n, n <= length (rnns self) ->
  exists st,
    run_layers self lens h_0 n p = Ok st /\
    packed_lengths (st_outputs st) = packed_lengths p /\
    (1 <= n -> exists h, st_h_n st = Some h /\ h <> []) /\
    ((1 <= num_layers_sub self <= Z.of_nat n)%Z ->
     exists sub h, st_outputs_sub st = Some sub /\
                   packed_lengths sub = packed_lengths p /\
                   st_h_n_sub st = Some h /\ h <> []).
Proof.
  intros Hplain Hkeep n. induction n as [| n IH]; intros Hn.
  - exists (initial_state p). split; [reflexivity |]. split; [reflexivity |].
    split; intros; lia.
  - destruct IH as (st & Hrun & Hlen & _ & Hsub); [lia |].
    rewrite run_layers_S, Hrun. cbn [bind]. unfold layer.
    destruct (nth_error (rnns self) n) as [rnn |] eqn:Hrnn;
      [| apply nth_error_None in Hrnn; lia].
    unfold item. rewrite Hrnn. cbn [bind].
    assert (Hk : keeps_lengths rnn).
    { rewrite Forall_forall in Hkeep. apply Hkeep. apply (nth_error_In _ _ Hrnn). }
    destruct (Hk (st_outputs st) h_0) as [Hl Hh].
    destruct (rnn (st_outputs st) h_0) as [o h]. simpl in Hl, Hh.
    rewrite unpadded_branch_skipped by exact Hplain. cbn [bind].
    destruct (Z.of_nat n =? num_layers_sub self - 1)%Z eqn:Htap.
    + eexists. split; [reflexivity |].
      cbn [st_outputs st_h_n st_outputs_sub st_h_n_sub].
      split; [rewrite Hl; exact Hlen |].
      split; [intros _; exists h; split; [reflexivity | exact Hh] |].
      intros _. exists o, h. repeat split; [rewrite Hl; exact Hlen | exact Hh].
    + eexists. split; [reflexivity |].
      cbn [st_outputs st_h_n st_outputs_sub st_h_n_sub].
      split; [rewrite Hl; exact Hlen |].
      split; [intros _; exists h; split; [reflexivity | exact Hh] |].
      intros Hrange. apply Z.eqb_neq in Htap. apply Hsub. lia.
Qed.

(** In the plain configuration (no front-end, no projection, no
    residual mode, no merge of the directions), with cells that keep
    the lengths, forward returns for every batch of at least one
    sequence whose rows have [T] frames or more and whose lengths lie
    within [1, T], in whatever order the caller hands the sequences
    over: the sort of lines 197-199 is what makes the packing accept
    the batch. *)
Theorem forward_returns_plain (self : encoder) (inputs : Tensor3) (lens : list Z)
  (volatile : bool) (T : nat) :
  conv self = None ->
  residual self || dense_residual self || (0 <? num_proj self)%Z = false ->
  bidirectional self && merge_bidirectional self = false ->
  (1 <= num_layers_sub self <= num_layers self)%Z ->
  Z.to_nat (num_layers self) <= length (rnns self) ->
  Forall keeps_lengths (rnns self) ->
  lens <> [] ->
  length inputs = length lens ->
  Forall (fun l => (0 < l)%Z /\ Z.to_nat l <= T) lens ->
  Forall (fun row => T <= length row) inputs ->
  exists r, forward self inputs lens volatile = Ok r.
Proof.
  intros Hconv Hplain Hmerge Hrange Hcells Hkeep Hne Hlen Hl Hrows.
  pose proof (sort_descending_perm lens) as HP.
  pose proof (sort_descending_values_perm lens) as HV.
  pose proof (sort_descending_sorted lens) as HS.
  unfold forward, pack_inputs.
  destruct (sort_descending lens) as [sorted perm] eqn:Hsort. simpl in HP, HV, HS.
  assert (Hrange_perm : Forall (fun i => i < length inputs) perm).
  { apply Forall_forall. intros i Hi. apply (Permutation_in _ HP) in Hi.
    apply in_seq in Hi. lia. }
  destruct (index_select inputs perm) as [sel | e] eqn:Hsel;
    [| rewrite (index_select_in_range [] inputs Hrange_perm) in Hsel; discriminate].
  cbn [bind]. rewrite Hconv. unfold tracked_seq_len. rewrite Hconv. cbn [bind].
  assert (Hsel_len : length sel = length lens).
  { rewrite (index_select_length _ _ Hsel), (Permutation_length HP), length_seq.
    reflexivity. }
  assert (Hsorted_len : length sorted = length lens) by (apply Permutation_length, HV).
  assert (Hsel_rows : Forall (fun row => T <= length row) sel).
  { apply index_select_In in Hsel. rewrite Forall_forall in Hsel, Hrows |- *.
    intros row Hin. apply Hrows, Hsel, Hin. }
  assert (Hsorted : Forall (fun l => (0 < l)%Z /\ Z.to_nat l <= T) sorted).
  { rewrite Forall_forall in Hl |- *. intros l Hin. apply Hl.
    apply (Permutation_in _ HV). exact Hin. }
  assert (Hsorted_ne : sorted <> []).
  { intros ->. destruct lens; [contradiction | discriminate]. }
  assert (HT : 1 <= T).
  { destruct sorted as [| l sorted']; [contradiction |].
    apply Forall_inv in Hsorted. lia. }
  destruct (@pack_padded_sequence_returns T
              (if batch_first self then sel else transpose01 sel)
              (if batch_first self then sel else transpose01 (transpose01 sel))
              sorted (batch_first self))
    as (packed & Hpack & Hpl); try assumption.
  { destruct (batch_first self); reflexivity. }
  { destruct (batch_first self); [congruence |].
    destruct (transpose01_twice_rows sel) as [Hrows2 _]; [| congruence].
    destruct sel as [| row sel']; [destruct lens; [contradiction | discriminate] |].
    apply Forall_inv in Hsel_rows. simpl. lia. }
  { destruct (batch_first self); [exact Hsel_rows |].
    destruct (transpose01_twice_rows sel) as [_ Hall].
    - destruct sel as [| row sel']; [destruct lens; [contradiction | discriminate] |].
      apply Forall_inv in Hsel_rows. simpl. lia.
    - eapply Forall_impl; [| exact Hall]. simpl. intros row ->.
      destruct sel as [| row0 sel']; [destruct lens; [contradiction | discriminate] |].
      apply Forall_inv in Hsel_rows. exact Hsel_rows. }
  match goal with
  | |- context [pack_padded_sequence ?i ?l ?bf] =>
      replace (pack_padded_sequence i l bf) with (@Ok Packed packed)
        by (symmetry; exact Hpack)
  end.
  cbn [bind].
  destruct (run_layers_plain self sorted (initial_hidden self inputs volatile) packed
              Hplain Hkeep (n := Z.to_nat (num_layers self)) Hcells)
    as (st & Hrun & Hlen_st & Hh & Hsub).
  rewrite Hrun. cbn [bind].
  destruct Hh as (h & Hh & Hh_ne); [lia |].
  destruct Hsub as (sub & h_sub & Hsub & Hlen_sub & Hh_sub & Hh_sub_ne); [lia |].
  unfold unpack_final. rewrite Hsub, Hh, Hh_sub. cbn [local].
  assert (Hst_ne : st_outputs st <> []).
  { intros E. rewrite E, Hpl in Hlen_st. destruct sorted; [contradiction | discriminate]. }
  assert (Hsub_ne : sub <> []).
  { intros E. rewrite E, Hpl in Hlen_sub. destruct sorted; [contradiction | discriminate]. }
  destruct (pad_packed_sequence_Ok (batch_first self) Hst_ne) as [t Ht].
  destruct (pad_packed_sequence_Ok (batch_first self) Hsub_ne) as [t_sub Ht_sub].
  rewrite Ht. cbn [bind local]. rewrite Ht_sub. cbn [bind]. rewrite Hlen_st, Hlen_sub, Hpl.
  replace (list_Z_eqb sorted sorted) with true
    by (symmetry; apply list_Z_eqb_eq; reflexivity).
  cbn [assert bind]. unfold sum_bidirectional. rewrite Hmerge. cbn [bind].
  unfold pick_final_state. destruct (num_directions self =? 2)%Z.
  - cbn [bind]. eexists. reflexivity.
  - destruct (last_item_nonempty Hh_ne) as [top ->].
    destruct (last_item_nonempty Hh_sub_ne) as [top_sub ->].
    cbn [bind]. eexists. reflexivity.
Qed.

End Returns.

Section Never.

Context {fw : Framework}.

(** ** What forward never raises *)

Lemma item_set {A : Type} (l : list A) (i : nat) (e : exn) :
  item l i = Raise e -> ~ unset_use e.
Proof.
  unfold item. destruct (nth_error l i); [discriminate |].
  intros H. injection H as <-. intros [E | E]; discriminate E.
Qed.

Lemma last_item_set {A : Type} (l : list A) (e : exn) :
  last_item l = Raise e -> ~ unset_use e.
Proof.
  unfold last_item. destruct (rev l); [| discriminate].
  intros H. injection H as <-. intros [E | E]; discriminate E.
Qed.

Lemma map_r_set {A B : Type} (f : A -> result B) (l : list A) (e : exn) :
  (forall x e', f x = Raise e' -> ~ unset_use e') ->
  map_r f l = Raise e -> ~ unset_use e.
Proof.
  intros Hf. induction l as [| x l IH]; simpl; [discriminate |].
  intros H. apply bind_Raise_inv in H. destruct H as [H | (y & _ & H)].
  - apply (Hf _ _ H).
  - apply bind_Raise_inv in H. destruct H as [H | (ys & _ & H)]; [| discriminate].
    apply IH. exact H.
Qed.

Lemma zip_with_r_set {A : Type} (f : A -> A -> result A) (xs ys : list A) (e : exn) :
  (forall x y e', f x y = Raise e' -> ~ unset_use e') ->
  zip_with_r f xs ys = Raise e -> ~ unset_use e.
Proof.
  intros Hf. revert ys. induction xs as [| x xs IH]; intros ys; simpl; [discriminate |].
  destruct ys as [| y ys]; [discriminate |].
  intros H. apply bind_Raise_inv in H. destruct H as [H | (z & _ & H)].
  - apply (Hf _ _ _ H).
  - apply bind_Raise_inv in H. destruct H as [H | (zs & _ & H)]; [| discriminate].
    apply (IH _ H).
Qed.

Lemma broadcast_set {A : Type} (f : A -> A -> result A) (xs ys : list A) (e : exn) :
  (forall x y e', f x y = Raise e' -> ~ unset_use e') ->
  broadcast f xs ys = Raise e -> ~ unset_use e.
Proof.
  intros Hf. unfold broadcast. destruct (length xs =? length ys).
  - apply zip_with_r_set. exact Hf.
  - assert (Hrun : Raise RuntimeError = @Raise (list A) e -> ~ unset_use e).
    { intros H. injection H as <-. intros [E | E]; discriminate E. }
    destruct xs as [| x [| x' xs]]; destruct ys as [| y [| y' ys]];
      try exact Hrun;
      try (apply map_r_set; intros z e' Hz; apply (Hf _ _ _ Hz)).
Qed.

Lemma tensor_add_set (t u : Tensor3) (e : exn) :
  tensor_add t u = Raise e -> ~ unset_use e.
Proof.
  unfold tensor_add. apply broadcast_set. intros m n e'.
  unfold mat_add. apply broadcast_set. intros v w e''.
  unfold vec_add. apply broadcast_set. intros a b e3. discriminate.
Qed.

Lemma for_each_set {S I : Type} (body : S -> I -> result S) (l : list I) (s : S)
  (e : exn) :
  (forall s' i e', body s' i = Raise e' -> ~ unset_use e') ->
  for_each body l s = Raise e -> ~ unset_use e.
Proof.
  intros Hb. revert s. induction l as [| i l IH]; intros s; simpl; [discriminate |].
  intros H. apply bind_Raise_inv in H. destruct H as [H | (s' & _ & H)].
  - apply (Hb _ _ _ H).
  - apply (IH _ H).
Qed.

Lemma pack_padded_sequence_set (input : Tensor3) (lens : list Z) (bf : bool) (e : exn) :
  pack_padded_sequence input lens bf = Raise e -> ~ unset_use e.
Proof.
  unfold pack_padded_sequence. intros H.
  apply bind_Raise_inv in H. destruct H as [H | (x & _ & H)];
    [apply (last_item_set _ H) |].
  assert (Hval : Raise RuntimeError = @Raise Packed e -> ~ unset_use e).
  { intros E. injection E as <-. intros [E | E]; discriminate E. }
  destruct (x <=? 0)%Z; [apply (Hval H) |].
  cbv zeta in H.
  match type of H with
  | (if negb ?c then _ else _) = _ => destruct c; cbn [negb] in H; [| apply (Hval H)]
  end.
  destruct (non_increasing lens); cbn [negb] in H; [| apply (Hval H)].
  match type of H with
  | (if ?c then _ else _) = _ => destruct c; [apply (Hval H) | discriminate]
  end.
Qed.

Lemma pad_packed_sequence_set (p : Packed) (bf : bool) (e : exn) :
  pad_packed_sequence p bf = Raise e -> ~ unset_use e.
Proof.
  unfold pad_packed_sequence. destruct p; [| discriminate].
  intros H. injection H as <-. intros [E | E]; discriminate E.
Qed.

Lemma assert_set (line : nat) (c : bool) (e : exn) :
  assert line c = Raise e -> ~ unset_use e.
Proof.
  unfold assert. destruct c; [discriminate |].
  intros H. injection H as <-. intros [E | E]; discriminate E.
Qed.

Lemma unpadded_branch_set (self : encoder) (lens : list Z) (i : nat) (p : Packed)
  (res : list Tensor3) (e : exn) :
  unpadded_branch self lens i p res = Raise e -> ~ unset_use e.
Proof.
  unfold unpadded_branch.
  destruct (residual self || dense_residual self || (0 <? num_proj self)%Z);
    [| discriminate].
  intros H. apply bind_Raise_inv in H. destruct H as [H | ([u ul] & _ & H)].
  { unfold unpack_outputs in H. apply bind_Raise_inv in H.
    destruct H as [H | ([u ul] & _ & H)]; [apply (pad_packed_sequence_set _ _ H) |].
    apply bind_Raise_inv in H. destruct H as [H | (x & _ & H)]; [| discriminate].
    apply (assert_set _ _ H). }
  apply bind_Raise_inv in H. destruct H as [H | (pr & _ & H)].
  { unfold projection_layer in H.
    destruct ((0 <? num_proj self)%Z && negb (Z.of_nat i =? num_layers self - 1)%Z);
      [| discriminate].
    apply bind_Raise_inv in H. destruct H as [H | (x & _ & H)]; [| discriminate].
    apply (item_set _ _ H). }
  apply bind_Raise_inv in H. destruct H as [H | ([sm rt] & _ & H)].
  { unfold residual_connection in H.
    destruct (residual self || dense_residual self); [| discriminate].
    apply bind_Raise_inv in H. destruct H as [H | (x & _ & H)].
    - apply (for_each_set _ _ _ tensor_add_set H).
    - destruct (residual self); [discriminate |].
      destruct (dense_residual self); discriminate. }
  apply bind_Raise_inv in H. destruct H as [H | (x & _ & H)]; [| discriminate].
  apply (pack_padded_sequence_set _ _ _ H).
Qed.

Lemma layer_set (self : encoder) (lens : list Z) (h_0 : Hidden0) (st : loop_state)
  (i : nat) (e : exn) :
  layer self lens h_0 st i = Raise e -> ~ unset_use e.
Proof.
  unfold layer. intros H. apply bind_Raise_inv in H.
  destruct H as [H | (rnn & _ & H)]; [apply (item_set _ _ H) |].
  destruct (rnn (st_outputs st) h_0) as [o h].
  apply bind_Raise_inv in H. destruct H as [H | ([o' res] & _ & H)].
  - apply (unpadded_branch_set _ _ _ _ _ H).
  - destruct (Z.of_nat i =? num_layers_sub self - 1)%Z; discriminate.
Qed.

Lemma loop_variables_assigned (self : encoder) (lens : list Z) (h_0 : Hidden0)
  (p : Packed) (n : nat) (st : loop_state) :
  run_layers self lens h_0 n p = Ok st ->
  (1 <= num_layers_sub self <= Z.of_nat n)%Z ->
  exists sub h h_sub,
    st_outputs_sub st = Some sub /\ st_h_n st = Some h /\ st_h_n_sub st = Some h_sub.
Proof.
  revert st. induction n as [| n IH]; intros st Hrun Hrange; [lia |].
  rewrite run_layers_S in Hrun. bind_ok Hrun st_n Hn.
  apply layer_Ok_inv in Hrun. destruct Hrun as (rnn & _ & _ & Hh & Hat & Hnot).
  destruct (Z.eq_dec (Z.of_nat n) (num_layers_sub self - 1)) as [Heq | Hne].
  - destruct (Hat Heq) as [Hs Hhs]. rewrite Hh in Hhs.
    eexists _, _, _. repeat split; eassumption.
  - destruct (Hnot Hne) as [Hs Hhs].
    destruct (IH st_n Hn) as (sub & h & h_sub & Hs' & _ & Hhs'); [lia |].
    rewrite Hs' in Hs. rewrite Hhs' in Hhs.
    eexists _, _, _. repeat split; eassumption.
Qed.

Lemma sum_directions_set (self : encoder) (t : Tensor3) (e : exn) :
  sum_directions self t = Raise e -> ~ unset_use e.
Proof. unfold sum_directions. apply tensor_add_set. Qed.

(** An encoder that the constructor returned never uses outputs_sub,
    h_n or h_n_sub before a layer assigned them, nor conv_out_size
    without having set it: whatever the batch, forward raises neither
    an UnboundLocalError nor an AttributeError.  (The check of the
    sub-layer index at line 77 is what rules the first out.) *)
Theorem forward_never_uses_unset (a : Args.t) (self : encoder) (inputs : Tensor3)
  (lens : list Z) (volatile : bool) (e : exn) :
  __init__ a = Ok self ->
  forward self inputs lens volatile = Raise e ->
  e <> UnboundLocalError /\ e <> AttributeError.
Proof.
  intros Hinit Hfw.
  assert (Hgoal : ~ unset_use e -> e <> UnboundLocalError /\ e <> AttributeError).
  { intros Hn. split; intros E; apply Hn; [left | right]; exact E. }
  apply Hgoal. clear Hgoal.
  pose proof (init_Ok_inv _ Hinit) as (Hrange & _).
  pose proof (proj1 (init_front_end a) _ Hinit) as Hconv.
  unfold forward in Hfw. apply bind_Raise_inv in Hfw.
  destruct Hfw as [H | ([[packed tracked] perm] & _ & H)].
  - unfold pack_inputs in H. destruct (sort_descending lens) as [sorted perm].
    apply bind_Raise_inv in H. destruct H as [H | (sel & _ & H)].
    { unfold index_select in H. apply (map_r_set _ _ (@item_set _ inputs) H). }
    apply bind_Raise_inv in H. destruct H as [H | (tracked & _ & H)].
    { unfold tracked_seq_len in H. destruct (wants_conv a).
      - destruct Hconv as (_ & _ & c & Hc & Hout). rewrite Hc, Hout in H. discriminate.
      - destruct Hconv as [Hc _]. rewrite Hc in H. discriminate. }
    apply bind_Raise_inv in H. destruct H as [H | (packed & _ & H)]; [| discriminate].
    apply (pack_padded_sequence_set _ _ _ H).
  - apply bind_Raise_inv in H. destruct H as [H | (st & Hrun & H)].
    { unfold run_layers in H. apply (for_each_set _ _ _ (layer_set self tracked _) H). }
    destruct (loop_variables_assigned _ _ _ _ _ Hrun)
      as (sub & h & h_sub & Hs & Hh & Hhs); [lia |].
    unfold unpack_final in H. rewrite Hs, Hh, Hhs in H. cbn [local] in H.
    apply bind_Raise_inv in H. destruct H as [H | ([t ul] & _ & H)];
      [apply (pad_packed_sequence_set _ _ H) |].
    cbn [bind] in H.
    apply bind_Raise_inv in H. destruct H as [H | ([t_sub ul_sub] & _ & H)];
      [apply (pad_packed_sequence_set _ _ H) |].
    apply bind_Raise_inv in H. destruct H as [H | (u1 & _ & H)];
      [apply (assert_set _ _ H) |].
    apply bind_Raise_inv in H. destruct H as [H | (u2 & _ & H)];
      [apply (assert_set _ _ H) |].
    apply bind_Raise_inv in H. destruct H as [H | ([o o_sub] & _ & H)].
    { unfold sum_bidirectional in H.
      destruct (bidirectional self && merge_bidirectional self); [| discriminate].
      apply bind_Raise_inv in H. destruct H as [H | (m & _ & H)];
        [apply (sum_directions_set _ _ H) |].
      apply bind_Raise_inv in H. destruct H as [H | (m_sub & _ & H)]; [| discriminate].
      apply (sum_directions_set _ _ H). }
    cbn [bind] in H.
    assert (Hpick : forall x e', pick_final_state self x = Raise e' -> ~ unset_use e').
    { intros x e' Hx. unfold pick_final_state in Hx.
      destruct (num_directions self =? 2)%Z; [discriminate |].
      apply bind_Raise_inv in Hx. destruct Hx as [Hx | (top & _ & Hx)]; [| discriminate].
      apply (last_item_set _ Hx). }
    apply bind_Raise_inv in H. destruct H as [H | (fs & _ & H)]; [apply (Hpick _ _ H) |].
    apply bind_Raise_inv in H. destruct H as [H | (fs_sub & _ & H)]; [| discriminate].
    apply (Hpick _ _ H).
Qed.

End Never.

Section Rows.

Context {fw : Framework}.

(** ** Transposing and packing again *)

Lemma map_nth_seq {A B : Type} (h : A -> B) (d : A) (l : list A) :
  map (fun i => h (nth i l d)) (seq 0 (length l)) = map h l.
Proof.
  transitivity (map h (map (fun i => nth i l d) (seq 0 (length l)))).
  - rewrite map_map. reflexivity.
  - rewrite map_nth_seq_id. reflexivity.
Qed.

Lemma transpose01_apply_last (g : Vec -> Vec) (n : nat) (rows : Tensor3) :
  rows <> [] -> 1 <= n -> rectangular n rows ->
  transpose01 (apply_last g (transpose01 rows)) = map (map g) rows.
Proof.
  unfold rectangular, transpose01, apply_last, Tensor3, Tensor3_, Vec, Vec_ in *.
  intros Hne Hn Hrect.
  assert (Hhd : length (hd [] rows) = n).
  { destruct rows as [| row rows']; [contradiction |]. apply (Forall_inv Hrect). }
  rewrite Hhd, map_map.
  match goal with
  | |- map _ (seq 0 ?k) = _ => assert (Hfirst : k = length rows)
  end.
  { destruct n as [| n']; [lia |]. cbn [seq map hd]. rewrite !length_map. reflexivity. }
  rewrite Hfirst. rewrite <- (map_nth_seq (map g) [] rows).
  apply map_ext_in. intros b Hb. apply in_seq in Hb. cbv beta.
  rewrite map_map.
  assert (Hrow : length (nth b rows []) = n).
  { rewrite Forall_forall in Hrect. apply Hrect. apply nth_In. lia. }
  rewrite <- (map_nth_seq g [] (nth b rows [])), Hrow.
  apply map_ext_in. intros j Hj. cbv beta.
  rewrite map_map.
  rewrite (nth_map_in_range (fun row => g (nth j row [])) rows [] []) by lia.
  reflexivity.
Qed.

Lemma transpose01_twice (n : nat) (rows : Tensor3) :
  rows <> [] -> 1 <= n -> rectangular n rows ->
  transpose01 (transpose01 rows) = rows.
Proof.
  intros Hne Hn Hrect.
  pose proof (transpose01_apply_last (fun v => v) Hne Hn Hrect) as H.
  unfold apply_last in H.
  assert (Hid : forall t : Tensor3, map (map (fun v : Vec => v)) t = t).
  { clear. induction t as [| row t IH]; [reflexivity |].
    cbn [map]. rewrite map_id, IH. reflexivity. }
  rewrite !Hid in H. exact H.
Qed.

Lemma padded_rows_rectangular (p : Packed) (padding : Vec) :
  rectangular (list_max (map (@length Vec) p))
    (map (fun row => row ++ repeat padding (list_max (map (@length Vec) p) - length row)) p).
Proof.
  unfold rectangular. apply Forall_map. apply Forall_forall. intros row Hin.
  rewrite length_app, repeat_length.
  assert (length row <= list_max (map (@length Vec) p)).
  { apply list_max_ge_In. apply in_map. exact Hin. }
  unfold Vec, Vec_ in *. lia.
Qed.

Lemma cut_mapped_padding (g : Vec -> Vec) (ext : list Vec -> list Vec) (p : Packed) :
  map (fun lr => firstn (Z.to_nat (fst lr)) (snd lr))
      (combine (map (fun row => Z.of_nat (length row)) p)
               (map (map g) (map (fun row => row ++ ext row) p)))
  = map (map g) p.
Proof.
  induction p as [| row p IH]; [reflexivity |].
  cbn [map combine fst snd]. f_equal; [| exact IH].
  rewrite Nat2Z.id. rewrite map_app, firstn_app, length_map.
  rewrite Nat.sub_diag. cbn [firstn]. rewrite app_nil_r.
  apply firstn_all2. pose proof (length_map g row) as E.
  unfold Vec, Vec_ in *. lia.
Qed.

Lemma mapped_padding_fits (g : Vec -> Vec) (ext : list Vec -> list Vec) (p : Packed) :
  existsb (fun lr => length (snd lr) <? Z.to_nat (fst lr))
          (combine (map (fun row => Z.of_nat (length row)) p)
                   (map (map g) (map (fun row => row ++ ext row) p)))
  = false.
Proof.
  induction p as [| row p IH]; [reflexivity |].
  cbn [map combine existsb fst snd]. rewrite IH, orb_false_r.
  apply Nat.ltb_ge. rewrite Nat2Z.id, length_map, length_app.
  unfold Vec, Vec_ in *. lia.
Qed.

Lemma pad_packed_sequence_rows (p : Packed) (bf : bool) (t : Tensor3) (lens : list Z) :
  pad_packed_sequence p bf = Ok (t, lens) ->
  p <> [] /\
  t = (if bf then
         map (fun row => row ++ repeat (repeat fzero (length (hd [] (hd [] p))))
                                  (list_max (map (@length Vec) p) - length row)) p
       else
         transpose01
           (map (fun row => row ++ repeat (repeat fzero (length (hd [] (hd [] p))))
                                    (list_max (map (@length Vec) p) - length row)) p)).
Proof.
  unfold pad_packed_sequence. destruct p as [| first rest]; [discriminate |].
  intros H. injection H as <- _. split; [discriminate | reflexivity].
Qed.

(** Unpadding, a map over the frames, and packing again is that map
    over the frames of the packed batch: what the map makes of the
    padding is cut off. *)
Lemma repack_apply_last (g : Vec -> Vec) (p : Packed) (bf : bool) (t : Tensor3)
  (lens : list Z) :
  pad_packed_sequence p bf = Ok (t, lens) ->
  Forall (fun l => (0 < l)%Z) lens -> non_increasing lens = true ->
  pack_padded_sequence (apply_last g t) lens bf = Ok (map (map g) p).
Proof.
  intros Hpad Hpos Hs.
  apply pad_packed_sequence_lengths in Hpad as Hl.
  apply pad_packed_sequence_rows in Hpad. destruct Hpad as [Hp_ne Ht].
  set (m := list_max (map (@length Vec) p)) in *.
  set (padding := repeat fzero (length (hd [] (hd [] p)))) in *.
  set (pad_row := fun row : list Vec => row ++ repeat padding (m - length row)) in *.
  assert (Hm : 1 <= m).
  { rewrite Hl in Hpos. unfold packed_lengths in Hpos.
    destruct p as [| first rest]; [contradiction |].
    apply Forall_inv in Hpos.
    apply Nat.le_trans with (length first); [lia |].
    unfold m. apply list_max_ge_In. left. reflexivity. }
  assert (Hrows : (if bf then apply_last g t else transpose01 (apply_last g t))
                  = map (map g) (map pad_row p)).
  { rewrite Ht. destruct bf; [reflexivity |].
    apply (transpose01_apply_last g (n := m)).
    - intros E. apply map_eq_nil in E. contradiction.
    - exact Hm.
    - apply padded_rows_rectangular. }
  assert (Hlens_ne : lens <> []).
  { rewrite Hl. unfold packed_lengths. intros E. apply map_eq_nil in E. contradiction. }
  destruct (last_item_nonempty Hlens_ne) as [last_len Hlast].
  assert (Hlast_pos : (0 < last_len)%Z).
  { pose proof Hlast as Hlast'.
    apply (last_item_Ok 0%Z) in Hlast'. destruct Hlast' as [_ E].
    rewrite Forall_forall in Hpos. apply Hpos. rewrite E.
    destruct (exists_last Hlens_ne) as (l' & y & E').
    rewrite E', last_last. apply in_or_app. right. left. reflexivity. }
  rewrite (@pack_padded_sequence_accepts _ (apply_last g t) (map (map g) (map pad_row p))
             lens bf last_len).
  - f_equal. rewrite Hl. unfold packed_lengths.
    apply (cut_mapped_padding g (fun row => repeat padding (m - length row))).
  - symmetry. exact Hrows.
  - exact Hlast.
  - exact Hlast_pos.
  - rewrite Hl. unfold packed_lengths. rewrite !length_map. reflexivity.
  - exact Hs.
  - rewrite Hl. unfold packed_lengths.
    apply (mapped_padding_fits g (fun row => repeat padding (m - length row))).
Qed.

End Rows.

Section Alone.

Context {fw : Framework}.

(** ** An example on its own *)

Lemma index_select_nth {A : Type} (l sel : list A) (idx : list nat) :
  index_select l idx = Ok sel ->
  forall i j, nth_error idx i = Some j ->
  nth_error sel i = nth_error l j /\ j < length l.
Proof.
  unfold index_select. revert sel. induction idx as [| x idx IH]; intros sel H i j Hij.
  - destruct i; discriminate.
  - simpl in H. bind_ok H y Hy. bind_ok H ys Hys. injection H as <-.
    destruct i as [| i].
    + injection Hij as ->. unfold item in Hy.
      destruct (nth_error l j) as [z |] eqn:E; [| discriminate].
      injection Hy as ->. split; [reflexivity | apply nth_error_Some; congruence].
    + simpl in Hij |- *. apply (IH ys Hys i j Hij).
Qed.

Lemma nth_cut_rows (lens : list Z) (rows : Tensor3) (i : nat) (l : Z) :
  nth_error lens i = Some l -> i < length rows ->
  nth i (map (fun lr => firstn (Z.to_nat (fst lr)) (snd lr)) (combine lens rows)) []
  = firstn (Z.to_nat l) (nth i rows []).
Proof.
  revert rows i. induction lens as [| x lens IH]; intros rows i Hl Hi.
  - destruct i; discriminate.
  - destruct rows as [| row rows]; [simpl in Hi; lia |].
    destruct i as [| i].
    + injection Hl as ->. reflexivity.
    + cbn [combine map nth]. apply IH; [exact Hl | simpl in Hi; lia].
Qed.

Lemma apply_last_id (t : Tensor3) : apply_last (fun v => v) t = t.
Proof.
  unfold apply_last. induction t as [| row t IH]; [reflexivity |].
  cbn [map]. rewrite map_id, IH. reflexivity.
Qed.

Lemma projection_layer_map (self : encoder) (i_layer : nat) (t projected : Tensor3) :
  projection_layer self i_layer t = Ok projected ->
  exists g : Vec -> Vec,
    projected = apply_last g t /\
    forall t', projection_layer self i_layer t' = Ok (apply_last g t').
Proof.
  unfold projection_layer. intros H.
  destruct ((0 <? num_proj self)%Z && negb (Z.of_nat i_layer =? num_layers self - 1)%Z).
  - bind_ok H proj Hproj. injection H as <-. exists proj. split; [reflexivity |].
    intros t'. rewrite Hproj. reflexivity.
  - injection H as <-. exists (fun v => v).
    split; [symmetry; apply apply_last_id | intros t'; rewrite apply_last_id; reflexivity].
Qed.

Lemma pick_final_state_Ok (self : encoder) (h : Tensor3) :
  h <> [] -> exists f, pick_final_state self h = Ok f.
Proof.
  intros Hne. unfold pick_final_state.
  destruct (num_directions self =? 2)%Z; [eexists; reflexivity |].
  destruct (last_item_nonempty Hne) as [top Htop]. rewrite Htop. eexists. reflexivity.
Qed.

Lemma packed_lengths_nth (p : Packed) (lens : list Z) (i : nat) (l : Z) :
  packed_lengths p = lens -> nth_error lens i = Some l ->
  i < length p /\ Z.of_nat (length (nth i p [])) = l.
Proof.
  intros <- Hl. unfold packed_lengths in Hl. rewrite nth_error_map in Hl.
  destruct (nth_error p i) as [row |] eqn:E; [| discriminate].
  simpl in Hl. injection Hl as <-.
  split; [apply nth_error_Some; congruence |].
  rewrite (nth_error_nth _ _ _ E). reflexivity.
Qed.

Lemma unpadded_branch_alone (self : encoder) (tracked : list Z) (n : nat) (o o' : Packed)
  (res' : list Tensor3) (i : nat) (l : Z) :
  residual self || dense_residual self = false ->
  unpadded_branch self tracked n o [] = Ok (o', res') ->
  i < length o -> nth_error tracked i = Some l ->
  length o' = length o /\ res' = [] /\
  unpadded_branch self [l] n [nth i o []] [] = Ok ([nth i o' []], []).
Proof.
  intros Hres H Hi Hl.
  apply unpadded_branch_Ok_inv in H.
  destruct H as [(Hc & -> & ->)
                | (Hc & unpadded & projected & summed & Hun & Hproj & Hsum & Hpack)].
  - split; [reflexivity | split; [reflexivity |]].
    unfold unpadded_branch. rewrite Hc. reflexivity.
  - apply unpack_outputs_Ok in Hun. destruct Hun as (Hpad & _ & Hlens).
    apply projection_layer_map in Hproj. destruct Hproj as (g & -> & Hg).
    apply residual_connection_Ok_inv in Hsum. destruct Hsum as (_ & _ & Hplain & _).
    destruct (Hplain Hres) as [-> ->].
    pose proof (pack_padded_sequence_Ok_inv _ _ _ Hpack) as (_ & Hpos & Hs & _ & _).
    rewrite (@repack_apply_last _ g _ _ _ _ Hpad Hpos Hs) in Hpack. injection Hpack as <-.
    split; [rewrite length_map; reflexivity | split; [reflexivity |]].
    destruct (@packed_lengths_nth _ _ _ _ Hlens Hl) as [_ Hrow].
    assert (Hl_pos : (0 < l)%Z).
    { rewrite Forall_forall in Hpos. apply Hpos. apply (nth_error_In _ _ Hl). }
    destruct (@pad_packed_sequence_Ok _ [nth i o []] (batch_first self)) as [t1 Hpad1];
      [discriminate |].
    change (packed_lengths [nth i o []]) with [Z.of_nat (length (nth i o []))] in Hpad1.
    rewrite Hrow in Hpad1.
    unfold unpadded_branch. rewrite Hc. unfold unpack_outputs. rewrite Hpad1. cbn [bind].
    assert (Heq : list_Z_eqb [l] [l] = true) by (apply list_Z_eqb_eq; reflexivity).
    rewrite Heq. cbn [assert bind]. rewrite Hg. cbn [bind].
    unfold residual_connection. rewrite Hres. cbn [bind].
    rewrite (@repack_apply_last _ g _ _ _ _ Hpad1);
      [| constructor; [exact Hl_pos | constructor] | reflexivity].
    cbn [bind map].
    rewrite (nth_map_in_range (map g) o [] []) by exact Hi. reflexivity.
Qed.

Lemma layer_alone (self : encoder) (tracked : list Z) (h_0 h_0' : Hidden0)
  (st st' st1 : loop_state) (n i : nat) (l : Z) :
  residual self || dense_residual self = false ->
  Forall row_wise (rnns self) ->
  nth_error tracked i = Some l ->
  follows i st st1 ->
  layer self tracked h_0 st n = Ok st' ->
  exists st1', layer self [l] h_0' st1 n = Ok st1' /\ follows i st' st1'.
Proof.
  intros Hres Hrw Hl (Hi & Ho1 & Hr & Hr1 & Hh & Hhs & Hsub) H.
  apply layer_Ok_inv in H.
  destruct H as (rnn & Hitem & Hbranch & Hh' & Hsub_at & Hsub_other).
  assert (Hrnn : row_wise rnn).
  { unfold item in Hitem. destruct (nth_error (rnns self) n) as [c |] eqn:E; [| discriminate].
    injection Hitem as <-. rewrite Forall_forall in Hrw. apply Hrw.
    apply (nth_error_In _ _ E). }
  destruct (Hrnn (st_outputs st) h_0 h_0') as (Hlen & _ & Hrows).
  destruct (Hrnn [nth i (st_outputs st) []] h_0' h_0') as (Hlen1 & Hne1 & _).
  specialize (Hrows i Hi).
  rewrite Hr in Hbranch.
  assert (Hi' : i < length (fst (rnn (st_outputs st) h_0))) by (rewrite Hlen; exact Hi).
  destruct (@unpadded_branch_alone self tracked n _ _ _ i l Hres Hbranch Hi' Hl)
    as (Hlen' & Hres' & Hbranch1).
  rewrite Hrows in Hbranch1.
  unfold layer. rewrite Hitem. cbn [bind]. rewrite Ho1, Hr1.
  destruct (rnn [nth i (st_outputs st) []] h_0') as [o1 h1] eqn:Hcell.
  cbn [fst snd] in Hlen1, Hne1, Hbranch1.
  assert (Hsingle : [hd [] o1] = o1).
  { destruct o1 as [| x [| y rest]]; simpl in Hlen1; try discriminate. reflexivity. }
  rewrite Hsingle in Hbranch1. rewrite Hbranch1. cbn [bind].
  assert (Hi'' : i < length (st_outputs st')) by (rewrite Hlen'; exact Hi').
  destruct (Z.of_nat n =? num_layers_sub self - 1)%Z eqn:Hat.
  - apply Z.eqb_eq in Hat. destruct (Hsub_at Hat) as [Hs1 Hs2].
    eexists. split; [reflexivity |]. unfold follows.
    cbn [st_outputs st_res_outputs_list st_h_n st_outputs_sub st_h_n_sub].
    repeat split; try assumption; try reflexivity.
    + intros _. exists h1. split; [reflexivity | exact Hne1].
    + intros _. exists h1. split; [reflexivity | exact Hne1].
    + rewrite Hs1 in H. injection H as <-. exact Hi''.
    + rewrite Hs1 in H. injection H as <-. reflexivity.
  - apply Z.eqb_neq in Hat. destruct (Hsub_other Hat) as [Hs1 Hs2].
    eexists. split; [reflexivity |]. unfold follows.
    cbn [st_outputs st_res_outputs_list st_h_n st_outputs_sub st_h_n_sub].
    repeat split; try assumption; try reflexivity.
    + intros _. exists h1. split; [reflexivity | exact Hne1].
    + rewrite Hs2. exact Hhs.
    + rewrite Hs1 in H. apply (Hsub _ H).
    + rewrite Hs1 in H. apply (Hsub _ H).
Qed.

Lemma run_layers_alone (self : encoder) (tracked : list Z) (h_0 h_0' : Hidden0)
  (packed : Packed) (i : nat) (l : Z) :
  residual self || dense_residual self = false ->
  Forall row_wise (rnns self) ->
  nth_error tracked i = Some l ->
  i < length packed ->
  forall n st,
    run_layers self tracked h_0 n packed = Ok st ->
    exists st1,
      run_layers self [l] h_0' n [nth i packed []] = Ok st1 /\ follows i st st1.
Proof.
  intros Hres Hrw Hl Hi. induction n as [| n IH]; intros st H.
  - injection H as <-. eexists. split; [reflexivity |].
    unfold follows, initial_state.
    cbn [st_outputs st_res_outputs_list st_h_n st_outputs_sub st_h_n_sub].
    repeat split; try assumption; try reflexivity; try discriminate;
      intros Hc; exfalso; apply Hc; reflexivity.
  - rewrite run_layers_S in H |- *. bind_ok H st_n Hn.
    destruct (IH _ Hn) as (st1_n & Hrun1 & Hfollows).
    rewrite Hrun1. cbn [bind].
    apply (@layer_alone self tracked h_0 h_0' st_n st st1_n n i l Hres Hrw Hl Hfollows H).
Qed.

End Alone.

(* ================================================================== *)
(** * The encoder at work *)

(** ** Construction *)

Lemma init_checks_sub_layer_index_witness :
  __init__ no_sub_layer_args = Raise (ValueError sub_layer_message) /\
  check_num_layers_sub (plain_args true) = Ok tt /\
  exists self, __init__ (plain_args true) = Ok self.
Proof.
  split; [| split].
  - apply (proj1 (init_checks_sub_layer_index no_sub_layer_args)). left. simpl. lia.
  - apply (proj2 (init_checks_sub_layer_index (plain_args true))). simpl. lia.
  - apply (proj2 (init_checks_sub_layer_index (plain_args true)));
      [simpl; lia | reflexivity | reflexivity | reflexivity].
Defined.

Lemma init_residual_modes_exclusive_witness :
  __init__ both_modes_args = Raise (AssertionError 91) /\
  check_residual_modes dense_args = Ok tt.
Proof.
  split.
  - destruct (proj1 (init_residual_modes_exclusive both_modes_args) eq_refl eq_refl)
      as [H | [_ H]]; [discriminate H | exact H].
  - apply (proj2 (init_residual_modes_exclusive dense_args)). reflexivity.
Defined.

(** ** The layers *)



Lemma unpadded_lengths_match_tracked_witness :
  forward (built dense_args) toy_inputs toy_seq_len true
  = Ok (returned (forward (built dense_args) toy_inputs toy_seq_len true)) /\
  exists st,
    tracked_seq_len (built dense_args) (fst (sort_descending toy_seq_len)) = Ok [3; 2; 2]%Z /\
    packed_lengths (st_outputs st) = [3; 2; 2]%Z.
Proof.
  assert (H : forward (built dense_args) toy_inputs toy_seq_len true
              = Ok (returned (forward (built dense_args) toy_inputs toy_seq_len true)))
    by (vm_compute; reflexivity).
  split; [exact H |].
  destruct (proj1 (unpadded_lengths_match_tracked (built dense_args) toy_inputs
                     toy_seq_len true) _ H)
    as (packed & tracked & st & _ & Htr & _ & _ & Hfin & _).
  exists st.
  assert (Heq : tracked = [3; 2; 2]%Z).
  { vm_compute in Htr. injection Htr as <-. reflexivity. }
  rewrite <- Heq. split; assumption.
Defined.

Lemma sub_results_coincide_at_last_layer_witness :
  num_layers_sub (built dense_args) = num_layers (built dense_args) /\
  forward (built dense_args) toy_inputs toy_seq_len true
  = Ok (returned (forward (built dense_args) toy_inputs toy_seq_len true)) /\
  outputs_sub (returned (forward (built dense_args) toy_inputs toy_seq_len true))
  = outputs (returned (forward (built dense_args) toy_inputs toy_seq_len true)) /\
  final_state_fw_sub (returned (forward (built dense_args) toy_inputs toy_seq_len true))
  = final_state_fw (returned (forward (built dense_args) toy_inputs toy_seq_len true)).
Proof.
  assert (H1 : num_layers_sub (built dense_args) = num_layers (built dense_args))
    by reflexivity.
  assert (H2 : forward (built dense_args) toy_inputs toy_seq_len true
               = Ok (returned (forward (built dense_args) toy_inputs toy_seq_len true)))
    by (vm_compute; reflexivity).
  split; [exact H1 | split; [exact H2 |]].
  exact (sub_results_coincide_at_last_layer _ _ _ _ H1 H2).
Defined.

Lemma final_state_extraction_witness :
  __init__ projected_args = Ok (built projected_args) /\
  forward (built projected_args) toy_inputs toy_seq_len true
  = Ok (returned (forward (built projected_args) toy_inputs toy_seq_len true)) /\
  exists h_n h_n_sub,
    final_state_fw (returned (forward (built projected_args) toy_inputs toy_seq_len true))
    = slice (-2) (-1) h_n /\
    final_state_fw_sub (returned (forward (built projected_args) toy_inputs toy_seq_len true))
    = slice (-2) (-1) h_n_sub.
Proof.
  assert (H1 : __init__ projected_args = Ok (built projected_args)) by reflexivity.
  assert (H2 : forward (built projected_args) toy_inputs toy_seq_len true
               = Ok (returned (forward (built projected_args) toy_inputs toy_seq_len true)))
    by (vm_compute; reflexivity).
  split; [exact H1 | split; [exact H2 |]].
  destruct (final_state_extraction _ _ _ _ H1 H2)
    as (packed & tracked & h_n & h_n_sub & _ & _ & _ & Hbi & _).
  exists h_n, h_n_sub. apply Hbi. reflexivity.
Defined.

Lemma scenario_lengths_5_3_4_witness :
  forward (built (plain_args false)) toy_inputs [5; 3; 4]%Z true
  = Ok (returned (forward (built (plain_args false)) toy_inputs [5; 3; 4]%Z true)) /\
  size 0 (outputs (returned (forward (built (plain_args false)) toy_inputs
                               [5; 3; 4]%Z true))) = 5 /\
  size 0 (outputs_sub (returned (forward (built (plain_args false)) toy_inputs
                                   [5; 3; 4]%Z true))) = 5 /\
  perm_indices (returned (forward (built (plain_args false)) toy_inputs
                            [5; 3; 4]%Z true)) = [0; 2; 1].
Proof.
  assert (H : forward (built (plain_args false)) toy_inputs [5; 3; 4]%Z true
              = Ok (returned (forward (built (plain_args false)) toy_inputs
                               [5; 3; 4]%Z true)))
    by (vm_compute; reflexivity).
  split; [exact H |].
  exact (proj1 (scenario_lengths_5_3_4 (built (plain_args false)) toy_inputs true
                  eq_refl eq_refl eq_refl eq_refl) _ H).
Defined.

(** ** The permutation *)

(** C1, as the claim states it, fails for the batch of lengths 3, 5, 4:
    forward returns the permutation [1, 2, 0], and the rows of its
    outputs indexed by that permutation are not the outputs of the
    three examples in the order of the caller. *)
Lemma perm_indices_do_not_unsort :
  forward (built (plain_args true)) toy_inputs_rotated toy_seq_len_rotated true
  = Ok rotated_result /\
  perm_indices rotated_result = [1; 2; 0] /\
  exists by_perm,
    index_select (outputs rotated_result) (perm_indices rotated_result) = Ok by_perm /\
    valid_frames toy_seq_len_rotated by_perm <> caller_order.
Proof.
  split; [vm_compute; reflexivity |]. split; [vm_compute; reflexivity |].
  eexists. split; [vm_compute; reflexivity |].
  vm_compute. discriminate.
Qed.

Lemma perm_indices_sorts_batch_witness :
  length toy_inputs_rotated = length toy_seq_len_rotated /\
  forward (built (plain_args true)) toy_inputs_rotated toy_seq_len_rotated true
  = Ok rotated_result /\
  exists by_inverse,
    index_select (outputs rotated_result)
      (inverse_permutation (perm_indices rotated_result)) = Ok by_inverse /\
    valid_frames toy_seq_len_rotated by_inverse = caller_order.
Proof.
  assert (H1 : length toy_inputs_rotated = length toy_seq_len_rotated) by reflexivity.
  assert (H2 : forward (built (plain_args true)) toy_inputs_rotated toy_seq_len_rotated true
               = Ok rotated_result) by (vm_compute; reflexivity).
  split; [exact H1 | split; [exact H2 |]].
  destruct (@perm_indices_sorts_batch toy _ _ _ _ _ H1 H2) as (Hperm & _ & _ & _).
  rewrite Hperm. eexists. split; vm_compute; reflexivity.
Defined.

(** ** The merge after a projection *)

(** C7 at the failing input of the report: bidirectional with merge,
    num_units = 1, a projection to 3 features, two layers and the
    sub-layer index 1.  The merged final outputs have one feature, the
    merged sub outputs two; with num_units = 2 and a projection to 5
    features the merge of the sub outputs raises. *)
Theorem merged_sub_outputs_after_projection :
  __init__ projected_args = Ok (built projected_args) /\
  bidirectional (built projected_args) && merge_bidirectional (built projected_args) = true /\
  num_units (built projected_args) = 1%Z /\
  (exists r,
     forward (built projected_args) toy_inputs toy_seq_len true = Ok r /\
     last_dim 1 (outputs r) /\ last_dim 2 (outputs_sub r)) /\
  (exists self,
     __init__ projected_wide_args = Ok self /\
     forward self toy_inputs toy_seq_len true = Raise RuntimeError).
Proof.
  split; [reflexivity |]. split; [reflexivity |]. split; [reflexivity |]. split.
  - eexists. split; [vm_compute; reflexivity |].
    split; repeat constructor.
  - eexists. split; [reflexivity |]. vm_compute. reflexivity.
Qed.

Lemma sum_bidirectional_halves_witness :
  bidirectional (built dense_args) && merge_bidirectional (built dense_args) = true /\
  num_units (built dense_args) = Z.of_nat 2 /\
  last_dim (2 * 2) [[[1; 2; 3; 4]]]%Z /\
  sum_bidirectional (built dense_args) [[[1; 2; 3; 4]]]%Z [[[1; 2; 3; 4]]]%Z
  = Ok ([[[4; 6]]]%Z, [[[4; 6]]]%Z).
Proof.
  assert (H1 : bidirectional (built dense_args) && merge_bidirectional (built dense_args)
               = true) by reflexivity.
  assert (H2 : num_units (built dense_args) = Z.of_nat 2) by reflexivity.
  assert (H3 : last_dim (2 * 2) [[[1; 2; 3; 4]]]%Z) by (repeat constructor).
  split; [exact H1 | split; [exact H2 | split; [exact H3 |]]].
  exact (proj1 (@sum_bidirectional_halves toy _ _ _ _ H1 H2 H3 H3)).
Defined.

(** ** Runs for the further properties *)

Lemma init_builds_layers_witness :
  __init__ dense_args = Ok (built dense_args) /\
  length (rnns (built dense_args)) = 3 /\
  length (projections (built dense_args)) = 3.
Proof.
  assert (H : __init__ dense_args = Ok (built dense_args)) by reflexivity.
  split; [exact H |].
  destruct (init_builds_layers _ H) as (class & first & _ & _ & Hr & Hp).
  rewrite Hr, Hp. split; reflexivity.
Defined.

Lemma init_unknown_rnn_type_witness :
  cell_class (Args.rnn_type (set_rnn_type "blstm" (plain_args true))) = None /\
  __init__ (set_rnn_type "blstm" (plain_args true)) = Raise (ValueError rnn_type_message).
Proof.
  assert (H : cell_class (Args.rnn_type (set_rnn_type "blstm" (plain_args true))) = None)
    by reflexivity.
  split; [exact H |].
  exact (@init_unknown_rnn_type toy (set_rnn_type "blstm" (plain_args true))
           (2%Z, None, None) H eq_refl eq_refl eq_refl).
Defined.

Lemma init_front_end_witness :
  wants_conv (set_front_end [1; 1]%Z [(3, 3)]%Z 1%Z (plain_args true)) = false /\
  conv (built (set_front_end [1; 1]%Z [(3, 3)]%Z 1%Z (plain_args true))) = None /\
  __init__ (set_front_end [1]%Z [(3, 3)]%Z 2%Z (plain_args true))
  = Raise (AssertionError 97).
Proof.
  split; [reflexivity |]. split.
  - exact (proj1 (proj1 (init_front_end
                           (set_front_end [1; 1]%Z [(3, 3)]%Z 1%Z (plain_args true)))
                    _ eq_refl)).
  - apply (proj2 (init_front_end (set_front_end [1]%Z [(3, 3)]%Z 2%Z (plain_args true))));
      [reflexivity | reflexivity | reflexivity | discriminate].
Defined.

Lemma outputs_sizes_witness :
  forward (built dense_args) toy_inputs toy_seq_len true
  = Ok (returned (forward (built dense_args) toy_inputs toy_seq_len true)) /\
  size 1 (outputs (returned (forward (built dense_args) toy_inputs toy_seq_len true))) = 3 /\
  size 0 (outputs (returned (forward (built dense_args) toy_inputs toy_seq_len true))) = 3.
Proof.
  assert (H : forward (built dense_args) toy_inputs toy_seq_len true
              = Ok (returned (forward (built dense_args) toy_inputs toy_seq_len true)))
    by (vm_compute; reflexivity).
  split; [exact H |].
  destruct (outputs_sizes _ _ _ _ H) as (tracked & Htr & _ & _ & Ht & _ & Hb & _).
  assert (E : tracked = [3; 2; 2]%Z).
  { vm_compute in Htr. injection Htr as <-. reflexivity. }
  rewrite E in Ht. split; [exact Ht | exact Hb].
Defined.

Lemma sub_results_of_truncated_encoder_witness :
  (num_proj (built residual_args) <= 0)%Z /\
  forward (built residual_args) toy_inputs toy_seq_len true
  = Ok (returned (forward (built residual_args) toy_inputs toy_seq_len true)) /\
  forward (truncated (built residual_args)) toy_inputs toy_seq_len true
  = Ok (sub_results (returned (forward (built residual_args) toy_inputs toy_seq_len true))).
Proof.
  assert (H1 : (num_proj (built residual_args) <= 0)%Z) by (vm_compute; discriminate).
  assert (H2 : forward (built residual_args) toy_inputs toy_seq_len true
               = Ok (returned (forward (built residual_args) toy_inputs toy_seq_len true)))
    by (vm_compute; reflexivity).
  split; [exact H1 | split; [exact H2 |]].
  exact (sub_results_of_truncated_encoder _ _ _ _ H1 H2).
Defined.




Lemma toy_cell_keeps_lengths (i : nat) (isz hsz : Z) (bf : bool) (dropout : Z) (bidir : bool) :
  @keeps_lengths toy (toy_cell i isz hsz bf dropout bidir).
Proof.
  intros p h_0. unfold toy_cell. cbn [fst snd]. split.
  - unfold packed_lengths. rewrite map_map. apply map_ext. intros row.
    rewrite length_map. reflexivity.
  - destruct bidir; discriminate.
Qed.

Lemma toy_cells_keep_lengths (a : @Args.t toy) (self : @encoder toy) :
  __init__ a = Ok self -> Forall keeps_lengths (rnns self).
Proof.
  intros H. destruct (init_builds_layers _ H) as (class & first & Hclass & _ & Hr & _).
  rewrite Hr. apply Forall_map. apply Forall_forall. intros i _.
  unfold cell_class in Hclass.
  destruct (String.eqb (Args.rnn_type a) "lstm");
    [| destruct (String.eqb (Args.rnn_type a) "gru");
       [| destruct (String.eqb (Args.rnn_type a) "rnn"); [| discriminate]]];
    injection Hclass as <-; apply toy_cell_keeps_lengths.
Qed.

Lemma outputs_padding_is_zero_witness :
  forward (built (plain_args true)) toy_inputs toy_seq_len true
  = Ok (returned (forward (built (plain_args true)) toy_inputs toy_seq_len true)) /\
  bidirectional (built (plain_args true)) && merge_bidirectional (built (plain_args true))
  = false /\
  frame true (outputs (returned (forward (built (plain_args true)) toy_inputs
                                   toy_seq_len true))) 2 3 = [0; 0]%Z.
Proof.
  assert (H1 : forward (built (plain_args true)) toy_inputs toy_seq_len true
               = Ok (returned (forward (built (plain_args true)) toy_inputs
                                 toy_seq_len true)))
    by (vm_compute; reflexivity).
  assert (H2 : bidirectional (built (plain_args true))
               && merge_bidirectional (built (plain_args true)) = false) by reflexivity.
  split; [exact H1 | split; [exact H2 |]].
  destruct (@outputs_padding_is_zero toy _ _ _ _ _ H1 H2) as (tracked & Htr & Hpad).
  assert (E : tracked = [5; 4; 3]%Z).
  { vm_compute in Htr. injection Htr as <-. reflexivity. }
  subst tracked.
  destruct (Hpad 2 3 3%Z eq_refl) as [Ho _]; [vm_compute; lia | vm_compute; lia |].
  exact Ho.
Defined.

Lemma forward_returns_plain_witness :
  exists r, forward (built (plain_args false)) toy_inputs_rotated toy_seq_len_rotated true
            = Ok r.
Proof.
  apply (@forward_returns_plain toy (built (plain_args false)) toy_inputs_rotated
           toy_seq_len_rotated true 5).
  - reflexivity.
  - reflexivity.
  - reflexivity.
  - vm_compute. split; discriminate.
  - vm_compute. lia.
  - apply (toy_cells_keep_lengths (plain_args false)). reflexivity.
  - discriminate.
  - reflexivity.
  - repeat constructor; vm_compute; discriminate.
  - repeat constructor.
Defined.

Lemma forward_never_uses_unset_witness :
  __init__ projected_wide_args = Ok (built projected_wide_args) /\
  forward (built projected_wide_args) toy_inputs toy_seq_len true = Raise RuntimeError /\
  RuntimeError <> UnboundLocalError /\ RuntimeError <> AttributeError.
Proof.
  assert (H1 : __init__ projected_wide_args = Ok (built projected_wide_args))
    by reflexivity.
  assert (H2 : forward (built projected_wide_args) toy_inputs toy_seq_len true
               = Raise RuntimeError) by (vm_compute; reflexivity).
  split; [exact H1 | split; [exact H2 |]].
  exact (@forward_never_uses_unset toy _ _ _ _ _ _ H1 H2).
Defined.
